(** * TinyShell: pipelines, redirection and job control

  A shallow embedding of the three phases of the TinyShell sources:

  - [Phase1]: the command loop of [Phase 1/tinyshell.c] (builtin [exit]);
  - [Phase2]: the pipeline parser and launcher of the Phase 2 source
    ([parse_pipeline], [execute_pipeline], [main]);
  - [Phase3]: the job table, the [SIGCHLD] handler, the [fg]/[bg]
    builtins and [eval] of [Phase 3/tinyshell.c];
  - [Phase1Shell], [Phase2Shell]: the loops of [main] of the first two
    phases over the lines read, and the launch of a command in
    Phase 1.

  Integers of the C code ([int], [pid_t]) are modelled as [Z]; strings
  as [string]; the fixed arrays as lists updated by index.  System
  calls are modelled by their effect on an explicit world state and by
  the events they leave in a log. *)

From Stdlib Require Import ZArith String Ascii Lia DecimalString HexadecimalString
  DecimalPos.
From stdpp Require Import base list strings gmap.

Open Scope Z_scope.

(* ================================================================== *)
(** * C library helpers shared by the three phases *)
(* ================================================================== *)

Module Libc.

(** [isspace] of the C locale. *)
Definition isspace (c : ascii) : bool :=
  let n := Z.of_N (N_of_ascii c) in
  (n =? 32) || ((9 <=? n) && (n <=? 13)).

Definition digit_val (c : ascii) : option Z :=
  let n := Z.of_N (N_of_ascii c) in
  if (48 <=? n) && (n <=? 57) then Some (n - 48) else None.

Fixpoint skip_space (s : string) : string :=
  match s with
  | String c s' => if isspace c then skip_space s' else s
  | EmptyString => s
  end.

Fixpoint atoi_digits (s : string) (acc : Z) : Z :=
  match s with
  | String c s' =>
      match digit_val c with
      | Some d => atoi_digits s' (10 * acc + d)
      | None => acc
      end
  | EmptyString => acc
  end.

(** The number a string starts with: optional white space, optional
    sign, then the longest run of decimal digits; 0 when there is
    none. *)
Definition decimal_value (s : string) : Z :=
  match skip_space s with
  | String "-"%char s' => - atoi_digits s' 0
  | String "+"%char s' => atoi_digits s' 0
  | s' => atoi_digits s' 0
  end.

Definition LONG_MIN : Z := -9223372036854775808.
Definition LONG_MAX : Z := 9223372036854775807.

(** [strtol(s, NULL, 10)] with a 64-bit [long]: a value out of range
    is replaced by [LONG_MIN] or [LONG_MAX]. *)
Definition strtol (s : string) : Z :=
  Z.max LONG_MIN (Z.min (decimal_value s) LONG_MAX).

(** The conversion of a [long] to [int]: the low 32 bits are kept, as
    a signed number. *)
Definition to_int (n : Z) : Z :=
  (n + 2147483648) mod 4294967296 - 2147483648.

(** [atoi(s)] is [(int) strtol(s, NULL, 10)]: a number that does not
    fit an [int] wraps around. *)
Definition atoi (s : string) : Z := to_int (strtol s).

(** [printf("%d", n)]. *)
Definition dec (n : Z) : string :=
  DecimalString.NilZero.string_of_int (Z.to_int n).

(** [printf("%x", n)] for [0 <= n]. *)
Definition hex (n : Z) : string :=
  HexadecimalString.NilZero.string_of_uint (N.to_hex_uint (Z.to_N n)).

(** [snprintf(buf, size, "%s", s)]: at most [size - 1] characters are
    kept. *)
Definition snprintf_s (size : Z) (s : string) : string :=
  String.substring 0 (Z.to_nat (size - 1)) s.

(** [strtok] iterated to exhaustion: the maximal runs of characters
    that are not delimiters, in order. *)
Fixpoint tokenize (is_delim : ascii -> bool) (s : string) (cur : string)
  : list string :=
  match s with
  | EmptyString => if decide (cur = EmptyString) then [] else [cur]
  | String c s' =>
      if is_delim c then
        if decide (cur = EmptyString) then tokenize is_delim s' EmptyString
        else cur :: tokenize is_delim s' EmptyString
      else tokenize is_delim s' (cur +:+ String c EmptyString)
  end.

(** [strcmp(a, b) == 0]. *)
Definition streq (a b : string) : bool := bool_decide (a = b).

End Libc.

(* ================================================================== *)
(** * Control: a state monad with process exit and blocking *)
(* ================================================================== *)

Module Control.

(** How a piece of the program ends, over a process state [S]. *)
Inductive result (S A : Type) :=
| Ret (a : A) (s : S)        (* it returns [a] *)
| Exit (code : Z) (s : S)    (* the process terminates with [code] *)
| Exec (prog : string) (argv : list string) (s : S)
                             (* the process image is replaced *)
| Hang (s : S).              (* suspended and never woken up *)
Arguments Ret {S A} a s.
Arguments Exit {S A} code s.
Arguments Exec {S A} prog argv s.
Arguments Hang {S A} s.

Definition M (S A : Type) : Type := S -> result S A.

Definition ret {S A} (a : A) : M S A := fun s => Ret a s.

Definition bind {S A B} (m : M S A) (k : A -> M S B) : M S B :=
  fun s =>
    match m s with
    | Ret a s' => k a s'
    | Exit c s' => Exit c s'
    | Exec p a s' => Exec p a s'
    | Hang s' => Hang s'
    end.

Notation "'let*' x ':=' m 'in' k" := (bind m (fun x => k))
  (at level 10, x name, m at level 100, k at level 200).
Notation "m ';;' k" := (bind m (fun _ => k))
  (at level 100, k at level 200, right associativity).

Definition final {S A} (r : result S A) : S :=
  match r with
  | Ret _ s | Exit _ s | Exec _ _ s | Hang s => s
  end.

Definition get {S} : M S S := fun s => Ret s s.
Definition modify {S} (f : S -> S) : M S unit := fun s => Ret tt (f s).
Definition exit {S A} (code : Z) : M S A := fun s => Exit code s.
Definition exec {S A} (prog : string) (argv : list string) : M S A :=
  fun s => Exec prog argv s.

End Control.

(* ================================================================== *)
(** * Wait statuses *)
(* ================================================================== *)

Module Wait.

(** The status word filled in by [wait] and [waitpid], as the four
    kinds of report the macros [WIFEXITED], [WIFSIGNALED],
    [WIFSTOPPED] and [WIFCONTINUED] tell apart. *)
Inductive wstatus :=
| WExited (code : Z)
| WSignaled (sig : Z)
| WStopped (sig : Z)
| WContinued.

Definition WIFEXITED (s : wstatus) : bool :=
  match s with WExited _ => true | _ => false end.
Definition WIFSIGNALED (s : wstatus) : bool :=
  match s with WSignaled _ => true | _ => false end.
Definition WIFSTOPPED (s : wstatus) : bool :=
  match s with WStopped _ => true | _ => false end.
Definition WIFCONTINUED (s : wstatus) : bool :=
  match s with WContinued => true | _ => false end.
Definition WEXITSTATUS (s : wstatus) : Z :=
  match s with WExited c => c | _ => 0 end.
Definition WTERMSIG (s : wstatus) : Z :=
  match s with WSignaled sig => sig | _ => 0 end.

(** The status as an [int] (Linux encoding), for [printf("0x%x")]. *)
Definition raw (s : wstatus) : Z :=
  match s with
  | WExited c => Z.shiftl (Z.land c 255) 8
  | WSignaled sig => Z.land sig 127
  | WStopped sig => Z.lor (Z.shiftl (Z.land sig 255) 8) 127
  | WContinued => 65535
  end.

End Wait.

(* ================================================================== *)
(** * Phase 1: the command loop and its [exit] builtin *)
(* ================================================================== *)

Module Phase1.
Import Libc.

Definition MAX_LINE : Z := 4096.
Definition MAX_ARGS : Z := 256.

Definition is_ws (c : ascii) : bool :=
  let n := Z.of_N (N_of_ascii c) in
  (n =? 32) || (n =? 9) || (n =? 10) || (n =? 13).

Fixpoint ltrim (s : string) : string :=
  match s with
  | String c s' => if is_ws c then ltrim s' else s
  | EmptyString => s
  end.

(** The trailing loop of [trim]: blanks at the end are overwritten by
    NUL. *)
Fixpoint rtrim (s : string) : string :=
  match s with
  | String c s' =>
      match rtrim s' with
      | EmptyString => if is_ws c then EmptyString else String c EmptyString
      | r => String c r
      end
  | EmptyString => EmptyString
  end.

(** [trim]: the first character that is kept is never examined by the
    trailing loop ([end > s]). *)
Definition trim (s : string) : string :=
  match ltrim s with
  | String c rest => String c (rtrim rest)
  | EmptyString => EmptyString
  end.

Definition is_delim (c : ascii) : bool :=
  let n := Z.of_N (N_of_ascii c) in
  (n =? 32) || (n =? 9) || (n =? 10).

Definition split_line (line : string) (max_args : Z) : list string :=
  take (Z.to_nat (max_args - 1)) (tokenize is_delim line EmptyString).

(** One turn of the loop of [main], up to the decision what to do with
    the line; resolving and running an external program is left to
    [Launch]. *)
Inductive step :=
| Continue                                  (* next prompt *)
| Return (code : Z) (out : string)          (* [main] returns *)
| Launch (argv : list string).

Definition main_step (linebuf : string) : step :=
  let line := trim linebuf in
  if bool_decide (line = EmptyString) then Continue
  else
    let argv := split_line line MAX_ARGS in
    match argv with
    | [] => Continue
    | a0 :: _ =>
        if streq a0 "exit" then
          let exit_code :=
            match argv !! 1%nat with
            | Some a1 => atoi a1
            | None => 0
            end in
          Return exit_code ("Exiting (exit " +:+ dec exit_code +:+ ")
")
        else Launch argv
    end.

End Phase1.

(* ================================================================== *)
(** * Phase 2: pipelines and output redirection *)
(* ================================================================== *)

(** Values of the [open] flags and of the standard descriptors, as in
  the Linux headers the sources are compiled against. *)
Module Fcntl.
Definition O_WRONLY : Z := 1.
Definition O_CREAT : Z := 64.
Definition O_TRUNC : Z := 512.
Definition O_APPEND : Z := 1024.
Definition STDIN_FILENO : nat := 0.
Definition STDOUT_FILENO : nat := 1.
Definition has_flag (flags f : Z) : bool := negb (Z.land flags f =? 0).
End Fcntl.

Module Phase2.
Import Libc Control Fcntl Wait.

Definition MAX_LINE : Z := 4096.
Definition MAX_ARGS : Z := 256.
Definition MAX_CMDS : Z := 32.

Definition trim := Phase1.trim.
Definition split_line := Phase1.split_line.

(** ** The pipeline structure *)

(** A [Command] is its argument vector; [argc] is its length and the
    terminating [NULL] is implicit.  [cmds] is the whole array of
    [MAX_CMDS] commands, of which the first [n_cmds] are in use. *)
Record Pipeline := mkpl {
  cmds : list (list string);
  n_cmds : Z;
  outfile : option string;
  append : bool
}.

Definition argc_at (i : nat) (pl : Pipeline) : Z :=
  Z.of_nat (length (default [] (cmds pl !! i))).

Definition push_arg (i : nat) (tok : string) (pl : Pipeline) : Pipeline :=
  mkpl (alter (fun a => a ++ [tok]) i (cmds pl)) (n_cmds pl) (outfile pl) (append pl).

Definition next_cmd (pl : Pipeline) : Pipeline :=
  mkpl (cmds pl) (n_cmds pl + 1) (outfile pl) (append pl).

Definition set_redirect (file : string) (app : bool) (pl : Pipeline) : Pipeline :=
  mkpl (cmds pl) (n_cmds pl) (Some file) app.

(** The stages of a parsed pipeline. *)
Definition stages (pl : Pipeline) : list (list string) :=
  take (Z.to_nat (n_cmds pl)) (cmds pl).

(** ** [parse_pipeline] *)

Inductive parse_result :=
| ParseOk (pl : Pipeline)            (* returns 0 *)
| ParseErr (msg : option string).    (* returns -1, after [msg] on stderr *)

Definition is_redirect (tok : string) : bool := streq tok ">" || streq tok ">>".

(** [tok[1] == '>'] *)
Definition is_append (tok : string) : bool :=
  bool_decide (String.get 1 tok = Some ">"%char).

(** The [for] loop over the tokens from index [i] on; [cmd_idx] is the
    index [cur] points to. *)
Fixpoint parse_loop (toks : list string) (cmd_idx : nat) (pl : Pipeline)
  : parse_result :=
  match toks with
  | [] =>
      if argc_at cmd_idx pl =? 0 then
        ParseErr (Some "tinyshell: empty command in pipeline
")
      else ParseOk pl
  | tok :: rest =>
      if streq tok "|" then
        if argc_at cmd_idx pl =? 0 then
          ParseErr (Some "tinyshell: syntax error near '|'
")
        else if MAX_CMDS <=? n_cmds pl then
          ParseErr (Some ("tinyshell: too many pipeline stages (max "
                            +:+ dec MAX_CMDS +:+ ")
"))
        else parse_loop rest (S cmd_idx) (next_cmd pl)
      else if is_redirect tok then
        match rest with
        | [] => ParseErr (Some "tinyshell: redirection without filename
")
        | file :: rest' =>
            match outfile pl with
            | Some _ =>
                ParseErr (Some "tinyshell: multiple output redirections
")
            | None => parse_loop rest' cmd_idx (set_redirect file (is_append tok) pl)
            end
        end
      else if MAX_ARGS - 1 <=? argc_at cmd_idx pl then
        ParseErr (Some "tinyshell: too many arguments
")
      else parse_loop rest cmd_idx (push_arg cmd_idx tok pl)
  end.

(** After the initial [memset] of the whole structure to 0. *)
Definition empty_pipeline : Pipeline :=
  mkpl (replicate (Z.to_nat MAX_CMDS) []) 0 None false.

Definition parse_pipeline (tokens : list string) : parse_result :=
  match tokens with
  | [] => ParseErr None
  | _ => parse_loop tokens 0 (next_cmd empty_pipeline)
  end.

(** ** The process and the part of the kernel it uses *)

(** What a descriptor is open on. *)
Inductive ofd :=
| OTty
| OPipeR (k : nat)
| OPipeW (k : nat)
| OFile (path : string) (app : bool) (off : nat).

Inductive event :=
| EvPipe (r w : Z)
| EvFork (stage : nat) (ret : Z)
| EvDup2 (old new : Z) (ret : Z)
| EvOpen (path : string) (flags mode : Z) (ret : Z)
| EvClose (fd : Z)
| EvWait (p : Z) (status : wstatus)
| EvPerror (s : string)
| EvStdout (s : string)
| EvStderr (s : string).

(** The running process (the shell, or after [fork] returned 0 one of
    its children, which starts as a copy of it): its descriptor table,
    and what it sees of the system.  [fork_results] and [wait_results]
    are the values the successive calls of [fork] and [wait] return;
    [path_env] is [getenv("PATH")], [executable] tells for which paths
    [access(path, X_OK)] is 0, and [execve_ok] for which [execve]
    succeeds. *)
Record world := mkworld {
  fdt : gmap Z ofd;
  fd_limit : nat;
  next_pipe : nat;
  fs : gmap string string;
  fs_denied : list string;
  fork_results : list Z;
  wait_results : list (Z * wstatus);
  path_env : option string;
  executable : string -> bool;
  execve_ok : string -> bool;
  strsignal : Z -> string;
  in_child : option nat;
  trace : list event
}.

Definition set_fdt (t : gmap Z ofd) (w : world) : world :=
  mkworld t (fd_limit w) (next_pipe w) (fs w) (fs_denied w) (fork_results w)
          (wait_results w) (path_env w) (executable w) (execve_ok w) (strsignal w) (in_child w) (trace w).
Definition set_next_pipe (k : nat) (w : world) : world :=
  mkworld (fdt w) (fd_limit w) k (fs w) (fs_denied w) (fork_results w)
          (wait_results w) (path_env w) (executable w) (execve_ok w) (strsignal w) (in_child w) (trace w).
Definition set_fs (f : gmap string string) (w : world) : world :=
  mkworld (fdt w) (fd_limit w) (next_pipe w) f (fs_denied w) (fork_results w)
          (wait_results w) (path_env w) (executable w) (execve_ok w) (strsignal w) (in_child w) (trace w).
Definition set_fork_results (l : list Z) (w : world) : world :=
  mkworld (fdt w) (fd_limit w) (next_pipe w) (fs w) (fs_denied w) l
          (wait_results w) (path_env w) (executable w) (execve_ok w) (strsignal w) (in_child w) (trace w).
Definition set_wait_results (l : list (Z * wstatus)) (w : world) : world :=
  mkworld (fdt w) (fd_limit w) (next_pipe w) (fs w) (fs_denied w) (fork_results w)
          l (path_env w) (executable w) (execve_ok w) (strsignal w) (in_child w) (trace w).
Definition set_in_child (c : option nat) (w : world) : world :=
  mkworld (fdt w) (fd_limit w) (next_pipe w) (fs w) (fs_denied w) (fork_results w)
          (wait_results w) (path_env w) (executable w) (execve_ok w) (strsignal w) c (trace w).
Definition emit (e : event) (w : world) : world :=
  mkworld (fdt w) (fd_limit w) (next_pipe w) (fs w) (fs_denied w) (fork_results w)
          (wait_results w) (path_env w) (executable w) (execve_ok w) (strsignal w) (in_child w)
          (trace w ++ [e]).

(** The kernel hands out the lowest descriptor that is not in use, and
    none at or above the limit of the process. *)
Definition lowest_free (t : gmap Z ofd) (limit : nat) : option Z :=
  snd <$> list_find (fun fd => t !! fd = None) (Z.of_nat <$> seq 0 limit).

(** [pipe]: two new descriptors on a new pipe, or failure. *)
Definition sys_pipe : M world (option (Z * Z)) :=
  fun w =>
    match lowest_free (fdt w) (fd_limit w) with
    | None => Ret None w
    | Some r =>
        let t := <[r := OPipeR (next_pipe w)]> (fdt w) in
        match lowest_free t (fd_limit w) with
        | None => Ret None w
        | Some wr =>
            Ret (Some (r, wr))
                (emit (EvPipe r wr)
                      (set_next_pipe (S (next_pipe w))
                                     (set_fdt (<[wr := OPipeW (next_pipe w)]> t) w)))
        end
    end.

(** [fork] for the process that goes on to create stage [i]: a
    positive process id, -1, or 0 when it is the child that runs
    on. *)
Definition sys_fork (i : nat) : M world Z :=
  fun w =>
    match fork_results w with
    | [] => Ret (-1) (emit (EvFork i (-1)) w)
    | r :: rest =>
        let w := emit (EvFork i r) (set_fork_results rest w) in
        Ret r (if r =? 0 then set_in_child (Some i) w else w)
    end.

Definition sys_dup2 (old new : Z) : M world Z :=
  fun w =>
    match fdt w !! old with
    | None => Ret (-1) (emit (EvDup2 old new (-1)) w)
    | Some d =>
        Ret new (emit (EvDup2 old new new)
                      (if old =? new then w else set_fdt (<[new := d]> (fdt w)) w))
    end.

Definition sys_close (fd : Z) : M world unit :=
  modify (fun w => emit (EvClose fd) (set_fdt (delete fd (fdt w)) w)).

(** [open(path, flags, mode)] for writing: the file is created when
    absent and [O_CREAT] is given, emptied when [O_TRUNC] is given;
    the descriptor starts at offset 0. *)
Definition sys_open (path : string) (flags mode : Z) : M world Z :=
  fun w =>
    let fail := Ret (-1) (emit (EvOpen path flags mode (-1)) w) in
    if bool_decide (path ∈ fs_denied w) then fail
    else
      match lowest_free (fdt w) (fd_limit w) with
      | None => fail
      | Some fd =>
          let opened (content : string) :=
            Ret fd (emit (EvOpen path flags mode fd)
                         (set_fs (<[path := content]> (fs w))
                                 (set_fdt (<[fd := OFile path (has_flag flags O_APPEND) 0]>
                                             (fdt w)) w))) in
          match fs w !! path with
          | None => if has_flag flags O_CREAT then opened EmptyString else fail
          | Some content =>
              opened (if has_flag flags O_TRUNC then EmptyString else content)
          end
      end.

(** [write(fd, data)] on a regular file: at the end of the file when
    the descriptor was opened with [O_APPEND], at its offset
    otherwise. *)
Definition sys_write (fd : Z) (data : string) (w : world) : world :=
  match fdt w !! fd with
  | Some (OFile path app off) =>
      let content := default EmptyString (fs w !! path) in
      let off := if app then String.length content else off in
      let stop := (off + String.length data)%nat in
      let content' :=
        String.substring 0 off content +:+ data
          +:+ String.substring stop (String.length content - stop) content in
      set_fs (<[path := content']> (fs w))
             (set_fdt (<[fd := OFile path app stop]> (fdt w)) w)
  | _ => w
  end.

Definition perror (s : string) : M world unit := modify (emit (EvPerror s)).
Definition printf (s : string) : M world unit := modify (emit (EvStdout s)).
Definition eprintf (s : string) : M world unit := modify (emit (EvStderr s)).

(** ** [execute_pipeline] *)

Definition pipe_read (pipes : list (Z * Z)) (i : nat) : Z :=
  fst (default (0, 0) (pipes !! i)).
Definition pipe_write (pipes : list (Z * Z)) (i : nat) : Z :=
  snd (default (0, 0) (pipes !! i)).

(** The first loop: [k] more pipes are to be created after [pipes].
    [None] stands for the early [return]. *)
Fixpoint create_pipes (k : nat) (pipes : list (Z * Z))
  : M world (option (list (Z * Z))) :=
  match k with
  | O => ret (Some pipes)
  | S k' =>
      let* r := sys_pipe in
      match r with
      | None => perror "pipe" ;; ret None
      | Some p => create_pipes k' (pipes ++ [p])
      end
  end.

(** [for (j = 0; j < n - 1; j++) { close(pipes[j][0]); close(pipes[j][1]); }] *)
Fixpoint close_pipes (pipes : list (Z * Z)) : M world unit :=
  match pipes with
  | [] => ret tt
  | p :: ps => sys_close (fst p) ;; sys_close (snd p) ;; close_pipes ps
  end.

Definition redirect_flags (app : bool) : Z :=
  let flags := Z.lor O_WRONLY O_CREAT in
  if app then Z.lor flags O_APPEND else Z.lor flags O_TRUNC.

(** The child created for stage [i], step by step.  First its
    standard input, from the pipe before it: *)
Definition wire_stdin (pipes : list (Z * Z)) (i : nat) : M world unit :=
  if 0 <? Z.of_nat i then
    let* r := sys_dup2 (pipe_read pipes (i - 1)) (Z.of_nat STDIN_FILENO) in
    if r <? 0 then perror "dup2 stdin" ;; exit 1 else ret tt
  else ret tt.

(** ... its standard output, to the pipe after it: *)
Definition wire_stdout (pl : Pipeline) (pipes : list (Z * Z)) (i : nat)
  : M world unit :=
  if Z.of_nat i <? n_cmds pl - 1 then
    let* r := sys_dup2 (pipe_write pipes i) (Z.of_nat STDOUT_FILENO) in
    if r <? 0 then perror "dup2 stdout" ;; exit 1 else ret tt
  else ret tt.

(** ... the output redirection, in the last stage ([0666] is 438): *)
Definition redirect_output (pl : Pipeline) (i : nat) : M world unit :=
  match outfile pl with
  | Some file =>
      if Z.of_nat i =? n_cmds pl - 1 then
        let* fd := sys_open file (redirect_flags (append pl)) 438 in
        if fd <? 0 then perror file ;; exit 1
        else
          let* r := sys_dup2 fd (Z.of_nat STDOUT_FILENO) in
          if r <? 0 then perror "dup2 redirect" ;; sys_close fd ;; exit 1
          else sys_close fd
      else ret tt
  | None => ret tt
  end.

(** [find_executable_in_path]: a name with a slash is taken as it is;
    another one is looked for in the directories of [PATH] (of
    ["/bin:/usr/bin"] without [PATH]), in order. *)
Definition has_slash (command : string) : bool :=
  bool_decide ("/"%char ∈ list_ascii_of_string command).

Definition path_dirs (w : world) : list string :=
  tokenize (fun c => bool_decide (c = ":"%char))
           (default "/bin:/usr/bin" (path_env w)) EmptyString.

Definition find_executable_in_path (command : string) (w : world)
  : option string :=
  if bool_decide (command = EmptyString) then None
  else if has_slash command then
    if executable w command then Some command else None
  else
    snd <$> list_find (fun candidate => executable w candidate = true)
                      ((fun dir => dir +:+ "/" +:+ command) <$> path_dirs w).

(** ... and, once the pipe descriptors are closed, the program. *)
Definition load_program (pl : Pipeline) (i : nat) : M world unit :=
  let argv := default [] (cmds pl !! i) in
  let argv0 := default EmptyString (head argv) in
  let* w := get in
  match find_executable_in_path argv0 w with
  | None => eprintf ("tinyshell: command not found: " +:+ argv0 +:+ "
") ;; exit 127
  | Some prog_path =>
      if execve_ok w prog_path then exec prog_path argv
      else perror "execve" ;; exit 127
  end.

(** It ends in [_exit] or in [execve], and never returns. *)
Definition child_stage (pl : Pipeline) (pipes : list (Z * Z)) (i : nat)
  : M world unit :=
  wire_stdin pipes i ;;
  wire_stdout pl pipes i ;;
  redirect_output pl i ;;
  close_pipes pipes ;;
  load_program pl i.

(** The second loop, for the stages [todo] still to be created. *)
Fixpoint fork_loop (pl : Pipeline) (pipes : list (Z * Z)) (todo : list nat)
  : M world unit :=
  match todo with
  | [] => ret tt
  | i :: todo' =>
      let* p := sys_fork i in
      if p <? 0 then perror "fork"
      else if p =? 0 then child_stage pl pipes i
      else fork_loop pl pipes todo'
  end.

Definition msg_wait (w : world) (p : Z) (status : wstatus) : string :=
  if WIFEXITED status then
    "[pid " +:+ dec p +:+ "] exited with code " +:+ dec (WEXITSTATUS status) +:+ "
"
  else if WIFSIGNALED status then
    "[pid " +:+ dec p +:+ "] killed by signal " +:+ dec (WTERMSIG status)
      +:+ " (" +:+ strsignal w (WTERMSIG status) +:+ ")
"
  else "[pid " +:+ dec p +:+ "] ended with status 0x" +:+ hex (raw status) +:+ "
".

(** [while ((wpid = wait(&status)) > 0)] over the reports [rs] that
    [wait] still has to return. *)
Fixpoint wait_all (rs : list (Z * wstatus)) : M world unit :=
  match rs with
  | [] => modify (set_wait_results [])
  | r :: rs' =>
      if 0 <? fst r then
        modify (emit (EvWait (fst r) (snd r))) ;;
        (let* w := get in printf (msg_wait w (fst r) (snd r))) ;;
        wait_all rs'
      else modify (set_wait_results rs')
  end.

Definition execute_pipeline (pl : Pipeline) : M world unit :=
  let n := n_cmds pl in
  let* created := create_pipes (Z.to_nat (n - 1)) [] in
  match created with
  | None => ret tt
  | Some pipes =>
      fork_loop pl pipes (seq 0 (Z.to_nat n)) ;;
      close_pipes pipes ;;
      let* w := get in wait_all (wait_results w)
  end.

(** ** One turn of the loop of [main] *)

(** What [main] does with the tokens of a line that has some. *)
Definition run_tokens (tokens : list string) : M world unit :=
  if streq (default EmptyString (head tokens)) "exit" then
    let exit_code :=
      match tokens !! 1%nat with
      | Some a1 => atoi a1
      | None => 0
      end in
    printf ("Exiting (exit " +:+ dec exit_code +:+ ")
") ;; exit exit_code
  else
    match parse_pipeline tokens with
    | ParseErr msg =>
        match msg with
        | Some m => eprintf m     (* printed by [parse_pipeline] *)
        | None => ret tt
        end
    | ParseOk pl => execute_pipeline pl
    end.

(** [Ret] is [continue]: the loop goes on to the next prompt; [Exit]
    is the [return] of [main] (or [_exit] in a child). *)
Definition main_step (linebuf : string) : M world unit :=
  let line := trim linebuf in
  if bool_decide (line = EmptyString) then ret tt
  else
    let tokens := split_line line MAX_ARGS in
    if bool_decide (tokens = []) then ret tt
    else run_tokens tokens.

(** ** Observations on a run *)

(** [w] with another descriptor table, pipe counter and trace: what a
    run that touches no file and creates no process leaves of [w]. *)
Definition with_proc (t : gmap Z ofd) (k : nat) (tr : list event) (w : world)
  : world :=
  mkworld t (fd_limit w) k (fs w) (fs_denied w) (fork_results w)
          (wait_results w) (path_env w) (executable w) (execve_ok w) (strsignal w) (in_child w) tr.

(** The descriptors of the pipes, in the order the launcher closes
    them. *)
Definition pipe_fds (pipes : list (Z * Z)) : list Z :=
  flat_map (fun p => [p.1; p.2]) pipes.

Definition pipe_event (p : Z * Z) : event := EvPipe p.1 p.2.

(** The pipes created, the processes created and the descriptors
    closed in a trace. *)
Definition pipes_created (tr : list event) : list (Z * Z) :=
  omap (fun e => match e with EvPipe r w => Some (r, w) | _ => None end) tr.
Definition forked (tr : list event) : list (nat * Z) :=
  omap (fun e => match e with EvFork i r => Some (i, r) | _ => None end) tr.
Definition closed (tr : list event) : list Z :=
  omap (fun e => match e with EvClose fd => Some fd | _ => None end) tr.

(** The standard input and output of the process are open. *)
Definition std_open (w : world) : Prop :=
  is_Some (fdt w !! Z.of_nat STDIN_FILENO) /\
  is_Some (fdt w !! Z.of_nat STDOUT_FILENO).

(** What the children of a pipeline inherit: the standard input and
    output of the shell, and the pipes on descriptors other than
    these. *)
Definition wired (pipes : list (Z * Z)) (w : world) : Prop :=
  std_open w /\
  (forall fd, fd ∈ pipe_fds pipes -> fd <> 0 /\ fd <> 1) /\
  (forall j p, pipes !! j = Some p ->
     exists k, fdt w !! p.1 = Some (OPipeR k) /\ fdt w !! p.2 = Some (OPipeW k)).

(** A computation that leaves the identity of the process alone. *)
Definition same_process {A} (m : M world A) : Prop :=
  forall w, in_child (final (m w)) = in_child w.

(** The run is that of a child that has wired its descriptors and
    gone on to look for its program: it ends in [execve], or in
    [_exit(127)]. *)
Definition reaches_program (r : result world unit) : Prop :=
  match r with
  | Exec _ _ _ => True
  | Exit c _ => c = 127
  | _ => False
  end.

(** ** The grammar of a command line, as the specification reads it *)

(** A token sequence is a sequence of words, stage separators and
    redirections; the word after a redirection operator is its file
    name, whatever it looks like. *)
Inductive item :=
| IWord (w : string)
| IPipe
| IRedirect (app : bool) (file : option string).

Fixpoint lex (toks : list string) : list item :=
  match toks with
  | [] => []
  | tok :: rest =>
      if streq tok "|" then IPipe :: lex rest
      else if is_redirect tok then
        match rest with
        | [] => [IRedirect (is_append tok) None]
        | file :: rest' => IRedirect (is_append tok) (Some file) :: lex rest'
        end
      else IWord tok :: lex rest
  end.

(** The words of each stage; there is one stage more than there are
    separators. *)
Fixpoint split_stages (its : list item) : list (list string) :=
  match its with
  | [] => [[]]
  | IPipe :: rest => [] :: split_stages rest
  | IRedirect _ _ :: rest => split_stages rest
  | IWord w :: rest =>
      match split_stages rest with
      | s :: ss => (w :: s) :: ss
      | [] => [[w]]
      end
  end.

Definition is_pipe (it : item) : bool :=
  match it with IPipe => true | _ => false end.
Definition is_redir (it : item) : bool :=
  match it with IRedirect _ _ => true | _ => false end.
Definition lacks_file (it : item) : bool :=
  match it with IRedirect _ None => true | _ => false end.
Definition is_empty_stage (s : list string) : bool :=
  match s with [] => true | _ => false end.
Definition count_items (f : item -> bool) (its : list item) : Z :=
  Z.of_nat (length (filter (fun it => f it = true) its)).

(** The five causes of a [ParseError]. *)
Definition empty_stage_at_pipe (its : list item) : bool :=
  (0 <? count_items is_pipe its) && existsb is_empty_stage (split_stages its).
Definition redirect_without_file (its : list item) : bool :=
  existsb lacks_file its.
Definition multiple_redirects (its : list item) : bool :=
  1 <? count_items is_redir its.
Definition too_many_stages (its : list item) : bool :=
  MAX_CMDS <? Z.of_nat (length (split_stages its)).
Definition too_many_args (its : list item) : bool :=
  existsb (fun s => MAX_ARGS - 1 <? Z.of_nat (length s)) (split_stages its).

(** The specification's condition for a parse error. *)
Definition spec_parse_error (toks : list string) : bool :=
  let its := lex toks in
  empty_stage_at_pipe its || redirect_without_file its
  || multiple_redirects its || too_many_stages its || too_many_args its.

(** The same with any empty stage as the first cause, next to a
    separator or not. *)
Definition some_empty_stage (its : list item) : bool :=
  existsb is_empty_stage (split_stages its).

Definition spec_parse_error_any_empty (toks : list string) : bool :=
  let its := lex toks in
  some_empty_stage its || redirect_without_file its
  || multiple_redirects its || too_many_stages its || too_many_args its.

Definition is_error (r : parse_result) : bool :=
  match r with ParseErr _ => true | ParseOk _ => false end.

(** ** The parser in the middle of its scan *)

Definition has_redirect (pl : Pipeline) : bool :=
  match outfile pl with Some _ => true | None => false end.

(** What holds of [cmd_idx] and [pl] at the head of the loop: [cur]
    is the last stage in use and within the array, and the stages
    after it are still empty. *)
Definition scanning (idx : nat) (pl : Pipeline) : Prop :=
  length (cmds pl) = Z.to_nat MAX_CMDS /\
  n_cmds pl = Z.of_nat idx + 1 /\
  n_cmds pl <= MAX_CMDS /\
  argc_at idx pl <= MAX_ARGS - 1 /\
  forall j, (idx < j)%nat -> argc_at j pl = 0.

(** The causes of a parse error for the items still to come, when [k]
    stages are in use, the current one has [c] words so far, and [o]
    tells whether a redirection was seen. *)
Definition error_ahead (k c : Z) (o : bool) (its : list item) : Prop :=
  let s := hd [] (split_stages its) in
  let ss := tl (split_stages its) in
  c + Z.of_nat (length s) = 0 \/
  Exists (fun x => x = []) ss \/
  redirect_without_file its = true \/
  1 < count_items is_redir its + (if o then 1 else 0) \/
  MAX_CMDS < k + Z.of_nat (length ss) \/
  MAX_ARGS - 1 < c + Z.of_nat (length s) \/
  Exists (fun x => MAX_ARGS - 1 < Z.of_nat (length x)) ss.

End Phase2.

(* ================================================================== *)
(** * Phase 3: job control *)
(* ================================================================== *)

Module Phase3.
Import Libc Control Wait.

Definition MAXLINE : Z := 1024.
Definition MAXARGS : Z := 128.
Definition MAXJOBS : Z := 16.

Inductive job_state_t := UNDEF | FG | BG | ST.

#[global] Instance job_state_eq_dec : EqDecision job_state_t.
Proof. solve_decision. Defined.

Record job_t := mkjob {
  pid : Z;
  pgid : Z;
  jid : Z;
  state : job_state_t;
  cmdline : string
}.

#[global] Instance job_eq_dec : EqDecision job_t.
Proof. solve_decision. Defined.

Inductive signal := SIGCONT | SIGCHLD | SIGINT | SIGTSTP | SIGTTIN | SIGTTOU.

(** What the shell process does to the outside, in program order.
    [EvReap] records one successful [waitpid] of the handler together
    with the slot [getjob_pid] found for the reported process. *)
Inductive event :=
| EvStdout (s : string)
| EvStderr (s : string)
| EvKill (target : Z) (sig : signal)
| EvTcsetpgrp (pgrp : Z)
| EvSigBlock
| EvSigUnblock
| EvFork (ret : Z)
| EvSetpgid (p g : Z)
| EvSignalDfl (sig : signal)
| EvPerror (s : string)
| EvAddjob (p : Z) (ok : bool)
| EvReap (p : Z) (status : wstatus) (slot : option nat).

(** The shell process: its globals ([jobs], [nextjid], [shell_pgid]),
    its signal mask, and the part of the world it interacts with.
    [pending] holds the child state changes not yet collected by
    [waitpid]; [arrivals] and [fork_results] are the environment's
    future choices: the batches of child state changes that arrive at
    the successive points where the shell can be interrupted, and the
    values the successive calls of [fork] return in the parent;
    [execvp_ok] tells for which programs [execvp] succeeds. *)
Record shell := mkshell {
  jobs : list job_t;
  nextjid : Z;
  shell_pgid : Z;
  sigchld_blocked : bool;
  pending : list (Z * wstatus);
  arrivals : list (list (Z * wstatus));
  fork_results : list Z;
  execvp_ok : string -> bool;
  log : list event
}.

Definition set_jobs (js : list job_t) (sh : shell) : shell :=
  mkshell js (nextjid sh) (shell_pgid sh) (sigchld_blocked sh)
          (pending sh) (arrivals sh) (fork_results sh) (execvp_ok sh) (log sh).
Definition set_nextjid (n : Z) (sh : shell) : shell :=
  mkshell (jobs sh) n (shell_pgid sh) (sigchld_blocked sh)
          (pending sh) (arrivals sh) (fork_results sh) (execvp_ok sh) (log sh).
Definition set_blocked (b : bool) (sh : shell) : shell :=
  mkshell (jobs sh) (nextjid sh) (shell_pgid sh) b
          (pending sh) (arrivals sh) (fork_results sh) (execvp_ok sh) (log sh).
Definition set_pending (p : list (Z * wstatus)) (sh : shell) : shell :=
  mkshell (jobs sh) (nextjid sh) (shell_pgid sh) (sigchld_blocked sh)
          p (arrivals sh) (fork_results sh) (execvp_ok sh) (log sh).
Definition set_arrivals (a : list (list (Z * wstatus))) (sh : shell) : shell :=
  mkshell (jobs sh) (nextjid sh) (shell_pgid sh) (sigchld_blocked sh)
          (pending sh) a (fork_results sh) (execvp_ok sh) (log sh).
Definition set_fork_results (f : list Z) (sh : shell) : shell :=
  mkshell (jobs sh) (nextjid sh) (shell_pgid sh) (sigchld_blocked sh)
          (pending sh) (arrivals sh) f (execvp_ok sh) (log sh).
Definition emit (e : event) (sh : shell) : shell :=
  mkshell (jobs sh) (nextjid sh) (shell_pgid sh) (sigchld_blocked sh)
          (pending sh) (arrivals sh) (fork_results sh) (execvp_ok sh) (log sh ++ [e]).

(** ** Job list helpers *)

Definition clearjob : job_t := mkjob 0 0 0 UNDEF EmptyString.

Definition initjobs (sh : shell) : shell :=
  set_nextjid 1 (set_jobs (replicate (Z.to_nat MAXJOBS) clearjob) sh).

(** The loops of the helpers scan the slots from index 0 and stop at
    the first hit: [list_find].  A [job_t *] is the index of its
    slot. *)
Definition free_slot (js : list job_t) : option (nat * job_t) :=
  list_find (fun j => pid j = 0) js.

Definition getjob_jid (js : list job_t) (j : Z) : option (nat * job_t) :=
  list_find (fun jb => jid jb = j) js.

Definition getjob_pid (js : list job_t) (p : Z) : option (nat * job_t) :=
  list_find (fun jb => pid jb = p) js.

Definition fgpid (js : list job_t) : Z :=
  match list_find (fun jb => state jb = FG) js with
  | Some (_, jb) => pid jb
  | None => 0
  end.

(** [addjob] returns 1 and fills the first free slot, or returns 0
    after a message on [stderr].  [nextjid] stays in [1, MAXJOBS], so
    [nextjid++] never overflows. *)
Definition addjob (p g : Z) (s : job_state_t) (cmd : string) (sh : shell)
  : Z * shell :=
  match free_slot (jobs sh) with
  | Some (i, _) =>
      let jb := mkjob p g (nextjid sh) s (snprintf_s MAXLINE cmd) in
      let n := nextjid sh + 1 in
      let n := if MAXJOBS <? n then 1 else n in
      (1, set_nextjid n (set_jobs (<[i := jb]> (jobs sh)) sh))
  | None => (0, emit (EvStderr "tsh: too many jobs
") sh)
  end.

Definition deletejob (p : Z) (sh : shell) : shell :=
  match getjob_pid (jobs sh) p with
  | Some (i, _) => set_jobs (<[i := clearjob]> (jobs sh)) sh
  | None => sh
  end.

Definition set_state (s : job_state_t) (jb : job_t) : job_t :=
  mkjob (pid jb) (pgid jb) (jid jb) s (cmdline jb).

(** ** The [SIGCHLD] handler *)

Definition msg_stopped (jb : job_t) : string :=
  "
[" +:+ dec (jid jb) +:+ "]+ Stopped    " +:+ cmdline jb.

Definition msg_terminated (jb : job_t) (p : Z) (sig : Z) : string :=
  "
Job [" +:+ dec (jid jb) +:+ "] (" +:+ dec p +:+ ") terminated by signal "
     +:+ dec sig +:+ "
".

(** One iteration of the [while ((pid = waitpid(...)) > 0)] loop, for
    the report [(p, status)] that [waitpid] returned. *)
Definition reap_one (n : Z * wstatus) (sh : shell) : shell :=
  let '(p, status) := n in
  let found := getjob_pid (jobs sh) p in
  let sh := emit (EvReap p status (fst <$> found)) sh in
  match found with
  | None => sh
  | Some (i, jb) =>
      if WIFSTOPPED status then
        emit (EvStdout (msg_stopped (set_state ST jb)))
             (set_jobs (<[i := set_state ST jb]> (jobs sh)) sh)
      else if WIFCONTINUED status then sh
      else if WIFSIGNALED status then
        deletejob p (emit (EvStdout (msg_terminated jb p (WTERMSIG status))) sh)
      else if WIFEXITED status then deletejob p sh
      else sh
  end.

(** The loop itself: it goes on while [waitpid] returns a positive
    process id. *)
Fixpoint drain (ns : list (Z * wstatus)) (sh : shell) : shell :=
  match ns with
  | [] => sh
  | n :: ns' => if 0 <? fst n then drain ns' (reap_one n sh) else sh
  end.

(** One activation: [waitpid(-1, ..., WNOHANG | WUNTRACED | WCONTINUED)]
    returns every pending report in turn, then 0 or -1. *)
Definition sigchld_handler (sh : shell) : shell :=
  drain (pending sh) (set_pending [] sh).

(** ** Asynchronous delivery of [SIGCHLD] *)

(** A pending [SIGCHLD] runs the handler as soon as the signal is not
    blocked. *)
Definition deliver (sh : shell) : shell :=
  if sigchld_blocked sh then sh
  else match pending sh with
       | [] => sh
       | _ :: _ => sigchld_handler sh
       end.

(** The next batch of child state changes happens now. *)
Definition arrive (sh : shell) : shell :=
  match arrivals sh with
  | [] => sh
  | b :: rest => deliver (set_pending (pending sh ++ b) (set_arrivals rest sh))
  end.

(** The shell can be interrupted on entry to each system call. *)
Definition syscall (e : event) : M shell unit := modify (fun sh => emit e (arrive sh)).

Definition printf (s : string) : M shell unit := syscall (EvStdout s).
Definition eprintf (s : string) : M shell unit := syscall (EvStderr s).
Definition kill (target : Z) (sig : signal) : M shell unit := syscall (EvKill target sig).
Definition tcsetpgrp (pgrp : Z) : M shell unit := syscall (EvTcsetpgrp pgrp).
Definition setpgid (p g : Z) : M shell unit := syscall (EvSetpgid p g).

Definition signal_dfl (sig : signal) : M shell unit := syscall (EvSignalDfl sig).
Definition perror (s : string) : M shell unit := syscall (EvPerror s).

(** [addjob] as a step of the shell; the log keeps whether it
    registered the job. *)
Definition addjob_m (p g : Z) (s : job_state_t) (cmd : string) : M shell Z :=
  fun sh =>
    let '(ok, sh') := addjob p g s cmd sh in
    Ret ok (emit (EvAddjob p (negb (ok =? 0))) sh').

Definition sigprocmask_block : M shell unit :=
  modify (fun sh => emit EvSigBlock (set_blocked true (arrive sh))).

Definition sigprocmask_unblock : M shell unit :=
  modify (fun sh => deliver (emit EvSigUnblock (set_blocked false (arrive sh)))).

(** [fork] in the parent: the environment chooses the return value
    (the new process id, or -1; 0 makes this run the child's). *)
Definition fork : M shell Z :=
  fun sh =>
    let sh := arrive sh in
    match fork_results sh with
    | [] => Ret (-1) (emit (EvFork (-1)) sh)
    | r :: rest => Ret r (emit (EvFork r) (set_fork_results rest sh))
    end.

(** ** Foreground wait *)

(** [sigsuspend(&empty)]: the process sleeps with no signal blocked
    until a handler has run, at once when a report is pending and
    else at the next batch of [arrivals]; [None] when no signal ever
    arrives. *)
Definition sigsuspend (sh : shell) : option shell :=
  match pending sh, arrivals sh with
  | _ :: _, _ => Some (sigchld_handler sh)
  | [], b :: rest => Some (sigchld_handler (set_pending b (set_arrivals rest sh)))
  | [], [] => None
  end.

(** The loop of [waitfg].  [SIGCHLD] is not blocked here, so the
    shell can be interrupted between the test [fgpid() == pid] and the
    call of [sigsuspend] as anywhere else: a report that arrives there
    is handled before the sleep, which then waits for a further
    signal. *)
Fixpoint waitfg_loop (fuel : nat) (p : Z) (sh : shell) : result shell unit :=
  if fgpid (jobs sh) =? p then
    match fuel with
    | O => Hang sh
    | S fuel' =>
        let sh := arrive sh in
        match sigsuspend sh with
        | Some sh' => waitfg_loop fuel' p sh'
        | None => Hang sh
        end
    end
  else Ret tt sh.

(** Every turn of the loop uses up the pending reports or at least
    one batch of [arrivals], so this fuel is never the reason for
    [Hang]. *)
Definition waitfg (p : Z) : M shell unit :=
  fun sh => waitfg_loop (S (S (length (arrivals sh)))) p sh.

(** ** Parsing *)

(** The delimiters of [strtok]: space, tab, carriage return and
    newline. *)
Definition is_blank (c : ascii) : bool :=
  let n := Z.of_N (N_of_ascii c) in
  (n =? 32) || (n =? 9) || (n =? 13) || (n =? 10).

(** [split_line]: at most [MAXARGS - 1] tokens; a final ["&"] is
    removed and sets [bg]. *)
Definition split_line (line : string) : list string * bool :=
  let argv := take (Z.to_nat (MAXARGS - 1)) (tokenize is_blank line EmptyString) in
  match last argv with
  | Some a => if streq a "&" then (removelast argv, true) else (argv, false)
  | None => (argv, false)
  end.

(** ** Builtins: fg / bg / exit *)

Definition job_at (i : nat) (sh : shell) : job_t :=
  default clearjob (jobs sh !! i).

Definition first_char (s : string) : option ascii :=
  match s with String c _ => Some c | EmptyString => None end.

Definition rest_chars (s : string) : string :=
  match s with String _ s' => s' | EmptyString => EmptyString end.

Definition do_bgfg (argv : list string) (fg : bool) : M shell unit :=
  let me := if fg then "fg" else "bg" in
  match argv !! 1%nat with
  | None => eprintf (me +:+ " command requires %jobid
")
  | Some a1 =>
      if negb (bool_decide (first_char a1 = Some "%"%char)) then
        eprintf (me +:+ " command requires %jobid
")
      else
        let j := atoi (rest_chars a1) in
        let* sh := get in
        match getjob_jid (jobs sh) j with
        | None => eprintf (a1 +:+ ": No such job
")
        | Some (i, jb) =>
            kill (- pgid jb) SIGCONT ;;
            if fg then
              modify (fun sh => set_jobs (<[i := set_state FG (job_at i sh)]> (jobs sh)) sh) ;;
              (let* sh := get in tcsetpgrp (pgid (job_at i sh))) ;;
              (let* sh := get in waitfg (pid (job_at i sh))) ;;
              (let* sh := get in tcsetpgrp (shell_pgid sh))
            else
              modify (fun sh => set_jobs (<[i := set_state BG (job_at i sh)]> (jobs sh)) sh) ;;
              (let* sh := get in
               printf ("[" +:+ dec (jid (job_at i sh)) +:+ "]+ "
                           +:+ cmdline (job_at i sh) +:+ "&
"))
        end
  end.

Definition builtin_cmd (argv : list string) : M shell Z :=
  match argv with
  | [] => ret 1
  | a0 :: _ =>
      if streq a0 "exit" || streq a0 "quit" then exit 0
      else if streq a0 "fg" then do_bgfg argv true ;; ret 1
      else if streq a0 "bg" then do_bgfg argv false ;; ret 1
      else ret 0
  end.

(** ** eval *)

Definition eval (cmdline : string) : M shell unit :=
  let buf := snprintf_s MAXLINE cmdline in
  let '(argv, bg) := split_line buf in
  if bool_decide (argv = []) then ret tt
  else
    let* b := builtin_cmd argv in
    if negb (b =? 0) then ret tt
    else
      sigprocmask_block ;;
      let* p := fork in
      if p =? 0 then
        (* the child *)
        sigprocmask_unblock ;;
        setpgid 0 0 ;;
        signal_dfl SIGINT ;;
        signal_dfl SIGTSTP ;;
        signal_dfl SIGTTIN ;;
        signal_dfl SIGTTOU ;;
        let argv0 := default EmptyString (head argv) in
        let* sh := get in
        if execvp_ok sh argv0 then exec argv0 argv
        else perror "execvp" ;; exit 1
      else
        setpgid p p ;;
        (let* _ := addjob_m p p (if bg then BG else FG) cmdline in ret tt) ;;
        sigprocmask_unblock ;;
        if negb bg then
          tcsetpgrp p ;;
          waitfg p ;;
          (let* sh := get in tcsetpgrp (shell_pgid sh))
        else
          let* sh := get in
          printf ("[" +:+ dec (nextjid sh - 1) +:+ "] " +:+ dec p +:+ "
").

(** ** Observations on the log *)

(** The signals sent with [kill], in order. *)
Definition kills (l : list event) : list (Z * signal) :=
  omap (fun e => match e with EvKill t sg => Some (t, sg) | _ => None end) l.

(** A computation that sends no signal. *)
Definition silent {A} (m : M shell A) : Prop :=
  forall sh, kills (log (final (m sh))) = kills (log sh).

(** The reports the handler collected for process [p], with the slot
    found for each. *)
Definition reaps_of (p : Z) (l : list event) : list (wstatus * option nat) :=
  omap (fun e => match e with
                 | EvReap q st slot => if q =? p then Some (st, slot) else None
                 | _ => None
                 end) l.

(** Some slot of the table holds process [p]. *)
Definition tracked (p : Z) (js : list job_t) : Prop :=
  exists k jb, js !! k = Some jb /\ pid jb = p.

(** The first report collected for [p] in [l], when there is one,
    found a slot for [p]. *)
Definition first_reap_matched (p : Z) (l : list event) : Prop :=
  match reaps_of p l with
  | [] => True
  | (_, slot) :: _ => is_Some slot
  end.

(** What a run that launches process [p] must leave in the log: the
    signal is blocked, then the process is created and registered,
    then the signal is unblocked, with no report collected in between;
    no report for [p] is collected before, and the first one collected
    afterwards finds the job of [p]. *)
Definition launch_race_free (p : Z) (l : list event) : Prop :=
  exists pre post,
    l = pre ++ [EvSigBlock; EvFork p; EvSetpgid p p; EvAddjob p true; EvSigUnblock]
            ++ post
    /\ reaps_of p pre = []
    /\ first_reap_matched p post.

(** The events a run has added to the log of the state it started
    from. *)
Definition new_events (sh sh' : shell) : list event :=
  drop (length (log sh)) (log sh').

(** Since the log was [base], either no report for [p] was collected
    and [p] is in the table, or the first one collected found it. *)
Definition settled (p : Z) (base : list event) (sh : shell) : Prop :=
  exists ext,
    log sh = base ++ ext /\
    ((reaps_of p ext = [] /\ tracked p (jobs sh))
     \/ exists st i rest, reaps_of p ext = (st, Some i) :: rest).


(** The job ids of the used slots are pairwise distinct. *)
Definition jids_distinct (js : list job_t) : Prop :=
  forall i j ji jj,
    js !! i = Some ji -> js !! j = Some jj ->
    pid ji <> 0 -> pid jj <> 0 ->
    jid ji = jid jj -> i = j.

(** ** main *)

(** The turns of the loop of [main] for the lines [fgets] returns:
    prompt, then [eval]. *)
Fixpoint session (lines : list string) : M shell unit :=
  match lines with
  | [] => ret tt
  | line :: rest => printf "tsh> " ;; eval line ;; session rest
  end.

(** The whole loop: at end of input, after the prompt, the shell
    prints a newline and exits with 0. *)
Definition main_loop (lines : list string) : M shell unit :=
  session lines ;;
  printf "tsh> " ;;
  printf "
" ;;
  exit 0.

(** [main]: the shell takes its own process group and the terminal,
    installs [sigchld_handler] for [SIGCHLD] (the model of delivery
    above) and ignores the terminal signals, then clears the job
    table.  No child exists yet, so nothing can arrive. *)
Definition main (lines : list string) : M shell unit :=
  (let* sh := get in
   modify (emit (EvSetpgid (shell_pgid sh) (shell_pgid sh))) ;;
   modify (emit (EvTcsetpgrp (shell_pgid sh)))) ;;
  modify initjobs ;;
  main_loop lines.

End Phase3.

(* ================================================================== *)
(** * Sample pipelines *)
(* ================================================================== *)

Module PipelineExamples.
Import Control Wait Fcntl Phase2.

Definition std_fdt : gmap Z ofd :=
  <[0 := OTty]> (<[1 := OTty]> (<[2 := OTty]> ∅)).

(** The shell with its three standard descriptors on the terminal, a
    limit of 16 descriptors, every program found in the first directory
    of the default path, the files [files], and the environment's
    answers to [fork]. *)
Definition shell_world (forks : list Z) (files : gmap string string) : world :=
  mkworld std_fdt 16 0 files [] forks []
          None (fun _ => true) (fun _ => true)
          (fun _ => EmptyString) None [].

(** The same shell, started with its standard output closed (as by
    [tinyshell >&-]): descriptor 1 is free. *)
Definition shell_without_stdout (forks : list Z) (files : gmap string string)
  : world :=
  mkworld (<[0 := OTty]> (<[2 := OTty]> ∅)) 16 0 files [] forks []
          None (fun _ => true) (fun _ => true)
          (fun _ => EmptyString) None [].

Definition pipeline_of (tokens : list string) : Pipeline :=
  match parse_pipeline tokens with
  | ParseOk pl => pl
  | ParseErr _ => empty_pipeline
  end.

Definition three_stages : Pipeline :=
  pipeline_of ["ls"; "|"; "grep"; "c"; "|"; "wc"].

Definition notes : gmap string string := {[ "out" := "old
" ]}.

End PipelineExamples.

(* ================================================================== *)
(** * Sample runs *)
(* ================================================================== *)

Module Examples.
Import Control Wait Phase3.

(** A shell process 1000 before [main], given what the environment
    will do. *)
Definition boot (arr : list (list (Z * wstatus))) (forks : list Z) : shell :=
  mkshell [] 0 1000 false [] arr forks (fun _ => true) [].

(** The same shell at its first prompt. *)
Definition fresh (arr : list (list (Z * wstatus))) (forks : list Z) : shell :=
  initjobs (boot arr forks).

Definition sleeper : string := "sleep 100 &
".

(** Seventeen background commands; the second of the children
    (process 102) exits after the sixteenth has been started. *)
Definition seventeen_lines : list string := replicate 17 sleeper.
Definition seventeen_forks : list Z := seqZ 101 17.
Definition seventeen_arrivals : list (list (Z * wstatus)) :=
  replicate 96 [] ++ [[(102, WExited 0)]].

(** The shell once sixteen background jobs are registered. *)
Definition full_table : shell :=
  final (session (replicate 16 sleeper) (fresh [] (seqZ 101 16))).

(** A foreground command whose process ends while the shell is still
    launching it: on an empty table as process 101, on the full table
    as process 117. *)
Definition quick : string := "sleep 3
".
Definition quick_on_fresh : shell :=
  fresh [[]; []; []; [(101, WExited 0)]] [101].
Definition quick_on_full : shell :=
  set_arrivals [[]; []; []; [(117, WExited 0)]] (set_fork_results [117] full_table).

End Examples.

(* ================================================================== *)
(** * The command loops, and the vocabulary of the further properties *)
(* ================================================================== *)

Module Stdio.
(** How the input ends: [fgets] fails at end of file, or with an
    error. *)
Inductive input_end := AtEof | ReadError.
End Stdio.

Module Phase2Shell.
Import Libc Control Wait Phase2 Stdio.

(** The loop of [main] over the lines [fgets] returns.  [main]
    returns 0 when the input ends. *)
Fixpoint main (lines : list string) (e : input_end) : M world unit :=
  printf "tinyshell$ " ;;
  match lines with
  | [] =>
      match e with
      | AtEof => printf "
Exiting (EOF)
"
      | ReadError => perror "fgets"
      end ;;
      exit 0
  | linebuf :: rest => main_step linebuf ;; main rest e
  end.

(** What no step of the shell changes: the environment's answers
    about programs and the limit on descriptors. *)
Definition same_env (w w' : world) : Prop :=
  path_env w' = path_env w /\ executable w' = executable w /\
  execve_ok w' = execve_ok w /\ strsignal w' = strsignal w /\
  fd_limit w' = fd_limit w /\ fs_denied w' = fs_denied w.

(** A step of the wiring of a child: it goes on in the same process,
    or gives up with status 1. *)
Definition wiring (m : M world unit) : Prop :=
  forall w,
    match m w with
    | Ret _ w' => in_child w' = in_child w /\ same_env w w'
    | Exit c w' => c = 1 /\ in_child w' = in_child w
    | _ => False
    end.

(** The two events of one turn of the wait loop. *)
Definition wait_events (w : world) (r : Z * wstatus) : list event :=
  [EvWait r.1 r.2; EvStdout (msg_wait w r.1 r.2)].

(** The redirection of a command line: mode and file name of the
    first operator that has a file name. *)
Fixpoint redirect_of (its : list item) : option (bool * string) :=
  match its with
  | [] => None
  | IRedirect app (Some file) :: _ => Some (app, file)
  | _ :: rest => redirect_of rest
  end.

(** The stages still to come, when the current stage has the words
    [cur] already. *)
Definition extend_stage (cur : list string) (ss : list (list string))
  : list (list string) :=
  match ss with
  | s :: ss' => (cur ++ s) :: ss'
  | [] => [cur]
  end.

(** What a scan of [toks] that succeeds leaves in [pl], when it
    started at stage [idx] of [pl0]. *)
Definition scanned (toks : list string) (idx : nat) (pl0 pl : Pipeline) : Prop :=
  let cur := default [] (cmds pl0 !! idx) in
  let ahead := extend_stage cur (split_stages (lex toks)) in
  length (cmds pl) = Z.to_nat MAX_CMDS /\
  n_cmds pl = Z.of_nat idx + Z.of_nat (length ahead) /\
  n_cmds pl <= MAX_CMDS /\
  take (Z.to_nat (n_cmds pl)) (cmds pl) = take idx (cmds pl0) ++ ahead /\
  Forall (fun s => (1 <= length s <= 255)%nat) ahead /\
  match outfile pl0 with
  | Some f => outfile pl = Some f /\ append pl = append pl0
  | None =>
      match redirect_of (lex toks) with
      | Some (a, f) => outfile pl = Some f /\ append pl = a
      | None => outfile pl = None /\ append pl = append pl0
      end
  end.

(** The descriptors of [wc] are those of [w] and, on descriptors that
    were free in [w], the two ends of each of [pipes], the pipes
    being numbered from [next_pipe w] on. *)
Definition piped_from (w : world) (pipes : list (Z * Z)) (wc : world) : Prop :=
  (forall fd, fd ∈ pipe_fds pipes -> fdt w !! fd = None) /\
  (forall fd, fd ∉ pipe_fds pipes -> fdt wc !! fd = fdt w !! fd) /\
  (forall j p, pipes !! j = Some p ->
     fdt wc !! p.1 = Some (OPipeR (next_pipe w + j)) /\
     fdt wc !! p.2 = Some (OPipeW (next_pipe w + j))).

(** The run is that of the shell itself, and goes on being so: the
    environment never makes it continue as the child of a [fork]. *)
Definition shell_only (w : world) : Prop :=
  in_child w = None /\ Forall (fun r => r <> 0) (fork_results w).

End Phase2Shell.

Module Phase1Shell.
Import Libc Control Wait Stdio.
Import Phase2.

(** [find_executable_in_path] as Phase 1 has it: the search of
    Phase 2, without the test for an empty name. *)
Definition find_executable_in_path (command : string) (w : world)
  : option string :=
  if has_slash command then
    if executable w command then Some command else None
  else
    snd <$> list_find (fun candidate => executable w candidate = true)
                      ((fun dir => dir +:+ "/" +:+ command) <$> path_dirs w).

(** [waitpid(pid, &status, 0)]: the environment's next report, or -1
    when it has none. *)
Definition sys_waitpid (p : Z) : M world (Z * wstatus) :=
  fun w =>
    match wait_results w with
    | [] => Ret (-1, WExited 0) w
    | r :: rest =>
        let w := set_wait_results rest w in
        Ret r (if fst r =? -1 then w else emit (EvWait p (snd r)) w)
    end.

(** The rest of a turn of the loop of [main], for a command that is
    not a builtin.  The message of the child whose [execve] failed,
    ["tinyshell: failed to exec PATH: " strerror(errno)], is what
    [perror] prints for ["tinyshell: failed to exec PATH"]. *)
Definition launch (argv : list string) : M world unit :=
  let argv0 := default EmptyString (head argv) in
  let* w := get in
  match find_executable_in_path argv0 w with
  | None => eprintf ("tinyshell: command not found: " +:+ argv0 +:+ "
")
  | Some program_path =>
      let* p := sys_fork 0 in
      if p <? 0 then perror "fork"
      else if p =? 0 then
        let* w := get in
        if execve_ok w program_path then exec program_path argv
        else perror ("tinyshell: failed to exec " +:+ program_path) ;; exit 127
      else
        let* r := sys_waitpid p in
        if fst r =? -1 then perror "waitpid"
        else let* w := get in printf (msg_wait w p (snd r))
  end.

Definition main_step (linebuf : string) : M world unit :=
  match Phase1.main_step linebuf with
  | Phase1.Continue => ret tt
  | Phase1.Return exit_code out => printf out ;; exit exit_code
  | Phase1.Launch argv => launch argv
  end.

Fixpoint main (lines : list string) (e : input_end) : M world unit :=
  printf "tinyshell$ " ;;
  match lines with
  | [] =>
      match e with
      | AtEof => printf "
Exiting (EOF)
"
      | ReadError => perror "fgets"
      end ;;
      exit 0
  | linebuf :: rest => main_step linebuf ;; main rest e
  end.

End Phase1Shell.

Module Phase3Shell.
Import Libc Control Wait Phase3.

(** A property of the job table that no turn of the handler loop
    breaks: it survives clearing or stopping a slot that holds a
    process. *)
Definition handler_stable (T : list job_t -> Prop) : Prop :=
  forall js i jb x,
    T js -> js !! i = Some jb -> 0 < pid jb ->
    x = clearjob \/ x = set_state ST jb ->
    T (<[i := x]> js).

(** The table has its [MAXJOBS] slots, with job ids from 0 (free)
    to [MAXJOBS]. *)
Definition jobs_ok (js : list job_t) : Prop :=
  length js = Z.to_nat MAXJOBS /\
  Forall (fun jb => 0 <= jid jb <= MAXJOBS) js.

Definition table_ok (sh : shell) : Prop :=
  jobs_ok (jobs sh) /\ 1 <= nextjid sh <= MAXJOBS.

(** No slot is in state [FG]. *)
Definition no_foreground (js : list job_t) : Prop :=
  Forall (fun jb => state jb <> FG) js.

(** Slot [i] is the first one in state [FG], and holds [p]. *)
Definition foreground_at (i : nat) (p : Z) (js : list job_t) : Prop :=
  (exists jb, js !! i = Some jb /\ pid jb = p /\ state jb = FG) /\
  forall j jb, (j < i)%nat -> js !! j = Some jb -> state jb <> FG.

(** Every slot that holds process [p] has job id [n]. *)
Definition jid_of (p n : Z) (js : list job_t) : Prop :=
  Forall (fun jb => pid jb = p -> jid jb = n) js.

(** No slot other than [i] holds process [p]. *)
Definition only_at (i : nat) (p : Z) (js : list job_t) : Prop :=
  forall j jb, js !! j = Some jb -> pid jb = p -> j = i.

(** The table [js'] is what reaping leaves of [js]: slot by slot, the
    same job, possibly stopped, or a cleared slot. *)
Definition reaped_from (js js' : list job_t) : Prop :=
  length js' = length js /\
  forall i jb', js' !! i = Some jb' ->
    exists jb, js !! i = Some jb /\
      (jb' = jb \/ (0 < pid jb /\ (jb' = clearjob \/ jb' = set_state ST jb))).

(** The events the handler leaves in the log. *)
Definition is_reap_event (e : event) : Prop :=
  match e with
  | EvReap _ _ _ | EvStdout _ => True
  | _ => False
  end.

(** A computation that keeps a property of the shell state, however
    it ends. *)
Definition keeps {A} (I : shell -> Prop) (m : M shell A) : Prop :=
  forall sh, I sh -> I (final (m sh)).

(** What [eval] does in the shell once the job is registered and
    [SIGCHLD] unblocked. *)
Definition wait_or_announce (p : Z) (bg : bool) : M shell unit :=
  if negb bg then
    tcsetpgrp p ;;
    waitfg p ;;
    (let* sh := get in tcsetpgrp (shell_pgid sh))
  else
    let* sh := get in
    printf ("[" +:+ dec (nextjid sh - 1) +:+ "] " +:+ dec p +:+ "
").

(** What [eval] does in the shell once the process is created and in
    its process group. *)
Definition register_and_wait (p : Z) (bg : bool) (cmdline : string) : M shell unit :=
  (let* _ := addjob_m p p (if bg then BG else FG) cmdline in ret tt) ;;
  sigprocmask_unblock ;;
  wait_or_announce p bg.

(** What the child does between [fork] and [execvp]. *)
Definition child_setup : list event :=
  [EvSigUnblock; EvSetpgid 0 0; EvSignalDfl SIGINT; EvSignalDfl SIGTSTP;
   EvSignalDfl SIGTTIN; EvSignalDfl SIGTTOU].

End Phase3Shell.

(* ================================================================== *)
(** * Properties of the job table and of the [SIGCHLD] handler *)
(* ================================================================== *)

Section Reactor.
Import Libc Control Wait Phase3.

Implicit Types (sh : shell) (ns : list (Z * wstatus)) (p : Z).

Lemma drain_app ns ns' sh :
  Forall (fun n => 0 < n.1) ns ->
  drain (ns ++ ns') sh = drain ns' (drain ns sh).
Proof.
  intros Hpos. revert sh.
  induction Hpos as [|n ns Hn _ IH]; intros sh; [done|].
  cbn [app drain]. apply Z.ltb_lt in Hn. rewrite Hn. apply IH.
Qed.

Lemma deletejob_found p sh i jb :
  getjob_pid (jobs sh) p = Some (i, jb) ->
  deletejob p sh = set_jobs (<[i := clearjob]> (jobs sh)) sh.
Proof. intros H. unfold deletejob. by rewrite H. Qed.

(** C6. One activation of the handler takes the pending reports in
    turn.  For the report [(p, status)] taken after the reports [pre],
    in the state [sh1] reached by then: when no slot holds [p] the
    job table is unchanged and nothing is printed; otherwise the slot
    [i] that holds [p] is cleared on an exit or a fatal signal, is set
    to [ST] on a stop, with the line carrying the job id and the
    command text printed, and is left as it is on a continue. *)
Theorem sigchld_handler_per_notification sh pre p status post :
  pending sh = pre ++ (p, status) :: post ->
  Forall (fun n => 0 < n.1) pre ->
  0 < p ->
  let sh1 := drain pre (set_pending [] sh) in
  let sh2 := reap_one (p, status) sh1 in
  sigchld_handler sh = drain post sh2 /\
  nextjid sh2 = nextjid sh1 /\
  match getjob_pid (jobs sh1) p with
  | None =>
      jobs sh2 = jobs sh1 /\
      log sh2 = log sh1 ++ [EvReap p status None]
  | Some (i, jb) =>
      jobs sh1 !! i = Some jb /\ pid jb = p /\
      match status with
      | WExited _ =>
          jobs sh2 = <[i := clearjob]> (jobs sh1) /\
          log sh2 = log sh1 ++ [EvReap p status (Some i)]
      | WSignaled sig =>
          jobs sh2 = <[i := clearjob]> (jobs sh1) /\
          log sh2 = log sh1 ++ [EvReap p status (Some i);
                                EvStdout (msg_terminated jb p sig)]
      | WStopped _ =>
          jobs sh2 = <[i := set_state ST jb]> (jobs sh1) /\
          log sh2 = log sh1 ++
            [EvReap p status (Some i);
             EvStdout ("
[" +:+ dec (jid jb) +:+ "]+ Stopped    " +:+ cmdline jb)]
      | WContinued =>
          jobs sh2 = jobs sh1 /\
          log sh2 = log sh1 ++ [EvReap p status (Some i)]
      end
  end.
Proof.
  intros Hpend Hpre Hp sh1 sh2.
  split.
  { unfold sigchld_handler. rewrite Hpend, drain_app by done.
    cbn [drain fst]. apply Z.ltb_lt in Hp. by rewrite Hp. }
  subst sh2. unfold reap_one.
  destruct (getjob_pid (jobs sh1) p) as [[i jb]|] eqn:Hfind;
    cbn [fmap option_fmap option_map fst]; [|done].
  apply list_find_Some in Hfind as Hspec. destruct Hspec as (Hi & Hpid & _).
  destruct status; cbn [WIFSTOPPED WIFCONTINUED WIFSIGNALED WIFEXITED WTERMSIG];
    rewrite ?(deletejob_found p _ i jb) by exact Hfind;
    cbn [nextjid jobs log emit set_jobs];
    rewrite <- ?app_assoc; done.
Qed.

Lemma sigchld_handler_per_notification_witness :
  let sh := set_pending [(101, WStopped 20)]
              (final (eval Examples.sleeper (Examples.fresh [] [101]))) in
  pending sh = [] ++ (101, WStopped 20) :: [] /\
  jobs (sigchld_handler sh) =
    <[0%nat := mkjob 101 101 1 ST Examples.sleeper]> (jobs sh).
Proof.
  intros sh. split; [reflexivity|].
  destruct (sigchld_handler_per_notification sh [] 101 (WStopped 20) [])
    as (Hrun & _ & Hcase); [reflexivity|constructor|lia|].
  rewrite Hrun. vm_compute in Hcase. vm_compute.
  exact (proj1 (proj2 (proj2 Hcase))).
Defined.

(** C2. The job ids of the used slots do not stay distinct.  Sixteen
    background jobs take the ids 1 to 16 and the counter wraps to 1;
    the job in slot 1 ends; the next job is put in slot 1 with id 1,
    the id the job in slot 0 still holds. *)
Theorem jid_reused_while_held :
  let sh := final (main Examples.seventeen_lines
                        (Examples.boot Examples.seventeen_arrivals
                                       Examples.seventeen_forks)) in
  jobs sh !! 0%nat = Some (mkjob 101 101 1 BG Examples.sleeper) /\
  jobs sh !! 1%nat = Some (mkjob 117 117 1 BG Examples.sleeper) /\
  ~ jids_distinct (jobs sh).
Proof.
  intros sh.
  assert (H0 : jobs sh !! 0%nat = Some (mkjob 101 101 1 BG Examples.sleeper))
    by (vm_compute; reflexivity).
  assert (H1 : jobs sh !! 1%nat = Some (mkjob 117 117 1 BG Examples.sleeper))
    by (vm_compute; reflexivity).
  split; [exact H0|]. split; [exact H1|].
  intros Hd. specialize (Hd _ _ _ _ H0 H1). cbn in Hd.
  assert (0%nat = 1%nat) by (apply Hd; lia). discriminate.
Qed.

End Reactor.

(* ================================================================== *)
(** * The [fg] and [bg] builtins *)
(* ================================================================== *)

Section Resume.
Import Libc Control Wait Phase3.

Implicit Types (sh : shell) (p : Z).

Lemma silent_ret {A} (a : A) : silent (ret a).
Proof. by intros sh. Qed.



Lemma kills_emit e sh : kills (log (emit e sh)) = kills (log sh) ++ kills [e].
Proof. unfold kills. cbn [log emit]. apply omap_app. Qed.

Lemma kills_reap_one n sh : kills (log (reap_one n sh)) = kills (log sh).
Proof.
  destruct n as [p status]. unfold reap_one.
  destruct (getjob_pid (jobs sh) p) as [[i jb]|] eqn:Hfind;
    cbn [fmap option_fmap option_map fst].
  - destruct status; cbn [WIFSTOPPED WIFCONTINUED WIFSIGNALED WIFEXITED];
      rewrite ?(deletejob_found p _ i jb) by exact Hfind;
      rewrite ?kills_emit; cbn [log set_jobs]; rewrite ?kills_emit;
      cbn; by rewrite ?app_nil_r.
  - rewrite kills_emit. cbn. by rewrite app_nil_r.
Qed.

Lemma kills_drain ns sh : kills (log (drain ns sh)) = kills (log sh).
Proof.
  revert sh. induction ns as [|n ns IH]; intros sh; [done|].
  cbn [drain]. destruct (0 <? n.1); [|done].
  by rewrite IH, kills_reap_one.
Qed.

Lemma kills_handler sh : kills (log (sigchld_handler sh)) = kills (log sh).
Proof. unfold sigchld_handler. by rewrite kills_drain. Qed.

Lemma kills_deliver sh : kills (log (deliver sh)) = kills (log sh).
Proof.
  unfold deliver. destruct (sigchld_blocked sh); [done|].
  destruct (pending sh); [done|]. apply kills_handler.
Qed.

Lemma kills_arrive sh : kills (log (arrive sh)) = kills (log sh).
Proof.
  unfold arrive. destruct (arrivals sh); [done|]. by rewrite kills_deliver.
Qed.



Lemma bind_get {A} (k : shell -> M shell A) sh : bind get k sh = k sh sh.
Proof. done. Qed.

Lemma bind_Ret {A B} (m : M shell A) (k : A -> M shell B) sh a sh' :
  m sh = Ret a sh' -> bind m k sh = k a sh'.
Proof. intros H. unfold bind. by rewrite H. Qed.





(** ** Arguments that [do_bgfg] rejects *)

(** Without an argument, with one that does not start with [%], or
    with one whose number no slot holds, [do_bgfg] only prints its
    message. *)
Lemma do_bgfg_rejects sh argv fg :
  match argv !! 1%nat with
  | None => True
  | Some a1 =>
      first_char a1 <> Some "%"%char \/
      getjob_jid (jobs sh) (atoi (rest_chars a1)) = None
  end ->
  exists msg,
    do_bgfg argv fg sh = Ret tt (emit (EvStderr msg) (arrive sh)).
Proof.
  unfold do_bgfg. destruct (argv !! 1%nat) as [a1|]; [|by eexists].
  intros [Hpct|Hnone].
  - rewrite bool_decide_eq_false_2 by done. by eexists.
  - destruct (bool_decide (first_char a1 = Some "%"%char)); cbn [negb]; [|by eexists].
    rewrite bind_get, Hnone. by eexists.
Qed.

(** ** A job id that no job holds *)

Lemma getjob_pid_no_process js p :
  Forall (fun jb => pid jb = 0) js -> 0 < p -> getjob_pid js p = None.
Proof.
  intros Hall Hp. apply list_find_None.
  eapply Forall_impl; [exact Hall|]. intros jb Hz; cbn in Hz. lia.
Qed.

Lemma jobs_drain_no_process ns sh :
  Forall (fun jb => pid jb = 0) (jobs sh) -> jobs (drain ns sh) = jobs sh.
Proof.
  revert sh. induction ns as [|[p status] ns IH]; intros sh Hall; [done|].
  cbn [drain fst]. destruct (0 <? p) eqn:Hp; [|done].
  apply Z.ltb_lt in Hp.
  assert (Hone : jobs (reap_one (p, status) sh) = jobs sh).
  { unfold reap_one. by rewrite (getjob_pid_no_process _ _ Hall Hp). }
  rewrite IH; rewrite Hone; done.
Qed.

Lemma jobs_handler_no_process sh :
  Forall (fun jb => pid jb = 0) (jobs sh) -> jobs (sigchld_handler sh) = jobs sh.
Proof. intros Hall. unfold sigchld_handler. by rewrite jobs_drain_no_process. Qed.

Lemma jobs_arrive_no_process sh :
  Forall (fun jb => pid jb = 0) (jobs sh) -> jobs (arrive sh) = jobs sh.
Proof.
  intros Hall. unfold arrive, deliver.
  destruct (arrivals sh); [done|]. cbn [sigchld_blocked set_pending set_arrivals pending].
  destruct (sigchld_blocked sh); [done|].
  destruct (pending sh ++ l) eqn:Hp; [done|].
  rewrite jobs_handler_no_process; [|done].
  by cbn.
Qed.

(** With no process in the table, whatever is reported to the handler
    leaves the answer of [fgpid] as it is, so a wait for process 0
    that has started never ends. *)
Lemma waitfg_loop_no_process fuel sh :
  Forall (fun jb => pid jb = 0) (jobs sh) ->
  fgpid (jobs sh) = 0 ->
  exists sh', waitfg_loop fuel 0 sh = Hang sh'
              /\ jobs sh' = jobs sh /\ kills (log sh') = kills (log sh).
Proof.
  revert sh. induction fuel as [|fuel IH]; intros sh Hall Hfg;
    cbn [waitfg_loop]; rewrite Hfg; cbn [Z.eqb]; [by exists sh|].
  cbv zeta.
  pose proof (jobs_arrive_no_process sh Hall) as Hj0.
  rewrite <- Hj0, <- (kills_arrive sh). rewrite <- Hj0 in Hall, Hfg.
  clear Hj0. revert Hall Hfg. generalize (arrive sh). clear sh. intros sh Hall Hfg.
  unfold sigsuspend.
  destruct (pending sh) eqn:Hp; [destruct (arrivals sh) eqn:Ha|].
  - by exists sh.
  - set (sh1 := sigchld_handler _).
    assert (Hj : jobs sh1 = jobs sh) by (subst sh1; by rewrite jobs_handler_no_process).
    destruct (IH sh1) as (sh' & Hrun & Hj' & Hk); [by rewrite Hj..|].
    exists sh'. split; [done|]. split; [congruence|].
    rewrite Hk. subst sh1. by rewrite kills_handler.
  - set (sh1 := sigchld_handler _).
    assert (Hj : jobs sh1 = jobs sh) by (subst sh1; by rewrite jobs_handler_no_process).
    destruct (IH sh1) as (sh' & Hrun & Hj' & Hk); [by rewrite Hj..|].
    exists sh'. split; [done|]. split; [congruence|].
    rewrite Hk. subst sh1. by rewrite kills_handler.
Qed.

(** C4. [fg] with a job id that no job holds does not fail
    gracefully when the text after [%] reads as 0 (as ["%abc"], ["%"]
    and ["%0"] do): [getjob_jid] answers with a free slot, whose job
    id is 0.  On a table without jobs, whatever the children of the
    shell report from then on, [SIGCONT] is sent to target 0, the free
    slot 0 is marked [FG], and the shell waits for ever for process
    0; no error message is printed when nothing is reported. *)
Theorem fg_jobid_zero_hangs :
  (forall arr forks,
      exists sh',
        eval "fg %abc
" (Examples.fresh arr forks) = Hang sh'
        /\ kills (log sh') = [(0, SIGCONT)]
        /\ jobs sh' = <[0%nat := mkjob 0 0 0 FG EmptyString]>
                        (jobs (Examples.fresh arr forks)))
  /\ log (final (eval "fg %abc
" (Examples.fresh [] []))) = [EvKill 0 SIGCONT; EvTcsetpgrp 0].
Proof.
  split; [|by vm_compute].
  intros arr forks.
  set (sh := Examples.fresh arr forks).
  assert (Hjobs : jobs sh = replicate 16 clearjob) by done.
  assert (Hall : Forall (fun jb => pid jb = 0) (jobs sh)).
  { rewrite Hjobs. by apply Forall_replicate. }
  assert (Hsplit : split_line (snprintf_s MAXLINE "fg %abc
") = (["fg"; "%abc"], false)) by (vm_compute; reflexivity).
  unfold eval. rewrite Hsplit.
  rewrite bool_decide_eq_false_2 by done.
  assert (Hb : builtin_cmd ["fg"; "%abc"] = (do_bgfg ["fg"; "%abc"] true ;; ret 1))
    by done.
  rewrite Hb. clear Hb Hsplit.
  assert (Hfind : getjob_jid (jobs sh) (atoi "abc") = Some (0%nat, clearjob))
    by (rewrite Hjobs; vm_compute; reflexivity).
  set (sh1 := emit (EvKill 0 SIGCONT) (arrive sh)).
  set (sh2 := set_jobs (<[0%nat := set_state FG (job_at 0 sh1)]> (jobs sh1)) sh1).
  set (sh3 := emit (EvTcsetpgrp (pgid (job_at 0 sh2))) (arrive sh2)).
  assert (Hj1 : jobs sh1 = jobs sh) by (subst sh1; cbn; by apply jobs_arrive_no_process).
  assert (Hk1 : kills (log sh1) = [(0, SIGCONT)]).
  { subst sh1. rewrite kills_emit, kills_arrive. done. }
  assert (Hj2 : jobs sh2 = <[0%nat := mkjob 0 0 0 FG EmptyString]> (jobs sh)).
  { subst sh2. cbn [jobs set_jobs]. unfold job_at. by rewrite Hj1, Hjobs. }
  assert (Hall2 : Forall (fun jb => pid jb = 0) (jobs sh2)).
  { rewrite Hj2, Hjobs. by repeat constructor. }
  assert (Hj3 : jobs sh3 = jobs sh2) by (subst sh3; cbn; by apply jobs_arrive_no_process).
  assert (Hk3 : kills (log sh3) = [(0, SIGCONT)]).
  { subst sh3. rewrite kills_emit, kills_arrive.
    change (log sh2) with (log sh1). by rewrite Hk1. }
  assert (Hp3 : pid (job_at 0 sh3) = 0).
  { unfold job_at. by rewrite Hj3, Hj2, Hjobs. }
  assert (Heq : do_bgfg ["fg"; "%abc"] true sh =
                (waitfg 0 ;; let* s := get in tcsetpgrp (shell_pgid s)) sh3).
  { unfold do_bgfg. cbn [lookup list_lookup first_char rest_chars].
    rewrite bool_decide_eq_true_2 by done. cbn [negb].
    rewrite bind_get, Hfind. cbn [pgid clearjob Z.opp].
    rewrite (bind_Ret _ _ _ tt sh1) by done.
    rewrite (bind_Ret _ _ _ tt sh2) by done.
    rewrite (bind_Ret _ _ _ tt sh3) by done.
    unfold bind, get. by rewrite Hp3. }
  assert (Hdo : exists sh', do_bgfg ["fg"; "%abc"] true sh = Hang sh'
                  /\ kills (log sh') = [(0, SIGCONT)]
                  /\ jobs sh' = <[0%nat := mkjob 0 0 0 FG EmptyString]> (jobs sh)).
  { destruct (waitfg_loop_no_process (S (S (length (arrivals sh3)))) sh3)
      as (sh' & Hrun & Hj' & Hk'); [by rewrite Hj3| by rewrite Hj3, Hj2, Hjobs|].
    exists sh'. rewrite Heq. unfold bind, waitfg. rewrite Hrun.
    split; [done|]. split; congruence. }
  destruct Hdo as (sh' & Hrun & Hk & Hj).
  exists sh'. unfold bind at 1. unfold bind at 1. rewrite Hrun. done.
Qed.

End Resume.

(* ================================================================== *)
(** * The [exit] builtin *)
(* ================================================================== *)

Section ExitBuiltin.
Import Libc Control.

(** C3. [exit N] ends the shell with status [N] in the command loops
    of the first two phases, and with status 0, whatever follows the
    word [exit], in the job-control shell. *)
Theorem exit_status_by_phase :
  Phase1.main_step "exit 3
" = Phase1.Return 3 "Exiting (exit 3)
"
  /\ (forall w, Phase2.main_step "exit 3
" w = Exit 3 (Phase2.emit (Phase2.EvStdout "Exiting (exit 3)
") w))
  /\ (forall rest sh, Phase3.builtin_cmd ("exit" :: rest) sh = Exit 0 sh)
  /\ (forall sh, Phase3.eval "exit 3
" sh = Exit 0 sh).
Proof.
  split; [by vm_compute|]. split; [|split]; intros; reflexivity.
Qed.

End ExitBuiltin.

(* ================================================================== *)
(** * Launching a process: [eval] against the handler *)
(* ================================================================== *)

Section Launch.
Import Libc Control Wait Phase3.

Implicit Types (sh : shell) (p q : Z) (js : list job_t).

Lemma reaps_of_app p l1 l2 :
  reaps_of p (l1 ++ l2) = reaps_of p l1 ++ reaps_of p l2.
Proof. apply omap_app. Qed.

Lemma tracked_found p js : tracked p js -> is_Some (getjob_pid js p).
Proof.
  intros (k & jb & Hk & Hp). unfold getjob_pid.
  eapply (list_find_elem_of (fun jb => pid jb = p)); [|exact Hp].
  by eapply list_elem_of_lookup_2.
Qed.

Lemma tracked_insert_other p js i x y :
  js !! i = Some y -> pid y <> p -> tracked p js -> tracked p (<[i := x]> js).
Proof.
  intros Hi Hy (k & jb & Hk & Hp).
  destruct (decide (i = k)) as [->|Hne]; [congruence|].
  exists k, jb. by rewrite list_lookup_insert_ne.
Qed.

(** What one turn of the handler loop does to the table. *)
Lemma reap_one_jobs q st sh :
  jobs (reap_one (q, st) sh) = jobs sh \/
  exists i jb x,
    getjob_pid (jobs sh) q = Some (i, jb) /\
    jobs (reap_one (q, st) sh) = <[i := x]> (jobs sh) /\
    (x = clearjob \/ x = set_state ST jb).
Proof.
  unfold reap_one.
  destruct (getjob_pid (jobs sh) q) as [[i jb]|] eqn:Hfind;
    cbn [fmap option_fmap option_map fst]; [|by left].
  destruct st; cbn [WIFSTOPPED WIFCONTINUED WIFSIGNALED WIFEXITED];
    rewrite ?(deletejob_found q _ i jb) by exact Hfind;
    cbn [jobs set_jobs emit]; try (by left); right; exists i, jb; eauto.
Qed.

(** ... and to the log. *)
Lemma reap_one_log p q st sh :
  exists evs,
    log (reap_one (q, st) sh) = log sh ++ evs /\
    reaps_of p evs =
      if q =? p then [(st, fst <$> getjob_pid (jobs sh) q)] else [].
Proof.
  unfold reap_one.
  destruct (getjob_pid (jobs sh) q) as [[i jb]|] eqn:Hfind;
    cbn [fmap option_fmap option_map fst].
  - destruct st; cbn [WIFSTOPPED WIFCONTINUED WIFSIGNALED WIFEXITED];
      rewrite ?(deletejob_found q _ i jb) by exact Hfind;
      cbn [log set_jobs emit]; rewrite <- ?app_assoc;
      eexists; (split; [reflexivity|]); cbn; by destruct (q =? p).
  - eexists; split; [reflexivity|]. cbn. by destruct (q =? p).
Qed.

Lemma reap_one_frame n sh :
  fork_results (reap_one n sh) = fork_results sh /\
  sigchld_blocked (reap_one n sh) = sigchld_blocked sh /\
  pending (reap_one n sh) = pending sh /\
  arrivals (reap_one n sh) = arrivals sh.
Proof.
  destruct n as [q st]. unfold reap_one.
  destruct (getjob_pid (jobs sh) q) as [[i jb]|] eqn:Hfind;
    cbn [fmap option_fmap option_map fst]; [|done].
  destruct st; cbn [WIFSTOPPED WIFCONTINUED WIFSIGNALED WIFEXITED];
    rewrite ?(deletejob_found q _ i jb) by exact Hfind; done.
Qed.

Lemma drain_frame ns sh :
  fork_results (drain ns sh) = fork_results sh /\
  sigchld_blocked (drain ns sh) = sigchld_blocked sh /\
  pending (drain ns sh) = pending sh /\
  arrivals (drain ns sh) = arrivals sh.
Proof.
  revert sh. induction ns as [|n ns IH]; intros sh; [done|].
  cbn [drain]. destruct (0 <? n.1); [|done].
  destruct (IH (reap_one n sh)) as (-> & -> & -> & ->).
  apply reap_one_frame.
Qed.

Lemma arrive_frame sh :
  fork_results (arrive sh) = fork_results sh /\
  sigchld_blocked (arrive sh) = sigchld_blocked sh.
Proof.
  unfold arrive, deliver. destruct (arrivals sh) as [|b rest]; [done|].
  cbn [sigchld_blocked set_pending set_arrivals pending].
  destruct (sigchld_blocked sh) eqn:Hb; [done|].
  destruct (pending sh ++ b) as [|n ns]; [done|].
  unfold sigchld_handler.
  destruct (drain_frame (n :: ns)
              (set_pending [] (set_pending (n :: ns) (set_arrivals rest sh))))
    as (Hf & Hb' & _).
  cbn [pending set_pending]. by rewrite Hf, Hb'.
Qed.

Lemma arrive_blocked sh :
  sigchld_blocked sh = true ->
  jobs (arrive sh) = jobs sh /\ log (arrive sh) = log sh /\
  nextjid (arrive sh) = nextjid sh.
Proof.
  intros Hb. unfold arrive, deliver. destruct (arrivals sh); [done|].
  cbn [sigchld_blocked set_pending set_arrivals]. by rewrite Hb.
Qed.

(** ** The fuel of [waitfg] *)

Lemma handler_frame sh :
  pending (sigchld_handler sh) = [] /\
  arrivals (sigchld_handler sh) = arrivals sh.
Proof.
  unfold sigchld_handler.
  by destruct (drain_frame (pending sh) (set_pending [] sh)) as (_ & _ & -> & ->).
Qed.

Lemma arrive_uses_up sh :
  (length (arrivals (arrive sh)) + length (take 1 (pending (arrive sh)))
   <= length (arrivals sh) + length (take 1 (pending sh)))%nat.
Proof.
  unfold arrive, deliver. destruct (arrivals sh) as [|b rest] eqn:Ha; [rewrite Ha; lia|].
  cbn [sigchld_blocked set_pending set_arrivals pending].
  destruct (sigchld_blocked sh).
  { cbn [arrivals pending set_pending set_arrivals length].
    rewrite !length_take. lia. }
  destruct (pending sh ++ b) as [|n ns].
  { cbn [arrivals pending set_pending set_arrivals length take]. lia. }
  destruct (handler_frame (set_pending (n :: ns) (set_arrivals rest sh))) as [-> ->].
  cbn [arrivals set_pending set_arrivals length take]. lia.
Qed.

(** [waitfg] is only ever left hanging when nothing is pending or
    will arrive any more: the fuel of the loop never runs out before
    that. *)
Lemma waitfg_loop_hangs_when_quiet fuel p sh sh' :
  (length (arrivals sh) + length (take 1 (pending sh)) < fuel)%nat ->
  waitfg_loop fuel p sh = Hang sh' ->
  pending sh' = [] /\ arrivals sh' = [].
Proof.
  revert sh. induction fuel as [|fuel IH]; intros sh Hfuel Hrun; [lia|].
  cbn [waitfg_loop] in Hrun.
  destruct (Z.eqb_spec (fgpid (jobs sh)) p) as [Hfg|]; [|done].
  cbv zeta in Hrun.
  pose proof (arrive_uses_up sh) as Huse.
  revert Huse Hrun. generalize (arrive sh). intros sa Huse Hrun.
  unfold sigsuspend in Hrun.
  destruct (pending sa) as [|n ns] eqn:Hp; [destruct (arrivals sa) as [|b rest] eqn:Ha|].
  - injection Hrun as <-. by rewrite Hp, Ha.
  - eapply IH; [|exact Hrun].
    destruct (handler_frame (set_pending b (set_arrivals rest sa))) as [-> ->].
    cbn in *. lia.
  - eapply IH; [|exact Hrun].
    destruct (handler_frame sa) as [-> ->].
    cbn in *. lia.
Qed.

Lemma waitfg_hangs_when_quiet p sh sh' :
  waitfg p sh = Hang sh' ->
  pending sh' = [] /\ arrivals sh' = [].
Proof.
  apply waitfg_loop_hangs_when_quiet. rewrite length_take. lia.
Qed.

(** ** Free slots survive the handler *)

Lemma free_slot_tracked js : is_Some (free_slot js) <-> tracked 0 js.
Proof.
  split.
  - intros [[i jb] Hf]. apply list_find_Some in Hf as (Hi & Hp & _).
    by exists i, jb.
  - apply tracked_found.
Qed.

Lemma free_reap_one n sh :
  0 < n.1 -> tracked 0 (jobs sh) -> tracked 0 (jobs (reap_one n sh)).
Proof.
  destruct n as [q st]. cbn [fst]. intros Hq Hfree.
  destruct (reap_one_jobs q st sh) as [->|(i & jb & x & Hfind & -> & Hx)]; [done|].
  apply list_find_Some in Hfind as (Hi & Hp & _).
  eapply tracked_insert_other; [exact Hi|lia|done].
Qed.

Lemma free_drain ns sh :
  tracked 0 (jobs sh) -> tracked 0 (jobs (drain ns sh)).
Proof.
  revert sh. induction ns as [|n ns IH]; intros sh Hfree; [done|].
  cbn [drain]. destruct (0 <? n.1) eqn:Hn; [|done].
  apply IH, free_reap_one; [by apply Z.ltb_lt|done].
Qed.

Lemma free_arrive sh :
  tracked 0 (jobs sh) -> tracked 0 (jobs (arrive sh)).
Proof.
  intros Hfree. unfold arrive, deliver. destruct (arrivals sh); [done|].
  cbn [sigchld_blocked set_pending set_arrivals pending].
  destruct (sigchld_blocked sh); [done|].
  destruct (pending sh ++ l); [done|].
  by apply free_drain.
Qed.

(** ** Reports about other processes *)

Lemma drain_others p ns sh :
  Forall (fun n => n.1 <> p) ns ->
  exists evs, log (drain ns sh) = log sh ++ evs /\ reaps_of p evs = [].
Proof.
  intros Hns. revert sh.
  induction Hns as [|[q st] ns Hq _ IH]; intros sh.
  { exists []. by rewrite app_nil_r. }
  cbn [drain fst]. destruct (0 <? q); [|exists []; by rewrite app_nil_r].
  destruct (IH (reap_one (q, st) sh)) as (evs2 & -> & Hevs2).
  destruct (reap_one_log p q st sh) as (evs1 & -> & Hevs1).
  exists (evs1 ++ evs2). rewrite app_assoc. split; [done|].
  rewrite reaps_of_app, Hevs1, Hevs2.
  cbn in Hq. by destruct (Z.eqb_spec q p).
Qed.

Lemma arrive_others p sh :
  Forall (fun n => n.1 <> p) (pending sh) ->
  Forall (fun n => n.1 <> p) (default [] (head (arrivals sh))) ->
  exists evs, log (arrive sh) = log sh ++ evs /\ reaps_of p evs = [].
Proof.
  intros Hpend Hhead. unfold arrive, deliver.
  destruct (arrivals sh) as [|b rest]; [exists []; by rewrite app_nil_r|].
  cbn [sigchld_blocked set_pending set_arrivals pending].
  destruct (sigchld_blocked sh); [exists []; by rewrite app_nil_r|].
  destruct (pending sh ++ b) eqn:Hp; [exists []; by rewrite app_nil_r|].
  unfold sigchld_handler. cbn [pending set_pending]. rewrite <- Hp.
  destruct (drain_others p (pending sh ++ b)
              (set_pending [] (set_pending (pending sh ++ b) (set_arrivals rest sh))))
    as (evs & Hlog & Hevs); [apply Forall_app; by split|].
  exists evs. by rewrite Hlog.
Qed.

(** ** Once the job is registered *)

Lemma settled_frame p base sh sh' :
  jobs sh' = jobs sh -> log sh' = log sh ->
  settled p base sh -> settled p base sh'.
Proof. intros Hj Hl (ext & Hlog & H). exists ext. by rewrite Hj, Hl. Qed.

Lemma settled_grow p base sh sh' evs :
  log sh' = log sh ++ evs ->
  (tracked p (jobs sh) -> reaps_of p evs = [] /\ tracked p (jobs sh')
                          \/ exists st i rest, reaps_of p evs = (st, Some i) :: rest) ->
  settled p base sh -> settled p base sh'.
Proof.
  intros Hl Hstep (ext & Hlog & H). exists (ext ++ evs).
  split; [by rewrite Hl, Hlog, app_assoc|].
  rewrite reaps_of_app.
  destruct H as [[Hnone Htr]|(st & i & rest & Hsome)].
  - rewrite Hnone. cbn [app].
    destruct (Hstep Htr) as [[? ?]|?]; [by left|by right].
  - right. rewrite Hsome. by eexists _, _, _.
Qed.

Lemma settled_emit p base e sh :
  reaps_of p [e] = [] -> settled p base sh -> settled p base (emit e sh).
Proof. intros He. apply (settled_grow p base sh _ [e]); [done|]. by left. Qed.

Lemma settled_reap_one p base n sh :
  settled p base sh -> settled p base (reap_one n sh).
Proof.
  destruct n as [q st].
  destruct (reap_one_log p q st sh) as (evs & Hlog & Hevs).
  apply (settled_grow p base sh _ evs Hlog). intros Htr.
  rewrite Hevs. destruct (Z.eqb_spec q p) as [->|Hne].
  - right. destruct (tracked_found _ _ Htr) as [[i jb] ->]. by eexists _, _, _.
  - left. split; [done|].
    destruct (reap_one_jobs q st sh) as [->|(i & jb & x & Hfind & -> & Hx)]; [done|].
    apply list_find_Some in Hfind as (Hi & Hp & _).
    eapply tracked_insert_other; [exact Hi|congruence|done].
Qed.

Lemma settled_drain p base ns sh :
  settled p base sh -> settled p base (drain ns sh).
Proof.
  revert sh. induction ns as [|n ns IH]; intros sh Hs; [done|].
  cbn [drain]. destruct (0 <? n.1); [|done].
  by apply IH, settled_reap_one.
Qed.

Lemma settled_handler p base sh :
  settled p base sh -> settled p base (sigchld_handler sh).
Proof.
  intros Hs. unfold sigchld_handler. apply settled_drain.
  by apply (settled_frame p base sh).
Qed.

Lemma settled_deliver p base sh :
  settled p base sh -> settled p base (deliver sh).
Proof.
  intros Hs. unfold deliver. destruct (sigchld_blocked sh); [done|].
  destruct (pending sh); [done|]. by apply settled_handler.
Qed.

Lemma settled_arrive p base sh :
  settled p base sh -> settled p base (arrive sh).
Proof.
  intros Hs. unfold arrive. destruct (arrivals sh); [done|].
  apply settled_deliver. by apply (settled_frame p base sh).
Qed.

Lemma settled_waitfg_loop p base fuel q sh :
  settled p base sh -> settled p base (final (waitfg_loop fuel q sh)).
Proof.
  revert sh. induction fuel as [|fuel IH]; intros sh Hs; cbn [waitfg_loop];
    destruct (fgpid (jobs sh) =? q); try done.
  cbv zeta. apply settled_arrive in Hs.
  revert Hs. generalize (arrive sh). clear sh. intros sh Hs.
  unfold sigsuspend.
  destruct (pending sh) eqn:Hp; [destruct (arrivals sh) eqn:Ha|]; try done;
    apply IH, settled_handler; [|done].
  by apply (settled_frame p base sh).
Qed.

Lemma settled_first p base sh :
  settled p base sh ->
  exists post, log sh = base ++ post /\ first_reap_matched p post.
Proof.
  intros (ext & Hlog & H). exists ext. split; [done|].
  unfold first_reap_matched.
  destruct H as [[-> _]|(st & i & rest & ->)]; done.
Qed.

(** C1 (amended). A command that launches a process, run on a shell
    whose job table has a free slot: [SIGCHLD] is blocked, then the
    process is created, then its job is registered, then [SIGCHLD] is
    unblocked, and the handler collects nothing in between; whatever
    the children report and whenever they do, the handler collects no
    report for the new process before that, and the first report it
    collects for it afterwards finds its job in the table. *)
Theorem eval_launch_race_free sh cmdline argv bg p rest :
  split_line (snprintf_s MAXLINE cmdline) = (argv, bg) ->
  (forall s, builtin_cmd argv s = Ret 0 s) ->
  fork_results sh = p :: rest ->
  0 < p ->
  is_Some (free_slot (jobs sh)) ->
  Forall (fun n => n.1 <> p) (pending sh) ->
  Forall (fun n => n.1 <> p) (default [] (head (arrivals sh))) ->
  launch_race_free p (new_events sh (final (eval cmdline sh))).
Proof.
  intros Hsplit Hnb Hfork Hp Hfree Hpend Hhead.
  assert (Hne : argv <> []).
  { intros ->. specialize (Hnb sh). cbn in Hnb. discriminate. }
  (* the states after each step of the launch *)
  set (s1 := emit EvSigBlock (set_blocked true (arrive sh))).
  set (s2 := emit (EvFork p) (set_fork_results rest (arrive s1))).
  set (s3 := emit (EvSetpgid p p) (arrive s2)).
  destruct (arrive_frame sh) as [Hf0 _].
  destruct (arrive_frame s1) as [Hf1 Hb1].
  destruct (arrive_frame s2) as [_ Hb2].
  change (fork_results s1) with (fork_results (arrive sh)) in Hf1.
  change (sigchld_blocked s1) with true in Hb1.
  change (sigchld_blocked s2) with (sigchld_blocked (arrive s1)) in Hb2.
  rewrite Hb1 in Hb2.
  destruct (arrive_blocked s1 eq_refl) as (Hj1 & Hl1 & _).
  destruct (arrive_blocked s2 Hb1) as (Hj2 & Hl2 & _).
  assert (Hjobs3 : jobs s3 = jobs (arrive sh)).
  { change (jobs s3) with (jobs (arrive s2)). rewrite Hj2.
    change (jobs s2) with (jobs (arrive s1)). by rewrite Hj1. }
  assert (Hfree3 : is_Some (free_slot (jobs s3))).
  { rewrite Hjobs3. apply free_slot_tracked, free_arrive.
    by apply free_slot_tracked. }
  destruct Hfree3 as [[i jb0] Hslot].
  set (jb := mkjob p p (nextjid s3) (if bg then BG else FG) (snprintf_s MAXLINE cmdline)).
  set (s4 := emit (EvAddjob p true)
               (set_nextjid (if MAXJOBS <? nextjid s3 + 1 then 1 else nextjid s3 + 1)
                            (set_jobs (<[i := jb]> (jobs s3)) s3))).
  assert (Hb4 : sigchld_blocked s4 = true) by exact Hb2.
  destruct (arrive_blocked s4 Hb4) as (Hj4 & Hl4 & _).
  set (s5 := emit EvSigUnblock (set_blocked false (arrive s4))).
  (* the run of [eval] goes through them *)
  set (tail := if negb bg
               then tcsetpgrp p ;; waitfg p ;;
                    (let* s := get in tcsetpgrp (shell_pgid s))
               else let* s := get in
                    printf ("[" +:+ dec (nextjid s - 1) +:+ "] " +:+ dec p +:+ "
")).
  assert (Heval : eval cmdline sh = tail (deliver s5)).
  { unfold eval. rewrite Hsplit.
    rewrite bool_decide_eq_false_2 by done.
    rewrite (bind_Ret _ _ _ 0 sh) by apply Hnb.
    cbn [Z.eqb negb].
    rewrite (bind_Ret _ _ _ tt s1) by done.
    rewrite (bind_Ret _ _ _ p s2).
    2:{ unfold fork. rewrite Hf1, Hf0, Hfork. done. }
    rewrite (proj2 (Z.eqb_neq p 0)) by lia.
    rewrite (bind_Ret _ _ _ tt s3) by done.
    rewrite (bind_Ret _ _ _ tt s4).
    2:{ unfold bind, addjob_m, addjob. rewrite Hslot. done. }
    rewrite (bind_Ret _ _ _ tt (deliver s5)) by done.
    done. }
  (* the log up to the unblocking *)
  destruct (arrive_others p sh Hpend Hhead) as (pre & Hpre & Hnone).
  set (base := log sh ++ pre ++
               [EvSigBlock; EvFork p; EvSetpgid p p; EvAddjob p true; EvSigUnblock]).
  assert (Hlog5 : log s5 = base).
  { subst base s5. cbn [log emit set_blocked]. rewrite Hl4.
    subst s4. cbn [log emit set_nextjid set_jobs].
    subst s3. cbn [log emit]. rewrite Hl2.
    subst s2. cbn [log emit set_fork_results]. rewrite Hl1.
    subst s1. cbn [log emit set_blocked]. rewrite Hpre.
    by rewrite <- !app_assoc. }
  assert (Hs5 : settled p base s5).
  { exists []. split; [by rewrite app_nil_r|]. left. split; [done|].
    change (jobs s5) with (jobs (arrive s4)). rewrite Hj4.
    change (jobs s4) with (<[i := jb]> (jobs s3)).
    apply list_find_Some in Hslot as (Hi & _).
    exists i, jb. split; [|done].
    apply list_lookup_insert_eq. by eapply lookup_lt_Some. }
  (* the rest of the run keeps the invariant *)
  assert (Hfinal : settled p base (final (eval cmdline sh))).
  { rewrite Heval. apply settled_deliver in Hs5.
    revert Hs5. generalize (deliver s5). intros s Hs.
    subst tail. destruct bg; cbn [negb].
    - unfold bind, get, printf, syscall, modify. cbn [final].
      by apply settled_emit, settled_arrive.
    - unfold bind at 1. unfold tcsetpgrp at 1, syscall, modify.
      set (s6 := emit (EvTcsetpgrp p) (arrive s)).
      assert (Hs6 : settled p base s6) by by apply settled_emit, settled_arrive.
      unfold bind at 1. unfold waitfg.
      pose proof (settled_waitfg_loop p base (S (S (length (arrivals s6)))) p s6 Hs6) as Hw.
      destruct (waitfg_loop _ p s6) as [[] s7| | |]; cbn [final] in *; try done.
      unfold bind, get. cbn [final].
      by apply settled_emit, settled_arrive. }
  destruct (settled_first _ _ _ Hfinal) as (post & Hlog & Hfirst).
  exists pre, post. split; [|done].
  unfold new_events. rewrite Hlog. subst base.
  rewrite <- !app_assoc. by rewrite drop_app_length.
Qed.

Lemma eval_launch_race_free_witness :
  let sh := Examples.quick_on_fresh in
  split_line (snprintf_s MAXLINE Examples.quick) = (["sleep"; "3"], false) /\
  fork_results sh = [101] /\
  is_Some (free_slot (jobs sh)) /\
  launch_race_free 101 (new_events sh (final (eval Examples.quick sh))).
Proof.
  intros sh.
  assert (Hsplit : split_line (snprintf_s MAXLINE Examples.quick)
                   = (["sleep"; "3"], false)) by (vm_compute; reflexivity).
  assert (Hfree : is_Some (free_slot (jobs sh))) by (eexists; vm_compute; reflexivity).
  split; [exact Hsplit|]. split; [reflexivity|]. split; [exact Hfree|].
  apply (eval_launch_race_free sh Examples.quick ["sleep"; "3"] false 101 []);
    [exact Hsplit | intros s; reflexivity | reflexivity | lia | exact Hfree
    | constructor | constructor].
Defined.

(** C1 as stated fails when the job table is full: [addjob] registers
    nothing, [SIGCHLD] is unblocked all the same, and the handler
    collects the report of the new process without finding a job for
    it. *)
Lemma launch_on_full_table_unmatched :
  let sh := Examples.quick_on_full in
  split_line (snprintf_s MAXLINE Examples.quick) = (["sleep"; "3"], false) /\
  (forall s, builtin_cmd ["sleep"; "3"] s = Ret 0 s) /\
  fork_results sh = [117] /\
  Forall (fun n => n.1 <> 117) (pending sh) /\
  Forall (fun n => n.1 <> 117) (default [] (head (arrivals sh))) /\
  free_slot (jobs sh) = None /\
  new_events sh (final (eval Examples.quick sh)) =
    [EvSigBlock; EvFork 117; EvSetpgid 117 117;
     EvStderr "tsh: too many jobs
"; EvAddjob 117 false; EvSigUnblock;
     EvReap 117 (WExited 0) None; EvTcsetpgrp 117; EvTcsetpgrp 1000] /\
  ~ launch_race_free 117 (new_events sh (final (eval Examples.quick sh))).
Proof.
  intros sh.
  assert (Hnew : new_events sh (final (eval Examples.quick sh)) =
    [EvSigBlock; EvFork 117; EvSetpgid 117 117;
     EvStderr "tsh: too many jobs
"; EvAddjob 117 false; EvSigUnblock;
     EvReap 117 (WExited 0) None; EvTcsetpgrp 117; EvTcsetpgrp 1000])
    by (vm_compute; reflexivity).
  split; [by vm_compute|]. split; [intros s; reflexivity|].
  split; [reflexivity|]. split; [constructor|]. split; [constructor|].
  split; [by vm_compute|]. split; [exact Hnew|].
  rewrite Hnew. intros (pre & post & Heq & _).
  assert (Hin : EvAddjob 117 true ∈
                [EvSigBlock; EvFork 117; EvSetpgid 117 117;
                 EvStderr "tsh: too many jobs
"; EvAddjob 117 false; EvSigUnblock;
                 EvReap 117 (WExited 0) None; EvTcsetpgrp 117; EvTcsetpgrp 1000]).
  { rewrite Heq. apply elem_of_app. right. apply elem_of_app. left.
    apply list_elem_of_In. cbn. tauto. }
  repeat (apply elem_of_cons in Hin as [Hin|Hin]; [discriminate|]).
  by apply elem_of_nil in Hin.
Qed.

End Launch.

(* ================================================================== *)
(** * The launcher: pipes and descriptors *)
(* ================================================================== *)

Section Launcher.
Import Libc Control Fcntl Wait Phase2.

Implicit Types (w : world) (t : gmap Z ofd) (pipes : list (Z * Z)) (fd : Z).

Lemma lowest_free_free t limit fd :
  lowest_free t limit = Some fd -> t !! fd = None.
Proof.
  unfold lowest_free. intros H.
  destruct (list_find _ _) as [[i x]|] eqn:Hfind; [|done].
  cbn in H. injection H as <-.
  by apply list_find_Some in Hfind as (_ & Hx & _).
Qed.

Lemma lowest_free_nonneg t limit fd :
  lowest_free t limit = Some fd -> 0 <= fd.
Proof.
  unfold lowest_free. intros H.
  destruct (list_find _ _) as [[i x]|] eqn:Hfind; [|done].
  cbn in H. injection H as <-.
  apply list_find_Some in Hfind as (Hx & _ & _).
  apply list_lookup_fmap_Some in Hx as (n & -> & _). lia.
Qed.

Lemma with_proc_id w : with_proc (fdt w) (next_pipe w) (trace w) w = w.
Proof. by destruct w. Qed.

(** [pipe] either fails and changes nothing, or takes two free
    descriptors. *)
Lemma sys_pipe_cases w :
  sys_pipe w = Ret None w \/
  exists r wr,
    fdt w !! r = None /\ fdt w !! wr = None /\ r <> wr /\
    sys_pipe w =
      Ret (Some (r, wr))
          (with_proc (<[wr := OPipeW (next_pipe w)]> (<[r := OPipeR (next_pipe w)]> (fdt w)))
                     (S (next_pipe w)) (trace w ++ [EvPipe r wr]) w).
Proof.
  unfold sys_pipe.
  destruct (lowest_free (fdt w) (fd_limit w)) as [r|] eqn:Hr; [|by left].
  destruct (lowest_free (<[r:=_]> (fdt w)) (fd_limit w)) as [wr|] eqn:Hw; [|by left].
  right. exists r, wr.
  apply lowest_free_free in Hr, Hw.
  assert (r <> wr) by (intros ->; by rewrite lookup_insert_eq in Hw).
  rewrite lookup_insert_ne in Hw by done. done.
Qed.

(** The first loop, when every [pipe] succeeds. *)
Lemma create_pipes_ok k acc w pipes w1 :
  create_pipes k acc w = Ret (Some pipes) w1 ->
  exists new,
    pipes = acc ++ new /\ length new = k /\
    w1 = with_proc (fdt w1) (next_pipe w1) (trace w ++ (pipe_event <$> new)) w /\
    NoDup (pipe_fds new) /\
    (forall fd, fd ∈ pipe_fds new -> fdt w !! fd = None) /\
    (forall fd, fd ∉ pipe_fds new -> fdt w1 !! fd = fdt w !! fd) /\
    (forall j p, new !! j = Some p ->
       fdt w1 !! p.1 = Some (OPipeR (next_pipe w + j)) /\
       fdt w1 !! p.2 = Some (OPipeW (next_pipe w + j))).
Proof.
  revert acc w. induction k as [|k IH]; intros acc w Hrun.
  { cbn in Hrun. injection Hrun as <- <-. exists [].
    cbn. rewrite !app_nil_r, with_proc_id.
    repeat split; try done; [constructor|].
    intros fd Hin. by apply elem_of_nil in Hin. }
  cbn [create_pipes] in Hrun. unfold bind at 1 in Hrun.
  destruct (sys_pipe_cases w) as [Hfail|(r & wr & Hr & Hw & Hne & Hok)].
  { rewrite Hfail in Hrun. cbn in Hrun. discriminate. }
  rewrite Hok in Hrun. set (w' := with_proc _ _ _ w) in *.
  destruct (IH _ _ Hrun) as (new & -> & Hlen & Hw1 & Hnd & Hfree & Hsame & Hends).
  exists ((r, wr) :: new).
  assert (Hr' : r ∉ pipe_fds new).
  { intros Hin. apply Hfree in Hin. subst w'. cbn in Hin.
    rewrite lookup_insert_ne, lookup_insert_eq in Hin by done. done. }
  assert (Hw' : wr ∉ pipe_fds new).
  { intros Hin. apply Hfree in Hin. subst w'. cbn in Hin.
    by rewrite lookup_insert_eq in Hin. }
  split; [by rewrite <- app_assoc|]. split; [cbn; lia|].
  split; [rewrite Hw1 at 1; subst w'; cbn; by rewrite <- app_assoc|].
  split.
  { cbn. constructor; [|by constructor].
    apply not_elem_of_cons. by split. }
  split; [|split].
  - intros fd Hin. cbn in Hin.
    apply elem_of_cons in Hin as [->|Hin]; [done|].
    apply elem_of_cons in Hin as [->|Hin]; [done|].
    apply Hfree in Hin. subst w'. cbn in Hin.
    destruct (decide (fd = wr)) as [->|?]; [done|].
    destruct (decide (fd = r)) as [->|?]; [done|].
    by rewrite !lookup_insert_ne in Hin.
  - intros fd Hnin. cbn in Hnin.
    apply not_elem_of_cons in Hnin as [Hfr Hnin].
    apply not_elem_of_cons in Hnin as [Hfw Hnin].
    rewrite Hsame by done. subst w'. cbn.
    by rewrite !lookup_insert_ne.
  - intros j p Hj. destruct j as [|j]; cbn in Hj.
    + injection Hj as <-. cbn [fst snd].
      rewrite !Hsame by done. subst w'. cbn.
      rewrite lookup_insert_ne, !lookup_insert_eq by done.
      by rewrite Nat.add_0_r.
    + destruct (Hends j p Hj) as [H1 H2]. subst w'. cbn in H1, H2.
      by rewrite Nat.add_succ_r.
Qed.

Lemma close_pipes_run pipes w :
  close_pipes pipes w =
    Ret tt (with_proc (foldl (fun t fd => delete fd t) (fdt w) (pipe_fds pipes))
                      (next_pipe w) (trace w ++ (EvClose <$> pipe_fds pipes)) w).
Proof.
  revert w. induction pipes as [|[r wr] pipes IH]; intros w.
  { cbn. by rewrite app_nil_r, with_proc_id. }
  cbn [close_pipes fst snd]. unfold bind, sys_close, modify.
  rewrite IH. cbn. by rewrite <- !app_assoc.
Qed.

Lemma lookup_delete_all fds t fd :
  foldl (fun t fd => delete fd t) t fds !! fd =
    if decide (fd ∈ fds) then None else t !! fd.
Proof.
  revert t. induction fds as [|x fds IH]; intros t; cbn [foldl].
  { case_decide as Hin; [by apply elem_of_nil in Hin|done]. }
  rewrite IH. destruct (decide (fd = x)) as [->|Hne].
  - rewrite lookup_delete_eq.
    rewrite (decide_True (P := x ∈ x :: fds)) by apply list_elem_of_here.
    by case_decide.
  - rewrite lookup_delete_ne by done.
    destruct (decide (fd ∈ fds)) as [Hin|Hnin].
    + by rewrite decide_True by by apply list_elem_of_further.
    + rewrite decide_False; [done|]. by apply not_elem_of_cons.
Qed.

(** The second loop in the shell, when every [fork] succeeds. *)
Lemma fork_loop_parent pl pipes todo w pids rest :
  fork_results w = pids ++ rest ->
  length pids = length todo ->
  Forall (fun p => 0 < p) pids ->
  fork_loop pl pipes todo w =
    Ret tt (with_proc (fdt w) (next_pipe w)
                      (trace w ++ zip_with EvFork todo pids)
                      (set_fork_results rest w)).
Proof.
  revert w pids. induction todo as [|i todo IH]; intros w pids Hres Hlen Hpos.
  { destruct pids; [|done]. cbn in *. subst rest.
    rewrite app_nil_r. by destruct w. }
  destruct pids as [|p pids]; [done|].
  apply Forall_cons in Hpos as [Hp Hpos].
  cbn [fork_loop]. unfold bind at 1, sys_fork. rewrite Hres. cbn [app].
  rewrite (proj2 (Z.eqb_neq p 0)) by lia.
  rewrite (proj2 (Z.ltb_ge p 0)) by lia.
  rewrite (IH _ pids); [|done|cbn in Hlen; lia|done].
  cbn. by rewrite <- app_assoc.
Qed.

Lemma wait_all_run rs w :
  exists evs,
    wait_all rs w =
      Ret tt (set_wait_results (wait_results (final (wait_all rs w)))
                (with_proc (fdt w) (next_pipe w) (trace w ++ evs) w)) /\
    pipes_created evs = [] /\ forked evs = [] /\ closed evs = [].
Proof.
  revert w. induction rs as [|r rs IH]; intros w.
  { exists []. cbn. rewrite app_nil_r. by destruct w. }
  cbn [wait_all]. destruct (0 <? r.1).
  - unfold bind at 1. unfold modify at 1.
    unfold bind at 1. unfold bind at 1. unfold get at 1. unfold printf at 1, modify.
    set (w2 := emit _ (emit _ w)).
    destruct (IH w2) as (evs & Hrun & H1 & H2 & H3).
    exists ([EvWait r.1 r.2; EvStdout (msg_wait (emit (EvWait r.1 r.2) w) r.1 r.2)] ++ evs).
    rewrite Hrun at 1. cbn [final].
    split.
    + rewrite Hrun. subst w2. cbn. by rewrite <- !app_assoc.
    + unfold pipes_created, forked, closed in *. rewrite !omap_app, H1, H2, H3. done.
  - exists []. cbn. rewrite app_nil_r. by destruct w.
Qed.

Lemma bind_Ret_world {A B} (m : M world A) (k : A -> M world B) w a w' :
  m w = Ret a w' -> bind m k w = k a w'.
Proof. intros H. unfold bind. by rewrite H. Qed.

(** C7. A pipeline of [n_cmds pl >= 1] stages for which every [pipe]
    and every [fork] succeeds: the shell creates exactly
    [n_cmds pl - 1] pipes, then one process per stage, then closes
    both descriptors of every pipe, and only then waits; none of the
    pipe descriptors is open in the shell afterwards, and its
    descriptor table is the one it started with. *)
Theorem execute_pipeline_channels pl w pipes w1 pids rest :
  1 <= n_cmds pl ->
  create_pipes (Z.to_nat (n_cmds pl - 1)) [] w = Ret (Some pipes) w1 ->
  fork_results w = pids ++ rest ->
  length pids = Z.to_nat (n_cmds pl) ->
  Forall (fun p => 0 < p) pids ->
  exists w' waits,
    execute_pipeline pl w = Ret tt w' /\
    Z.of_nat (length pipes) = n_cmds pl - 1 /\
    trace w' = trace w ++ (pipe_event <$> pipes)
                 ++ zip_with EvFork (seq 0 (Z.to_nat (n_cmds pl))) pids
                 ++ (EvClose <$> pipe_fds pipes) ++ waits /\
    pipes_created waits = [] /\ forked waits = [] /\ closed waits = [] /\
    (forall fd, fd ∈ pipe_fds pipes -> fdt w' !! fd = None) /\
    fdt w' = fdt w.
Proof.
  intros Hn Hpipes Hres Hlen Hpos.
  destruct (create_pipes_ok _ _ _ _ _ Hpipes)
    as (new & Hnew & Hk & Hw1 & _ & Hfree & Hsame & _).
  cbn [app] in Hnew. subst new.
  assert (Hres1 : fork_results w1 = pids ++ rest) by (by rewrite Hw1).
  unfold execute_pipeline.
  rewrite (bind_Ret_world _ _ _ _ _ Hpipes).
  rewrite (bind_Ret_world _ _ _ _ _
             (fork_loop_parent pl pipes (seq 0 (Z.to_nat (n_cmds pl))) w1 pids rest
                Hres1 ltac:(by rewrite Hlen, length_seq) Hpos)).
  set (w2 := with_proc (fdt w1) _ _ _).
  rewrite (bind_Ret_world _ _ _ _ _ (close_pipes_run pipes w2)).
  set (w3 := with_proc _ _ _ w2).
  unfold bind, get.
  destruct (wait_all_run (wait_results w3) w3) as (waits & Hwait & H1 & H2 & H3).
  rewrite Hwait.
  eexists _, waits. split; [reflexivity|].
  split; [lia|].
  assert (Hfd : forall fd,
             fdt w3 !! fd = if decide (fd ∈ pipe_fds pipes) then None else fdt w1 !! fd).
  { intros fd. subst w3 w2. cbn [fdt with_proc]. apply lookup_delete_all. }
  split; [|split; [done|split; [done|split; [done|split]]]].
  - cbn [trace set_wait_results with_proc]. subst w3 w2. cbn [trace with_proc].
    rewrite Hw1. cbn [trace with_proc]. by rewrite <- !app_assoc.
  - intros fd Hin. cbn [fdt set_wait_results with_proc].
    by rewrite Hfd, decide_True.
  - cbn [fdt set_wait_results with_proc]. apply map_eq. intros fd.
    rewrite Hfd. case_decide as Hin; [by rewrite Hfree|by apply Hsame].
Qed.

Lemma execute_pipeline_channels_witness :
  let w := PipelineExamples.shell_world [101; 102; 103] ∅ in
  1 <= n_cmds PipelineExamples.three_stages /\
  fork_results w = [101; 102; 103] ++ [] /\
  exists w',
    execute_pipeline PipelineExamples.three_stages w = Ret tt w' /\
    pipes_created (trace w') = [(3, 4); (5, 6)] /\
    closed (trace w') = [3; 4; 5; 6] /\
    fdt w' = fdt w.
Proof.
  intros w. split; [by vm_compute|]. split; [reflexivity|].
  destruct (execute_pipeline_channels PipelineExamples.three_stages w
              [(3, 4); (5, 6)]
              (final (create_pipes 2 [] w)) [101; 102; 103] [])
    as (w' & waits & Hrun & _ & Htrace & Hp & _ & Hc & _ & Hfdt);
    [by vm_compute | by vm_compute | reflexivity | reflexivity
    | repeat constructor |].
  exists w'. split; [exact Hrun|].
  rewrite Htrace. unfold pipes_created, closed in *.
  rewrite !omap_app, Hp, Hc. split; [reflexivity|]. split; [reflexivity|].
  exact Hfdt.
Defined.

(** ** The children *)

Lemma sys_open_cases path flags mode w :
  has_flag flags O_CREAT = true ->
  sys_open path flags mode w = Ret (-1) (emit (EvOpen path flags mode (-1)) w) \/
  exists fd,
    0 <= fd /\ fdt w !! fd = None /\
    sys_open path flags mode w =
      Ret fd
          (emit (EvOpen path flags mode fd)
             (set_fs (<[path := if has_flag flags O_TRUNC then EmptyString
                                else default EmptyString (fs w !! path)]> (fs w))
                (set_fdt (<[fd := OFile path (has_flag flags O_APPEND) 0]> (fdt w)) w))).
Proof.
  intros Hcreat. unfold sys_open.
  destruct (bool_decide _); [by left|].
  destruct (lowest_free (fdt w) (fd_limit w)) as [fd|] eqn:Hfd; [|by left].
  right. exists fd.
  split; [by eapply lowest_free_nonneg|]. split; [by eapply lowest_free_free|].
  rewrite Hcreat. destruct (fs w !! path); cbn [default]; [done|].
  by destruct (has_flag flags O_TRUNC).
Qed.

Lemma redirect_flags_bits app :
  has_flag (redirect_flags app) O_WRONLY = true /\
  has_flag (redirect_flags app) O_CREAT = true /\
  has_flag (redirect_flags app) O_TRUNC = negb app /\
  has_flag (redirect_flags app) O_APPEND = app.
Proof. by destruct app. Qed.

Lemma pipe_fds_lookup pipes j p :
  pipes !! j = Some p -> p.1 ∈ pipe_fds pipes /\ p.2 ∈ pipe_fds pipes.
Proof.
  intros Hj. unfold pipe_fds.
  split; apply list_elem_of_In, in_flat_map; exists p;
    (split; [by eapply list_elem_of_In, list_elem_of_lookup_2|]); cbn; tauto.
Qed.

Lemma wired_insert_std pipes w fd d tr :
  (fd = 0 \/ fd = 1) ->
  wired pipes w ->
  wired pipes (with_proc (<[fd := d]> (fdt w)) (next_pipe w) tr w).
Proof.
  intros Hfd ((Hin & Hout) & Hstd & Hpipes).
  split; [|split; [done|]].
  - split; cbn [fdt with_proc].
    + destruct (decide (fd = 0)) as [->|?];
        [rewrite lookup_insert_eq; by eexists|by rewrite lookup_insert_ne].
    + destruct (decide (fd = 1)) as [->|?];
        [rewrite lookup_insert_eq; by eexists|by rewrite lookup_insert_ne].
  - intros j p Hj. destruct (Hpipes j p Hj) as (k & Hr & Hw).
    destruct (pipe_fds_lookup _ _ _ Hj) as [Hp1 Hp2]. apply Hstd in Hp1, Hp2.
    exists k. cbn [fdt with_proc].
    rewrite !lookup_insert_ne by (destruct Hfd; lia). done.
Qed.

Lemma wired_trace pipes w tr :
  wired pipes w -> wired pipes (with_proc (fdt w) (next_pipe w) tr w).
Proof. by intros H. Qed.

(** The standard input of a stage is rewired without touching
    anything else that matters later. *)
Lemma wire_stdin_run pipes i w :
  wired pipes w ->
  exists w2,
    wire_stdin pipes i w = Ret tt w2 /\ wired pipes w2 /\
    fs w2 = fs w /\ in_child w2 = in_child w /\
    fdt w2 !! 1 = fdt w !! 1 /\
    exists evs, trace w2 = trace w ++ evs.
Proof.
  intros Hw. unfold wire_stdin.
  destruct (0 <? Z.of_nat i).
  2:{ exists w. split_and!; try done. exists []. by rewrite app_nil_r. }
  unfold bind, sys_dup2. change (Z.of_nat STDIN_FILENO) with 0.
  destruct (fdt w !! pipe_read pipes (i - 1)) as [d|] eqn:Hd.
  - cbn [Z.ltb Z.compare].
    destruct (pipe_read pipes (i - 1) =? 0) eqn:Hz.
    + eexists. split; [reflexivity|]. split; [by apply wired_trace|].
      split_and!; try done. by eexists.
    + eexists. split; [reflexivity|].
      split; [apply (wired_insert_std pipes w 0); [by left|done]|].
      split_and!; try done; [|by eexists].
      cbn. by rewrite lookup_insert_ne.
  - (* the read end is always open *)
    exfalso. destruct Hw as ((Hin & _) & _ & Hpipes).
    unfold pipe_read in Hd.
    destruct (pipes !! (i - 1)%nat) as [p|] eqn:Hp; cbn in Hd.
    + destruct (Hpipes _ _ Hp) as (k & Hr & _). congruence.
    + destruct Hin as [x Hx]. change (Z.of_nat STDIN_FILENO) with 0 in Hx.
      congruence.
Qed.

Lemma wire_stdout_inner pl pipes i w p :
  wired pipes w ->
  pipes !! i = Some p ->
  Z.of_nat i < n_cmds pl - 1 ->
  exists w3 k,
    wire_stdout pl pipes i w = Ret tt w3 /\ wired pipes w3 /\
    fs w3 = fs w /\ in_child w3 = in_child w /\
    fdt w3 !! 1 = Some (OPipeW k) /\
    exists evs, trace w3 = trace w ++ evs.
Proof.
  intros Hw Hp Hi. unfold wire_stdout.
  rewrite (proj2 (Z.ltb_lt _ _) Hi).
  destruct Hw as (Hstd & Hfds & Hpipes).
  destruct (Hpipes _ _ Hp) as (k & _ & Hwr).
  assert (Hne : p.2 <> 1) by (apply Hfds; by eapply pipe_fds_lookup).
  unfold bind, sys_dup2, pipe_write. change (Z.of_nat STDOUT_FILENO) with 1.
  rewrite Hp. cbn [from_option id]. rewrite Hwr. cbn [Z.ltb Z.compare].
  rewrite (proj2 (Z.eqb_neq _ _) Hne).
  eexists _, k. split; [reflexivity|].
  split; [apply (wired_insert_std pipes w 1); [by right|done]|].
  split_and!; try done; [|by eexists].
  cbn. by rewrite lookup_insert_eq.
Qed.

Lemma wire_stdout_last pl pipes i w :
  Z.of_nat i = n_cmds pl - 1 -> wire_stdout pl pipes i w = Ret tt w.
Proof.
  intros Hi. unfold wire_stdout. by rewrite (proj2 (Z.ltb_ge _ _)) by lia.
Qed.

Lemma redirect_output_inner pl i w :
  Z.of_nat i < n_cmds pl - 1 -> redirect_output pl i w = Ret tt w.
Proof.
  intros Hi. unfold redirect_output. destruct (outfile pl); [|done].
  by rewrite (proj2 (Z.eqb_neq _ _)) by lia.
Qed.

(** The redirection in the last stage: it gives up with status 1, or
    leaves the file on standard output and on no other descriptor. *)
Lemma redirect_output_last pl pipes i w file :
  outfile pl = Some file ->
  Z.of_nat i = n_cmds pl - 1 ->
  wired pipes w ->
  (exists w', redirect_output pl i w = Exit 1 w') \/
  exists fd w4,
    redirect_output pl i w = Ret tt w4 /\
    fdt w !! fd = None /\
    fdt w4 = delete fd (<[1 := OFile file (append pl) 0]>
                          (<[fd := OFile file (append pl) 0]> (fdt w))) /\
    fs w4 = <[file := if append pl then default EmptyString (fs w !! file)
                     else EmptyString]> (fs w) /\
    in_child w4 = in_child w /\
    trace w4 = trace w ++ [EvOpen file (redirect_flags (append pl)) 438 fd;
                           EvDup2 fd 1 1; EvClose fd].
Proof.
  intros Hout Hi ((_ & [d1 Hd1]) & _ & _). unfold redirect_output.
  rewrite Hout, (proj2 (Z.eqb_eq _ _) Hi).
  destruct (redirect_flags_bits (append pl)) as (_ & Hcreat & Htrunc & Happ).
  change (Z.of_nat STDOUT_FILENO) with 1 in *.
  destruct (sys_open_cases file (redirect_flags (append pl)) 438 w Hcreat)
    as [Hopen|(fd & Hfd0 & Hfree & Hopen)].
  { left. rewrite (bind_Ret_world _ _ _ _ _ Hopen). by eexists. }
  assert (Hne : fd <> 1) by (intros ->; congruence).
  right. exists fd.
  rewrite (bind_Ret_world _ _ _ _ _ Hopen).
  rewrite (proj2 (Z.ltb_ge _ _) Hfd0).
  unfold bind, sys_dup2.
  cbn [fdt emit set_fs set_fdt].
  rewrite lookup_insert_eq. cbn [Z.ltb Z.compare].
  rewrite (proj2 (Z.eqb_neq _ _) Hne).
  eexists. split; [reflexivity|].
  rewrite Htrunc, Happ. cbn.
  split_and!; try done.
  - by destruct (append pl).
  - by rewrite <- !app_assoc.
Qed.

Lemma load_program_run pl i w :
  reaches_program (load_program pl i w) /\
  fdt (final (load_program pl i w)) = fdt w /\
  fs (final (load_program pl i w)) = fs w /\
  in_child (final (load_program pl i w)) = in_child w /\
  exists evs, trace (final (load_program pl i w)) = trace w ++ evs.
Proof.
  unfold load_program, bind, get.
  destruct (find_executable_in_path _ w) as [path|];
    [destruct (execve_ok w path)|]; cbn;
    split_and!; try done; try (by eexists);
    exists []; by rewrite app_nil_r.
Qed.

(** ** Which process a run is *)

Lemma same_process_bind {A B} (m : M world A) (k : A -> M world B) :
  same_process m -> (forall a, same_process (k a)) -> same_process (bind m k).
Proof.
  intros Hm Hk w. unfold bind. specialize (Hm w).
  destruct (m w) as [a s'| | |]; cbn [final] in *; try done.
  by rewrite Hk.
Qed.

Lemma same_process_if {A} (b : bool) (m1 m2 : M world A) :
  same_process m1 -> same_process m2 -> same_process (if b then m1 else m2).
Proof. by destruct b. Qed.

Lemma same_process_dup2 old new : same_process (sys_dup2 old new).
Proof.
  intros w. unfold sys_dup2. destruct (fdt w !! old); [|done].
  by destruct (old =? new).
Qed.

Lemma same_process_open path flags mode : same_process (sys_open path flags mode).
Proof.
  intros w. unfold sys_open. destruct (bool_decide _); [done|].
  destruct (lowest_free _ _); [|done].
  destruct (fs w !! path); [done|]. by destruct (has_flag flags O_CREAT).
Qed.

Lemma same_process_close_pipes pipes : same_process (close_pipes pipes).
Proof. intros w. by rewrite close_pipes_run. Qed.

Lemma same_process_load pl i : same_process (load_program pl i).
Proof. intros w. by destruct (load_program_run pl i w) as (_ & _ & _ & ? & _). Qed.

Ltac same_process_tac :=
  repeat first
    [ apply same_process_load
    | apply same_process_bind; [|intros ?]
    | apply same_process_if
    | apply same_process_dup2
    | apply same_process_open
    | apply same_process_close_pipes
    | (intros ?; reflexivity) ].

Lemma same_process_child pl pipes i : same_process (child_stage pl pipes i).
Proof.
  unfold child_stage, wire_stdin, wire_stdout, redirect_output.
  destruct (outfile pl); same_process_tac.
Qed.

Lemma bind_never_returns {A B} (m : M world A) (k : A -> M world B) w :
  (forall a s b s', k a s <> Ret b s') ->
  forall b s', bind m k w <> Ret b s'.
Proof.
  intros Hk b s'. unfold bind. destruct (m w); try done; apply Hk.
Qed.

Lemma child_stage_never_returns pl pipes i w a w' :
  child_stage pl pipes i w <> Ret a w'.
Proof.
  unfold child_stage.
  do 4 (apply bind_never_returns; intros _ ?).
  intros b s' Hret.
  match type of Hret with
  | load_program pl i ?s = _ =>
      destruct (load_program_run pl i s) as (Hreach & _)
  end.
  by rewrite Hret in Hreach.
Qed.

Lemma bind_child {A} (m : M world A) (k : A -> M world A) w :
  (forall a w', m w <> Ret a w') -> bind m k w = m w.
Proof.
  intros Hm. unfold bind. destruct (m w) as [a s'| | |] eqn:Hrun; try done.
  by destruct (Hm a s').
Qed.

Lemma create_pipes_cases k acc w :
  (exists pipes w1, create_pipes k acc w = Ret (Some pipes) w1) \/
  (exists w1, create_pipes k acc w = Ret None w1 /\ in_child w1 = in_child w).
Proof.
  revert acc w. induction k as [|k IH]; intros acc w.
  { left. by eexists _, _. }
  cbn [create_pipes].
  destruct (sys_pipe_cases w) as [Hp|(r & wr & _ & _ & _ & Hp)];
    rewrite (bind_Ret_world _ _ _ _ _ Hp).
  { right. by eexists. }
  destruct (IH (acc ++ [(r, wr)]) (with_proc (<[wr:=OPipeW (next_pipe w)]>
              (<[r:=OPipeR (next_pipe w)]> (fdt w))) (S (next_pipe w))
              (trace w ++ [EvPipe r wr]) w))
    as [(pipes & w1 & ->)|(w1 & -> & Hc)].
  - left. by eexists _, _.
  - right. by eexists.
Qed.

(** The second loop either ends in the shell, or is left by the child
    of one of the stages, which starts with the descriptors the shell
    had. *)
Lemma fork_loop_cases pl pipes todo w :
  in_child w = None ->
  (exists w', fork_loop pl pipes todo w = Ret tt w' /\ in_child w' = None) \/
  (exists i wc,
      i ∈ todo /\
      fork_loop pl pipes todo w = child_stage pl pipes i wc /\
      in_child wc = Some i /\ fdt wc = fdt w /\ fs wc = fs w).
Proof.
  revert w. induction todo as [|i todo IH]; intros w Hshell.
  { left. by exists w. }
  cbn [fork_loop].
  destruct (fork_results w) as [|p rest] eqn:Hres.
  { rewrite (bind_Ret_world _ _ _ (-1) (emit (EvFork i (-1)) w))
      by (unfold sys_fork; by rewrite Hres).
    left. by eexists. }
  rewrite (bind_Ret_world _ _ _ p
             (if p =? 0
              then set_in_child (Some i) (emit (EvFork i p) (set_fork_results rest w))
              else emit (EvFork i p) (set_fork_results rest w)))
    by (unfold sys_fork; by rewrite Hres).
  destruct (p <? 0) eqn:Hneg.
  { rewrite (proj2 (Z.eqb_neq p 0)) by lia. left. by eexists. }
  destruct (p =? 0) eqn:Hzero.
  { right. eexists i, _. split; [apply list_elem_of_here|].
    split; [reflexivity|]. by split_and!. }
  destruct (IH (emit (EvFork i p) (set_fork_results rest w)) Hshell)
    as [(w' & -> & Hc)|(i' & wc & Hin & -> & Hc & Hfdt & Hfs)].
  - left. by eexists.
  - right. exists i', wc. split; [by apply list_elem_of_further|]. by split.
Qed.

(** The run of [execute_pipeline] that ends in the child of stage
    [j]: that child has the standard descriptors of the shell and all
    the pipes. *)
Lemma execute_pipeline_child pl w j :
  in_child w = None ->
  std_open w ->
  in_child (final (execute_pipeline pl w)) = Some j ->
  exists pipes wc,
    execute_pipeline pl w = child_stage pl pipes j wc /\
    wired pipes wc /\
    length pipes = Z.to_nat (n_cmds pl - 1) /\
    (j < Z.to_nat (n_cmds pl))%nat /\
    fs wc = fs w /\ in_child wc = Some j.
Proof.
  intros Hshell [Hin Hout] Hchild. unfold execute_pipeline in *.
  destruct (create_pipes_cases (Z.to_nat (n_cmds pl - 1)) [] w)
    as [(pipes & w1 & Hpipes)|(w1 & Hpipes & Hc)].
  2:{ rewrite (bind_Ret_world _ _ _ _ _ Hpipes) in Hchild. cbn in Hchild. congruence. }
  rewrite (bind_Ret_world _ _ _ _ _ Hpipes) in *.
  destruct (create_pipes_ok _ _ _ _ _ Hpipes)
    as (new & Hnew & Hk & Hw1 & _ & Hfree & Hsame & Hends).
  cbn [app] in Hnew. subst new.
  assert (Hshell1 : in_child w1 = None) by (by rewrite Hw1).
  assert (Hwired : wired pipes w1).
  { assert (Hstd : forall fd, fd ∈ pipe_fds pipes -> fd <> 0 /\ fd <> 1).
    { intros fd Hfd. apply Hfree in Hfd.
      destruct Hin as [? Hin], Hout as [? Hout].
      change (Z.of_nat STDIN_FILENO) with 0 in Hin.
      change (Z.of_nat STDOUT_FILENO) with 1 in Hout.
      split; intros ->; congruence. }
    split; [|split; [done|]].
    - split; rewrite Hsame; try done; intros Hfd; apply Hstd in Hfd;
        by destruct Hfd.
    - intros i p Hp. destruct (Hends i p Hp) as [H1 H2]. by eexists. }
  destruct (fork_loop_cases pl pipes (seq 0 (Z.to_nat (n_cmds pl))) w1 Hshell1)
    as [(w' & Hloop & Hc)|(i & wc & Hi & Hloop & Hc & Hfdt & Hfs)].
  { rewrite (bind_Ret_world _ _ _ _ _ Hloop) in Hchild.
    rewrite (bind_Ret_world _ _ _ _ _ (close_pipes_run pipes w')) in Hchild.
    unfold bind, get in Hchild.
    destruct (wait_all_run (wait_results (with_proc
      (foldl (fun t fd => delete fd t) (fdt w') (pipe_fds pipes)) (next_pipe w')
      (trace w' ++ (EvClose <$> pipe_fds pipes)) w')) (with_proc
      (foldl (fun t fd => delete fd t) (fdt w') (pipe_fds pipes)) (next_pipe w')
      (trace w' ++ (EvClose <$> pipe_fds pipes)) w')) as (evs & Hwait & _).
    rewrite Hwait in Hchild. cbn in Hchild. congruence. }
  rewrite bind_child in * by (rewrite Hloop; apply child_stage_never_returns).
  rewrite Hloop in *.
  rewrite same_process_child, Hc in Hchild. injection Hchild as <-.
  exists pipes, wc. split; [done|].
  split.
  { destruct Hwired as ((H0 & H1) & Hstd & Hp).
    split; [|split; [done|]].
    - by split; rewrite Hfdt.
    - intros k p Hk'. rewrite Hfdt. exact (Hp _ _ Hk'). }
  split; [done|]. split; [|by rewrite Hfs, Hw1].
  apply elem_of_seq in Hi. lia.
Qed.

(** ** The children, from fork to program *)

(** A stage that is not the last writes to its pipe and opens no
    file, whatever redirection the pipeline has; nothing can make its
    wiring fail. *)
Lemma child_stage_inner pl pipes i w :
  wired pipes w ->
  length pipes = Z.to_nat (n_cmds pl - 1) ->
  Z.of_nat i < n_cmds pl - 1 ->
  reaches_program (child_stage pl pipes i w) /\
  fs (final (child_stage pl pipes i w)) = fs w /\
  exists k, fdt (final (child_stage pl pipes i w)) !! 1 = Some (OPipeW k).
Proof.
  intros Hw Hlen Hi.
  destruct (lookup_lt_is_Some_2 pipes i) as [p Hp]; [lia|].
  destruct (wire_stdin_run pipes i w Hw) as (w2 & Hrun2 & Hw2 & Hfs2 & _ & _ & _).
  destruct (wire_stdout_inner pl pipes i w2 p Hw2 Hp Hi)
    as (w3 & k & Hrun3 & Hw3 & Hfs3 & _ & Hout3 & _).
  unfold child_stage.
  rewrite (bind_Ret_world _ _ _ _ _ Hrun2), (bind_Ret_world _ _ _ _ _ Hrun3).
  rewrite (bind_Ret_world _ _ _ _ _ (redirect_output_inner pl i w3 Hi)).
  rewrite (bind_Ret_world _ _ _ _ _ (close_pipes_run pipes w3)).
  set (w4 := with_proc _ _ _ w3).
  destruct (load_program_run pl i w4) as (Hreach & Hfdt & Hfs & _).
  split; [done|]. split; [by rewrite Hfs, <- Hfs2, <- Hfs3|].
  exists k. rewrite Hfdt. subst w4. cbn [fdt with_proc].
  rewrite lookup_delete_all, decide_False; [done|].
  intros Hin. by apply Hw3 in Hin as [_ ?].
Qed.

(** The last stage of a pipeline with a redirection, when it gets as
    far as its program: the file was opened with the flags of the
    mode, and is what standard output is open on. *)
Lemma child_stage_last pl pipes i w file :
  wired pipes w ->
  outfile pl = Some file ->
  Z.of_nat i = n_cmds pl - 1 ->
  reaches_program (child_stage pl pipes i w) ->
  fdt (final (child_stage pl pipes i w)) !! 1 = Some (OFile file (append pl) 0) /\
  fs (final (child_stage pl pipes i w)) =
    <[file := if append pl then default EmptyString (fs w !! file)
              else EmptyString]> (fs w) /\
  exists fd, EvOpen file (redirect_flags (append pl)) 438 fd
               ∈ trace (final (child_stage pl pipes i w)).
Proof.
  intros Hw Hout Hi.
  destruct (wire_stdin_run pipes i w Hw) as (w2 & Hrun2 & Hw2 & Hfs2 & _ & _ & _).
  unfold child_stage.
  rewrite (bind_Ret_world _ _ _ _ _ Hrun2).
  rewrite (bind_Ret_world _ _ _ _ _ (wire_stdout_last pl pipes i w2 Hi)).
  destruct (redirect_output_last pl pipes i w2 file Hout Hi Hw2)
    as [(w' & Hfail)|(fd & w4 & Hrun4 & Hfree & Hfdt4 & Hfs4 & _ & Htr4)].
  { unfold bind at 1. rewrite Hfail. cbn. lia. }
  rewrite (bind_Ret_world _ _ _ _ _ Hrun4).
  rewrite (bind_Ret_world _ _ _ _ _ (close_pipes_run pipes w4)).
  set (w5 := with_proc _ _ _ w4).
  destruct (load_program_run pl i w5) as (_ & Hfdt & Hfs & _ & evs & Htr).
  intros _. rewrite Hfdt, Hfs, Htr. subst w5. cbn [fdt fs trace with_proc].
  split; [|split].
  - rewrite lookup_delete_all, decide_False.
    2:{ intros Hin. by apply Hw2 in Hin as [_ ?]. }
    rewrite Hfdt4.
    assert (fd <> 1).
    { intros ->. destruct Hw2 as ((_ & [d Hd]) & _).
      change (Z.of_nat STDOUT_FILENO) with 1 in Hd. congruence. }
    by rewrite lookup_delete_ne, lookup_insert_eq.
  - by rewrite Hfs4, Hfs2.
  - exists fd. rewrite Htr4. rewrite !elem_of_app. left. left. right.
    apply list_elem_of_here.
Qed.

(** ** Writing to the redirected output *)

Lemma substring_all (s : string) : String.substring 0 (String.length s) s = s.
Proof. induction s as [|c s IH]; [done|]. cbn. by rewrite IH. Qed.

Lemma substring_none n (s : string) : String.substring n 0 s = EmptyString.
Proof.
  revert n. induction s as [|c s IH]; intros [|n]; cbn; try done; apply IH.
Qed.

Lemma substring_of_empty n m : String.substring n m EmptyString = EmptyString.
Proof. by destruct n, m. Qed.

Lemma append_empty (s : string) : s +:+ EmptyString = s.
Proof.
  induction s as [|c s IH]; [done|].
  change (String c s +:+ EmptyString) with (String c (s +:+ EmptyString)).
  by rewrite IH.
Qed.

Lemma write_to_file w path app content data :
  fdt w !! 1 = Some (OFile path app 0) ->
  fs w !! path = Some content ->
  (app = false -> content = EmptyString) ->
  fs (sys_write 1 data w) !! path = Some (content +:+ data).
Proof.
  intros Hfd Hfile Htrunc. unfold sys_write. rewrite Hfd, Hfile.
  cbn [fs set_fs set_fdt default from_option id]. rewrite lookup_insert_eq. f_equal.
  destruct app.
  - rewrite substring_all.
    replace (String.length content - (String.length content + String.length data))%nat
      with 0%nat by lia.
    by rewrite substring_none, append_empty.
  - rewrite (Htrunc eq_refl), !substring_of_empty. by rewrite append_empty.
Qed.

(** C8. The redirection is lost in a shell that was started with
    its standard output closed.  For [echo hi > out] and
    [echo hi >> out] the child opens the file as the operator says,
    and [open] returns descriptor 1, the lowest one that is free;
    [dup2(1, 1)] changes nothing, and [close(fd)] closes descriptor 1.
    The program is started with its standard output closed, and what
    it writes there does not reach the file. *)
Theorem redirect_closes_standard_output :
  let w := PipelineExamples.shell_without_stdout [0] PipelineExamples.notes in
  (exists w',
     main_step "echo hi > out
" w = Exec "/bin/echo" ["echo"; "hi"] w' /\
     in_child w' = Some 0%nat /\
     trace w' = [EvFork 0 0; EvOpen "out" (redirect_flags false) 438 1;
                 EvDup2 1 1 1; EvClose 1] /\
     fdt w' !! 1 = None /\
     fs w' !! "out" = Some EmptyString /\
     fs (sys_write 1 "hi
" w') !! "out" = Some EmptyString)
  /\
  (exists w',
     main_step "echo hi >> out
" w = Exec "/bin/echo" ["echo"; "hi"] w' /\
     in_child w' = Some 0%nat /\
     trace w' = [EvFork 0 0; EvOpen "out" (redirect_flags true) 438 1;
                 EvDup2 1 1 1; EvClose 1] /\
     fdt w' !! 1 = None /\
     fs w' !! "out" = Some "old
" /\
     fs (sys_write 1 "hi
" w') !! "out" = Some "old
").
Proof.
  intros w. split; eexists; (split; [vm_compute; reflexivity|]);
    split_and!; vm_compute; reflexivity.
Qed.

End Launcher.

(* ================================================================== *)
(** * The pipeline parser *)
(* ================================================================== *)

Section Parser.
Import Libc Control Fcntl Wait Phase2.

Implicit Types (toks pre post : list string) (pl : Pipeline) (idx : nat).

Lemma is_redirect_not_pipe op : is_redirect op = true -> streq op "|" = false.
Proof.
  unfold is_redirect, streq. intros H.
  apply orb_true_iff in H as [H|H]; apply bool_decide_eq_true in H; by subst.
Qed.

(** A redirection that is already recorded stays as it is. *)
Lemma parse_loop_keeps_outfile toks idx pl0 pl f :
  outfile pl0 = Some f ->
  parse_loop toks idx pl0 = ParseOk pl ->
  outfile pl = Some f /\ append pl = append pl0.
Proof.
  revert idx pl0. induction toks as [|tok rest IH]; intros idx pl0 Hout Hrun;
    cbn [parse_loop] in Hrun.
  { destruct (argc_at idx pl0 =? 0); [done|]. by injection Hrun as <-. }
  destruct (streq tok "|").
  { destruct (argc_at idx pl0 =? 0); [done|].
    destruct (MAX_CMDS <=? n_cmds pl0); [done|].
    by apply IH in Hrun. }
  destruct (is_redirect tok).
  { destruct rest; [done|]. by rewrite Hout in Hrun. }
  destruct (MAX_ARGS - 1 <=? argc_at idx pl0); [done|].
  by apply IH in Hrun.
Qed.

(** Recording a redirection before the rest of a scan that meets
    none changes nothing else. *)
Lemma parse_loop_with_redirect toks idx pl0 pl f a :
  outfile pl0 = None ->
  parse_loop toks idx pl0 = ParseOk pl ->
  outfile pl = None ->
  parse_loop toks idx (set_redirect f a pl0) = ParseOk (set_redirect f a pl).
Proof.
  revert idx pl0. induction toks as [|tok rest IH]; intros idx pl0 Hout Hrun Hnone;
    cbn [parse_loop] in *.
  { change (argc_at idx (set_redirect f a pl0)) with (argc_at idx pl0).
    destruct (argc_at idx pl0 =? 0); [done|]. by injection Hrun as <-. }
  destruct (streq tok "|").
  { change (argc_at idx (set_redirect f a pl0)) with (argc_at idx pl0).
    change (n_cmds (set_redirect f a pl0)) with (n_cmds pl0).
    destruct (argc_at idx pl0 =? 0); [done|].
    destruct (MAX_CMDS <=? n_cmds pl0); [done|].
    by apply (IH _ (next_cmd pl0)). }
  destruct (is_redirect tok).
  { destruct rest as [|file rest']; [done|]. rewrite Hout in Hrun.
    apply parse_loop_keeps_outfile with (f := file) in Hrun as [Hsome _]; [|done].
    congruence. }
  change (argc_at idx (set_redirect f a pl0)) with (argc_at idx pl0).
  destruct (MAX_ARGS - 1 <=? argc_at idx pl0); [done|].
  by apply (IH _ (push_arg idx tok pl0)).
Qed.

(** A redirection put anywhere into a command line that has none. *)
Lemma parse_loop_insert_redirect pre post idx pl0 pl op f :
  is_redirect op = true ->
  outfile pl0 = None ->
  parse_loop (pre ++ post) idx pl0 = ParseOk pl ->
  outfile pl = None ->
  parse_loop (pre ++ op :: f :: post) idx pl0 =
    ParseOk (set_redirect f (is_append op) pl).
Proof.
  intros Hop. revert idx pl0.
  induction pre as [|tok pre IH]; intros idx pl0 Hout Hrun Hnone.
  { cbn [app parse_loop] in *.
    rewrite (is_redirect_not_pipe op Hop), Hop, Hout.
    by apply parse_loop_with_redirect. }
  cbn [app parse_loop] in *.
  destruct (streq tok "|").
  { destruct (argc_at idx pl0 =? 0); [done|].
    destruct (MAX_CMDS <=? n_cmds pl0); [done|].
    by apply IH. }
  destruct (is_redirect tok).
  { destruct (pre ++ post) as [|file rest'] eqn:Hrest; [done|].
    rewrite Hout in Hrun.
    apply parse_loop_keeps_outfile with (f := file) in Hrun as [Hsome _]; [|done].
    congruence. }
  destruct (MAX_ARGS - 1 <=? argc_at idx pl0); [done|].
  by apply IH.
Qed.

(** C10. The parser takes the redirection before the separator in
    [ls > out | wc] and records it, words and stages as without it;
    but in a shell that was started with its standard output closed
    it is not applied to the last stage.  [pipe] returns descriptor
    1 for the read end; the child of the last stage puts the file on
    descriptor 1 and then, closing both ends of every pipe, closes
    descriptor 1: [wc] is started with its standard output closed,
    and what it writes there does not reach the file. *)
Theorem redirect_before_pipe_closes_standard_output :
  let w := PipelineExamples.shell_without_stdout [101; 0] PipelineExamples.notes in
  exists pl w',
    parse_pipeline ["ls"; ">"; "out"; "|"; "wc"] = ParseOk pl /\
    stages pl = [["ls"]; ["wc"]] /\
    outfile pl = Some "out" /\ append pl = false /\
    main_step "ls > out | wc
" w = Exec "/bin/wc" ["wc"] w' /\
    in_child w' = Some 1%nat /\
    trace w' = [EvPipe 1 3; EvFork 0 101; EvFork 1 0; EvDup2 1 0 0;
                EvOpen "out" (redirect_flags false) 438 4; EvDup2 4 1 1;
                EvClose 4; EvClose 1; EvClose 3] /\
    fdt w' !! 1 = None /\
    fs (sys_write 1 "3
" w') !! "out" = Some EmptyString.
Proof.
  intros w. eexists _, _. split; [vm_compute; reflexivity|].
  split_and!; vm_compute; reflexivity.
Qed.

End Parser.

Section ParseErrors.
Import Libc Control Fcntl Wait Phase2.

Implicit Types (toks : list string) (its : list item) (pl : Pipeline) (idx : nat).

Lemma split_stages_cons its : exists s ss, split_stages its = s :: ss.
Proof.
  induction its as [|[w| |a f] its (s & ss & IH)]; cbn; rewrite ?IH; by eexists _, _.
Qed.

Lemma count_items_cons f it its :
  count_items f (it :: its) = (if f it then 1 else 0) + count_items f its.
Proof.
  unfold count_items. rewrite filter_cons.
  destruct (f it); case_decide; try done; cbn [length]; lia.
Qed.

Lemma error_ahead_nil k c o :
  0 <= c -> k <= MAX_CMDS -> c <= MAX_ARGS - 1 ->
  error_ahead k c o [] <-> c = 0.
Proof.
  intros Hc Hk Hmax. unfold error_ahead. cbn.
  rewrite !Exists_nil. unfold count_items. cbn.
  destruct o; split; intros H; try lia; intuition (try lia; try done).
Qed.

Lemma error_ahead_pipe k c o its :
  0 <= c ->
  error_ahead k c o (IPipe :: its) <->
  c = 0 \/ MAX_ARGS - 1 < c \/ error_ahead (k + 1) 0 o its.
Proof.
  intros Hc. unfold error_ahead. cbn [split_stages hd tl redirect_without_file existsb lacks_file orb].
  destruct (split_stages_cons its) as (s & ss & ->). cbn [hd tl length].
  rewrite count_items_cons. cbn [is_redir].
  rewrite !Exists_cons.
  assert (Hs : s = [] <-> Z.of_nat (length s) = 0) by (destruct s; cbn; split; intros; (done || lia)).
  rewrite Hs. split; intros H; intuition lia.
Qed.

Lemma error_ahead_word k c o w its :
  error_ahead k c o (IWord w :: its) <-> error_ahead k (c + 1) o its.
Proof.
  unfold error_ahead. cbn [split_stages redirect_without_file existsb lacks_file orb].
  destruct (split_stages_cons its) as (s & ss & ->). cbn [hd tl length].
  rewrite count_items_cons. cbn [is_redir].
  split; intros H; intuition lia.
Qed.

Lemma error_ahead_redirect k c o a f its :
  error_ahead k c o (IRedirect a (Some f) :: its) <->
  o = true \/ error_ahead k c true its.
Proof.
  unfold error_ahead. cbn [split_stages redirect_without_file existsb lacks_file orb].
  rewrite count_items_cons. cbn [is_redir].
  assert (0 <= count_items is_redir its) by (unfold count_items; lia).
  destruct o; split; intros H'; intuition (try lia; try done).
Qed.

Lemma error_ahead_no_file k c o a :
  error_ahead k c o [IRedirect a None].
Proof. unfold error_ahead. cbn. tauto. Qed.

Lemma argc_at_nonneg idx pl : 0 <= argc_at idx pl.
Proof. unfold argc_at. lia. Qed.

Lemma scanning_next idx pl :
  scanning idx pl -> n_cmds pl < MAX_CMDS ->
  scanning (S idx) (next_cmd pl) /\ argc_at (S idx) (next_cmd pl) = 0.
Proof.
  intros (Hlen & Hn & Hmax & Hargs & Hrest) Hlt.
  assert (Hz : argc_at (S idx) (next_cmd pl) = 0) by (apply (Hrest (S idx)); lia).
  split; [|done].
  split_and!; cbn [n_cmds cmds next_cmd]; try done; try lia.
  - rewrite Hz. unfold MAX_ARGS. lia.
  - intros j Hj. apply (Hrest j). lia.
Qed.

Lemma scanning_push idx tok pl :
  scanning idx pl -> argc_at idx pl < MAX_ARGS - 1 ->
  scanning idx (push_arg idx tok pl) /\
  argc_at idx (push_arg idx tok pl) = argc_at idx pl + 1.
Proof.
  intros (Hlen & Hn & Hmax & Hargs & Hrest) Hlt.
  assert (Hidx : (idx < length (cmds pl))%nat) by (rewrite Hlen; lia).
  destruct (lookup_lt_is_Some_2 _ _ Hidx) as [a Ha].
  assert (Hc : argc_at idx (push_arg idx tok pl) = argc_at idx pl + 1).
  { unfold argc_at, push_arg. cbn [cmds].
    rewrite list_lookup_alter_eq, Ha. cbn. rewrite length_app. cbn. lia. }
  split; [|done].
  split_and!; cbn [n_cmds cmds push_arg]; try done; try lia.
  - by rewrite length_alter.
  - intros j Hj. rewrite <- (Hrest j Hj). unfold argc_at, push_arg. cbn [cmds].
    rewrite list_lookup_alter_ne by lia. done.
Qed.

Lemma scanning_start :
  scanning 0 (next_cmd empty_pipeline) /\ argc_at 0 (next_cmd empty_pipeline) = 0.
Proof.
  split; [|done]. split_and!; try done.
  intros j _. unfold argc_at. cbn [cmds next_cmd empty_pipeline].
  destruct (replicate (Z.to_nat MAX_CMDS) [] !! j) as [a|] eqn:Hj; [|done].
  apply lookup_replicate in Hj as [-> _]. done.
Qed.

(** The scan fails from a state exactly when one of the causes lies
    ahead. *)
Lemma parse_loop_error n :
  forall toks idx pl,
    (length toks <= n)%nat ->
    scanning idx pl ->
    is_error (parse_loop toks idx pl) = true <->
    error_ahead (n_cmds pl) (argc_at idx pl) (has_redirect pl) (lex toks).
Proof.
  induction n as [|n IH]; intros toks idx pl Hlen Hscan;
    pose proof (argc_at_nonneg idx pl) as Hc;
    pose proof Hscan as (_ & Hn & Hmax & Hargs & _).
  { destruct toks; [|cbn in Hlen; lia]. cbn [parse_loop lex].
    rewrite error_ahead_nil by done.
    destruct (Z.eqb_spec (argc_at idx pl) 0); cbn; split; (done || lia). }
  destruct toks as [|tok rest].
  { cbn [parse_loop lex]. rewrite error_ahead_nil by done.
    destruct (Z.eqb_spec (argc_at idx pl) 0); cbn; split; (done || lia). }
  cbn [length] in Hlen. cbn [parse_loop lex].
  destruct (streq tok "|").
  { rewrite error_ahead_pipe by done.
    destruct (Z.eqb_spec (argc_at idx pl) 0) as [Hz|Hz]; [cbn; by intuition|].
    destruct (Z.leb_spec MAX_CMDS (n_cmds pl)) as [Hfull|Hroom].
    - cbn. split; [intros _|done]. right. right.
      unfold error_ahead. destruct (split_stages_cons (lex rest)) as (s & ss & ->).
      cbn [hd tl]. do 4 right. left. lia.
    - destruct (scanning_next idx pl Hscan Hroom) as [Hscan' Hzero].
      rewrite (IH rest (S idx) (next_cmd pl)) by (done || lia).
      rewrite Hzero. cbn [n_cmds next_cmd has_redirect outfile].
      change (has_redirect (next_cmd pl)) with (has_redirect pl).
      intuition lia. }
  destruct (is_redirect tok).
  { destruct rest as [|file rest'].
    { cbn. split; [intros _|done]. apply error_ahead_no_file. }
    rewrite error_ahead_redirect. unfold has_redirect at 1.
    destruct (outfile pl) as [f|] eqn:Hout; [cbn; by intuition|].
    rewrite (IH rest' idx (set_redirect file (is_append tok) pl));
      [|cbn in Hlen; lia|done].
    change (argc_at idx (set_redirect file (is_append tok) pl)) with (argc_at idx pl).
    cbn [n_cmds set_redirect has_redirect outfile].
    split; [by right|]. by intros [?|?]. }
  rewrite error_ahead_word.
  destruct (Z.leb_spec (MAX_ARGS - 1) (argc_at idx pl)) as [Hfull|Hroom].
  - cbn. split; [intros _|done].
    unfold error_ahead. destruct (split_stages_cons (lex rest)) as (s & ss & ->).
    cbn [hd tl]. do 5 right. left. lia.
  - destruct (scanning_push idx tok pl Hscan Hroom) as [Hscan' Hcount].
    rewrite (IH rest idx (push_arg idx tok pl)) by (done || lia).
    rewrite Hcount.
    change (has_redirect (push_arg idx tok pl)) with (has_redirect pl).
    done.
Qed.

Lemma error_ahead_start toks :
  error_ahead 1 0 false (lex toks) <-> spec_parse_error_any_empty toks = true.
Proof.
  unfold error_ahead, spec_parse_error_any_empty, some_empty_stage,
    multiple_redirects, too_many_stages, too_many_args.
  destruct (split_stages_cons (lex toks)) as (s & ss & ->).
  cbn [hd tl existsb length].
  rewrite !orb_true_iff, !existsb_exists, Z.ltb_lt, Z.ltb_lt, Z.ltb_lt.
  rewrite !Exists_exists.
  assert (Hs : is_empty_stage s = true <-> 0 + Z.of_nat (length s) = 0)
    by (destruct s; cbn; split; intros; (done || lia)).
  rewrite Hs.
  assert (He : (exists x, In x ss /\ is_empty_stage x = true)
               <-> (exists x, x ∈ ss /\ x = [])).
  { split; intros (x & Hin & Hx); exists x; (split; [by apply list_elem_of_In|]);
      destruct x; done. }
  assert (Hb : (exists x, In x ss /\ (MAX_ARGS - 1 <? Z.of_nat (length x)) = true)
               <-> (exists x, x ∈ ss /\ MAX_ARGS - 1 < Z.of_nat (length x))).
  { split; intros (x & Hin & Hx); exists x; (split; [by apply list_elem_of_In|]);
      by apply Z.ltb_lt. }
  rewrite He, Hb. intuition lia.
Qed.

(** C5 (amended). The parser fails exactly when some stage has no
    word (next to a separator or not: the empty token sequence and a
    command that is only a redirection are such), or a redirection
    operator is the last token, or there is more than one redirection
    operator, or there are more than [MAX_CMDS] stages, or a stage has
    more than [MAX_ARGS - 1] words; the token after a redirection
    operator counts as its file name.  When it fails, [main] prints
    the message, creates no pipe and no process, and goes on to the
    next line. *)
Theorem parse_pipeline_fails_iff toks :
  (is_error (parse_pipeline toks) = true <->
   spec_parse_error_any_empty toks = true) /\
  forall w,
    is_error (parse_pipeline toks) = true ->
    streq (default EmptyString (head toks)) "exit" = false ->
    exists w',
      run_tokens toks w = Ret tt w' /\
      forked (trace w') = forked (trace w) /\
      pipes_created (trace w') = pipes_created (trace w) /\
      fdt w' = fdt w /\ fs w' = fs w /\ in_child w' = in_child w.
Proof.
  split.
  - rewrite <- error_ahead_start.
    destruct toks as [|tok rest]; [cbn; split; [intros _; by left|done]|].
    unfold parse_pipeline.
    destruct scanning_start as [Hscan Hzero].
    rewrite (parse_loop_error (length (tok :: rest)) _ 0 _ (le_n _) Hscan).
    by rewrite Hzero.
  - intros w Herr Hexit. unfold run_tokens. rewrite Hexit.
    destruct (parse_pipeline toks) as [pl|[msg|]]; [done| |].
    + eexists. split; [reflexivity|]. cbn [trace emit fdt fs in_child].
      unfold forked, pipes_created. rewrite !omap_app. cbn.
      by rewrite !app_nil_r.
    + by exists w.
Qed.

Lemma parse_pipeline_fails_iff_witness :
  let w := PipelineExamples.shell_world [] ∅ in
  is_error (parse_pipeline [">"; "out"]) = true /\
  spec_parse_error_any_empty [">"; "out"] = true /\
  exists w', run_tokens [">"; "out"] w = Ret tt w' /\ forked (trace w') = [].
Proof.
  intros w.
  assert (Herr : is_error (parse_pipeline [">"; "out"]) = true) by reflexivity.
  destruct (parse_pipeline_fails_iff [">"; "out"]) as [Hiff Hrun].
  split; [exact Herr|]. split; [exact (proj1 Hiff Herr)|].
  destruct (Hrun w Herr eq_refl) as (w' & Hret & Hforked & _).
  exists w'. split; [exact Hret|]. exact Hforked.
Defined.

(** C5 as stated fails: a command that is only a redirection is
    rejected although no stage next to a separator is empty and none
    of the other causes is there. *)
Lemma parse_error_without_listed_cause :
  parse_pipeline [">"; "out"]
    = ParseErr (Some "tinyshell: empty command in pipeline
") /\
  spec_parse_error [">"; "out"] = false /\
  ~ (is_error (parse_pipeline [">"; "out"]) = true <->
     spec_parse_error [">"; "out"] = true).
Proof.
  split; [reflexivity|]. split; [reflexivity|].
  intros [H _]. specialize (H eq_refl). discriminate H.
Qed.

End ParseErrors.

(* ================================================================== *)
(** * Lines, words and numbers *)
(* ================================================================== *)

Section Lines.
Import Libc Control.

Implicit Types (s t cur : string) (c : ascii) (toks : list string).

Lemma append_cons c s t : String c s +:+ t = String c (s +:+ t).
Proof. reflexivity. Qed.

Lemma append_nil_l t : EmptyString +:+ t = t.
Proof. reflexivity. Qed.

Lemma append_assoc s1 s2 s3 : (s1 +:+ s2) +:+ s3 = s1 +:+ (s2 +:+ s3).
Proof.
  induction s1 as [|c s1 IH]; [done|]. by rewrite !append_cons, IH.
Qed.

Lemma chars_app s t :
  list_ascii_of_string (s +:+ t) = list_ascii_of_string s ++ list_ascii_of_string t.
Proof.
  induction s as [|c s IH]; [done|].
  rewrite append_cons. cbn [list_ascii_of_string]. by rewrite IH.
Qed.

(** ** [trim] *)

Lemma ltrim_split s :
  exists pre,
    s = pre +:+ Phase1.ltrim s /\
    Forall (fun c => Phase1.is_ws c = true) (list_ascii_of_string pre).
Proof.
  induction s as [|c s (pre & Hs & Hpre)]; [by exists EmptyString|].
  cbn [Phase1.ltrim]. destruct (Phase1.is_ws c) eqn:Hc.
  - exists (String c pre). rewrite append_cons, <- Hs. split; [done|].
    by constructor.
  - by exists EmptyString.
Qed.

Lemma ltrim_head s c r : Phase1.ltrim s = String c r -> Phase1.is_ws c = false.
Proof.
  induction s as [|d s IH]; [done|]. cbn [Phase1.ltrim].
  destruct (Phase1.is_ws d) eqn:Hd; [done|]. by intros [= <- _].
Qed.

Lemma rtrim_split s :
  exists post,
    s = Phase1.rtrim s +:+ post /\
    Forall (fun c => Phase1.is_ws c = true) (list_ascii_of_string post).
Proof.
  induction s as [|c s (post & Hs & Hpost)]; [by exists EmptyString|].
  cbn [Phase1.rtrim]. destruct (Phase1.rtrim s) as [|d r] eqn:Hr.
  - rewrite append_nil_l in Hs. subst post. destruct (Phase1.is_ws c) eqn:Hc.
    + exists (String c s). split; [done|]. by constructor.
    + by exists s.
  - exists post. by rewrite append_cons, <- Hs.
Qed.

Lemma rtrim_last s :
  match last (list_ascii_of_string (Phase1.rtrim s)) with
  | Some c => Phase1.is_ws c = false
  | None => True
  end.
Proof.
  induction s as [|c s IH]; [done|].
  cbn [Phase1.rtrim]. destruct (Phase1.rtrim s) as [|d r] eqn:Hr.
  - by destruct (Phase1.is_ws c) eqn:Hc.
  - exact IH.
Qed.

Theorem trim_spec s :
  exists pre post,
    s = pre +:+ Phase1.trim s +:+ post /\
    Forall (fun c => Phase1.is_ws c = true) (list_ascii_of_string pre) /\
    Forall (fun c => Phase1.is_ws c = true) (list_ascii_of_string post) /\
    match list_ascii_of_string (Phase1.trim s) with
    | c :: _ => Phase1.is_ws c = false
    | [] => True
    end /\
    match last (list_ascii_of_string (Phase1.trim s)) with
    | Some c => Phase1.is_ws c = false
    | None => True
    end.
Proof.
  destruct (ltrim_split s) as (pre & Hs & Hpre).
  unfold Phase1.trim. destruct (Phase1.ltrim s) as [|c rest] eqn:Hl.
  - exists pre, EmptyString. by split_and!.
  - destruct (rtrim_split rest) as (post & Hrest & Hpost).
    exists pre, post. split_and!; try done.
    + by rewrite append_cons, <- Hrest.
    + cbn [list_ascii_of_string]. by eapply ltrim_head.
    + pose proof (rtrim_last rest) as Hlast. cbn [list_ascii_of_string].
      destruct (list_ascii_of_string (Phase1.rtrim rest)) as [|d l] eqn:Hr.
      * cbn. by eapply ltrim_head.
      * exact Hlast.
Qed.

(** ** [strtok] to exhaustion *)

Lemma tokenize_tokens (d : ascii -> bool) s cur :
  Forall (fun c => d c = false) (list_ascii_of_string cur) ->
  Forall (fun t => t <> EmptyString /\
                   Forall (fun c => d c = false) (list_ascii_of_string t))
         (tokenize d s cur).
Proof.
  revert cur. induction s as [|c s IH]; intros cur Hcur; cbn [tokenize].
  - case_decide; [constructor|]. by repeat constructor.
  - destruct (d c) eqn:Hc.
    + case_decide; [by apply IH|]. constructor; [done|]. by apply IH.
    + apply IH. rewrite chars_app. apply Forall_app. split; [done|].
      by repeat constructor.
Qed.

Lemma tokenize_delims (d : ascii -> bool) s :
  Forall (fun c => d c = true) (list_ascii_of_string s) ->
  tokenize d s EmptyString = [].
Proof.
  induction s as [|c s IH]; [done|]. cbn [list_ascii_of_string tokenize].
  intros [Hc Hs]%Forall_cons. rewrite Hc. by apply IH.
Qed.

Lemma tokenize_flush (d : ascii -> bool) s cur :
  cur <> EmptyString ->
  Forall (fun c => d c = true) (list_ascii_of_string s) ->
  tokenize d s cur = [cur].
Proof.
  intros Hcur. destruct s as [|c s]; cbn [list_ascii_of_string tokenize].
  - by rewrite decide_False.
  - intros [Hc Hs]%Forall_cons. rewrite Hc, decide_False by done.
    by rewrite tokenize_delims.
Qed.

Lemma tokenize_word (d : ascii -> bool) t rest cur :
  Forall (fun c => d c = false) (list_ascii_of_string t) ->
  tokenize d (t +:+ rest) cur = tokenize d rest (cur +:+ t).
Proof.
  revert cur. induction t as [|c t IH]; intros cur Ht.
  - by rewrite append_nil_l, append_empty.
  - cbn [list_ascii_of_string] in Ht. apply Forall_cons in Ht as [Hc Ht].
    rewrite append_cons. cbn [tokenize]. rewrite Hc, IH by done.
    by rewrite append_assoc.
Qed.

Lemma tokenize_nonempty (d : ascii -> bool) s cur :
  cur <> EmptyString -> tokenize d s cur <> [].
Proof.
  revert cur. induction s as [|c s IH]; intros cur Hcur; cbn [tokenize].
  - by rewrite decide_False.
  - destruct (d c); [by rewrite decide_False|].
    apply IH. by destruct cur.
Qed.

(** Words joined by single spaces and followed by [tail], a run of
    delimiters, are the tokens. *)
Lemma tokenize_join (d : ascii -> bool) toks tail :
  d " "%char = true ->
  Forall (fun t => t <> EmptyString /\
                   Forall (fun c => d c = false) (list_ascii_of_string t)) toks ->
  Forall (fun c => d c = true) (list_ascii_of_string tail) ->
  tokenize d (String.concat " " toks +:+ tail) EmptyString = toks.
Proof.
  intros Hsp Htoks Htail.
  induction Htoks as [|t toks [Hne Ht] _ IH]; [by apply tokenize_delims|].
  destruct toks as [|t' toks].
  - cbn [String.concat]. rewrite tokenize_word, append_nil_l by done.
    by apply tokenize_flush.
  - change (String.concat " " (t :: t' :: toks))
      with (t +:+ String " " (String.concat " " (t' :: toks))).
    rewrite append_assoc, tokenize_word, append_nil_l by done.
    rewrite append_cons. cbn [tokenize]. rewrite Hsp, decide_False by done.
    by rewrite IH.
Qed.

(** ** [trim] on a line without blanks at its ends *)

Lemma rtrim_ws s :
  Forall (fun c => Phase1.is_ws c = true) (list_ascii_of_string s) ->
  Phase1.rtrim s = EmptyString.
Proof.
  induction s as [|c s IH]; [done|]. cbn [list_ascii_of_string Phase1.rtrim].
  intros [Hc Hs]%Forall_cons. by rewrite IH, Hc.
Qed.

Lemma rtrim_app r post :
  match last (list_ascii_of_string r) with
  | Some c => Phase1.is_ws c = false
  | None => True
  end ->
  Forall (fun c => Phase1.is_ws c = true) (list_ascii_of_string post) ->
  Phase1.rtrim (r +:+ post) = r.
Proof.
  intros Hlast Hpost. induction r as [|c r IH]; [by apply rtrim_ws|].
  rewrite append_cons. cbn [Phase1.rtrim]. destruct r as [|d r].
  - rewrite append_nil_l, rtrim_ws by done. cbn in Hlast. by rewrite Hlast.
  - cbn [list_ascii_of_string] in Hlast, IH. rewrite last_cons_cons in Hlast.
    by rewrite IH.
Qed.

Lemma trim_clean s post :
  match list_ascii_of_string s with
  | c :: _ => Phase1.is_ws c = false
  | [] => True
  end ->
  match last (list_ascii_of_string s) with
  | Some c => Phase1.is_ws c = false
  | None => True
  end ->
  Forall (fun c => Phase1.is_ws c = true) (list_ascii_of_string post) ->
  Phase1.trim (s +:+ post) = s.
Proof.
  intros Hhead Hlast Hpost. unfold Phase1.trim. destruct s as [|c r].
  - rewrite append_nil_l.
    destruct (ltrim_split post) as (pre & Hsplit & _).
    destruct (Phase1.ltrim post) as [|d rest] eqn:Hl; [done|].
    apply ltrim_head in Hl.
    assert (Hin : d ∈ list_ascii_of_string post).
    { rewrite Hsplit, chars_app. apply elem_of_app. right. apply list_elem_of_here. }
    rewrite Forall_forall in Hpost. apply Hpost in Hin. congruence.
  - cbn [list_ascii_of_string] in Hhead, Hlast.
    rewrite append_cons. cbn [Phase1.ltrim]. rewrite Hhead.
    rewrite rtrim_app; [done| |done].
    destruct r as [|d r]; [done|]. cbn [list_ascii_of_string] in *.
    by rewrite last_cons_cons in Hlast.
Qed.

Lemma chars_concat_cons t t' toks :
  list_ascii_of_string (String.concat " " (t :: t' :: toks)) =
    list_ascii_of_string t ++ " "%char :: list_ascii_of_string (String.concat " " (t' :: toks)).
Proof.
  change (String.concat " " (t :: t' :: toks))
    with (t +:+ String " " (String.concat " " (t' :: toks))).
  by rewrite chars_app.
Qed.

Lemma concat_ends (P : ascii -> Prop) toks :
  Forall (fun t => t <> EmptyString /\ Forall P (list_ascii_of_string t)) toks ->
  match list_ascii_of_string (String.concat " " toks) with
  | c :: _ => P c
  | [] => True
  end /\
  match last (list_ascii_of_string (String.concat " " toks)) with
  | Some c => P c
  | None => True
  end.
Proof.
  induction 1 as [|t toks [Hne Ht] Htoks [_ IH]]; [done|].
  assert (Hhead : match list_ascii_of_string t with c :: _ => P c | [] => True end).
  { destruct Ht; [done|]. done. }
  assert (Hlast : match last (list_ascii_of_string t) with
                  | Some c => P c | None => True end).
  { destruct (last (list_ascii_of_string t)) as [c|] eqn:Hl; [|done].
    apply last_Some in Hl as [l' Hl]. rewrite Hl in Ht.
    apply Forall_app in Ht as [_ Hc]. by apply Forall_cons in Hc as [? _]. }
  destruct toks as [|t' toks]; [done|].
  rewrite chars_concat_cons. split.
  - destruct t as [|c t]; [done|]. exact Hhead.
  - rewrite last_app_cons, last_cons.
    destruct (last (list_ascii_of_string (String.concat " " (t' :: toks)))) as [c|] eqn:Hl.
    + exact IH.
    + apply Forall_cons in Htoks as [[Hne' _] _].
      apply last_None in Hl. destruct t' as [|a t']; [done|].
      destruct toks; [done|]. by rewrite chars_concat_cons in Hl.
Qed.

(** ** [split_line] *)

Lemma delim_is_ws c : Phase1.is_delim c = true -> Phase1.is_ws c = true.
Proof.
  unfold Phase1.is_delim, Phase1.is_ws.
  destruct (_ =? 32), (_ =? 9), (_ =? 10); done.
Qed.

Lemma not_ws_not_delim c : Phase1.is_ws c = false -> Phase1.is_delim c = false.
Proof.
  intros Hws. destruct (Phase1.is_delim c) eqn:Hd; [|done].
  apply delim_is_ws in Hd. congruence.
Qed.

Lemma split_line_words line max_args :
  Forall (fun t => t <> EmptyString /\
                   Forall (fun c => Phase1.is_delim c = false) (list_ascii_of_string t))
         (Phase1.split_line line max_args).
Proof. apply Forall_take, tokenize_tokens. constructor. Qed.

(** X1. Whatever the line, [trim] removes a run of blanks at each end
    and nothing else: the line is blanks, then the result, then
    blanks, and the result neither starts nor ends with a blank. *)
Theorem trim_strips_both_ends s :
  exists pre post,
    s = pre +:+ Phase1.trim s +:+ post /\
    Forall (fun c => Phase1.is_ws c = true) (list_ascii_of_string pre) /\
    Forall (fun c => Phase1.is_ws c = true) (list_ascii_of_string post) /\
    match list_ascii_of_string (Phase1.trim s) with
    | c :: _ => Phase1.is_ws c = false
    | [] => True
    end /\
    match last (list_ascii_of_string (Phase1.trim s)) with
    | Some c => Phase1.is_ws c = false
    | None => True
    end.
Proof. exact (trim_spec s). Qed.

(** X2. Every token [split_line] returns is a non-empty word without
    a delimiter in it, and there are at most [max_args - 1] of them. *)
Theorem split_line_tokens line max_args :
  Forall (fun t => t <> EmptyString /\
                   Forall (fun c => Phase1.is_delim c = false) (list_ascii_of_string t))
         (Phase1.split_line line max_args) /\
  (length (Phase1.split_line line max_args) <= Z.to_nat (max_args - 1))%nat.
Proof.
  split; [apply split_line_words|].
  unfold Phase1.split_line. rewrite length_take. lia.
Qed.

Lemma split_trim_join toks :
  Forall (fun t => t <> EmptyString /\
                   Forall (fun c => Phase1.is_ws c = false) (list_ascii_of_string t)) toks ->
  (length toks <= 255)%nat ->
  Phase1.split_line (Phase1.trim (String.concat " " toks +:+ "
")) Phase1.MAX_ARGS = toks.
Proof.
  intros Htoks Hlen.
  destruct (concat_ends (fun c => Phase1.is_ws c = false) toks Htoks) as [Hhead Hlast].
  rewrite trim_clean by (done || by repeat constructor).
  unfold Phase1.split_line.
  rewrite <- (append_empty (String.concat " " toks)), tokenize_join.
  - apply take_ge. change (Z.to_nat (Phase1.MAX_ARGS - 1)) with 255%nat. lia.
  - done.
  - eapply Forall_impl; [exact Htoks|]. intros t [Hne Ht]. split; [done|].
    eapply Forall_impl; [exact Ht|]. apply not_ws_not_delim.
  - constructor.
Qed.

(** X3. A line of at most 255 words, none of them with a blank in it,
    separated by single spaces and ended by a newline, is split by
    [trim] and [split_line] into exactly these words. *)
Theorem split_line_of_words toks :
  Forall (fun t => t <> EmptyString /\
                   Forall (fun c => Phase1.is_ws c = false) (list_ascii_of_string t)) toks ->
  (length toks <= 255)%nat ->
  Phase1.split_line (Phase1.trim (String.concat " " toks +:+ "
")) Phase1.MAX_ARGS = toks.
Proof. apply split_trim_join. Qed.

Lemma split_line_of_words_witness :
  Phase1.split_line (Phase1.trim (String.concat " " ["ls"; "-l"; "/tmp"] +:+ "
")) Phase1.MAX_ARGS = ["ls"; "-l"; "/tmp"].
Proof.
  apply split_line_of_words; [|cbn; lia].
  repeat constructor; done.
Defined.

(** X4. A line is either all blanks, and then the command loops of
    the first two phases go on to the next prompt without any effect,
    or it has a first word: the test [argc == 0] after [split_line]
    never holds. *)
Theorem line_blank_or_words linebuf :
  (Forall (fun c => Phase1.is_ws c = true) (list_ascii_of_string linebuf) /\
   Phase1.main_step linebuf = Phase1.Continue /\
   forall w, Phase2.main_step linebuf w = Ret tt w)
  \/
  (exists a0 rest,
     Phase1.split_line (Phase1.trim linebuf) Phase1.MAX_ARGS = a0 :: rest /\
     a0 <> EmptyString /\
     Phase1.main_step linebuf <> Phase1.Continue /\
     forall w, Phase2.main_step linebuf w = Phase2.run_tokens (a0 :: rest) w).
Proof.
  destruct (trim_spec linebuf) as (pre & post & Hsplit & Hpre & Hpost & Hhead & _).
  destruct (Phase1.trim linebuf) as [|c r] eqn:Htrim.
  - left. split; [|split].
    + rewrite Hsplit, append_nil_l, chars_app. by apply Forall_app.
    + unfold Phase1.main_step. by rewrite Htrim.
    + intros w. unfold Phase2.main_step, Phase2.trim. by rewrite Htrim.
  - right. cbn [list_ascii_of_string] in Hhead.
    assert (Hne : Phase1.split_line (String c r) Phase1.MAX_ARGS <> []).
    { unfold Phase1.split_line. cbn [tokenize].
      rewrite (not_ws_not_delim c Hhead), append_nil_l.
      pose proof (tokenize_nonempty Phase1.is_delim r (String c EmptyString)) as Hn.
      destruct (tokenize _ _ _); [by destruct Hn|done]. }
    destruct (Phase1.split_line (String c r) Phase1.MAX_ARGS) as [|a0 rest] eqn:Hs; [done|].
    exists a0, rest. split; [done|].
    pose proof (split_line_words (String c r) Phase1.MAX_ARGS) as Htok.
    rewrite Hs in Htok. apply Forall_cons in Htok as [[Ha0 _] _].
    split; [done|]. split.
    + unfold Phase1.main_step. rewrite Htrim, Hs.
      rewrite bool_decide_eq_false_2 by done. by destruct (streq a0 "exit").
    + intros w. unfold Phase2.main_step, Phase2.trim, Phase2.split_line.
      rewrite Htrim. change Phase2.MAX_ARGS with Phase1.MAX_ARGS. rewrite Hs.
      by rewrite !bool_decide_eq_false_2.
Qed.

(** ** [atoi] on what [printf("%d")] prints *)

Lemma atoi_digits_acc d acc :
  atoi_digits (DecimalString.NilEmpty.string_of_uint d) (Z.pos acc)
    = Z.pos (Pos.of_uint_acc d acc).
Proof.
  revert acc. induction d; intros acc; cbn [DecimalString.NilEmpty.string_of_uint
    Pos.of_uint_acc atoi_digits]; [done|..];
    (match goal with
     | |- context [digit_val ?c] =>
         change (digit_val c) with (Some (Z.of_N (N_of_ascii c) - 48))
     end; cbn [N_of_ascii N_of_digits Z.of_N N.add N.mul];
     rewrite <- IHd; f_equal; lia).
Qed.

Lemma atoi_digits_uint d :
  atoi_digits (DecimalString.NilEmpty.string_of_uint d) 0 = Z.of_N (Pos.of_uint d).
Proof.
  induction d; cbn [DecimalString.NilEmpty.string_of_uint Pos.of_uint atoi_digits];
    [done|..];
    (match goal with
     | |- context [digit_val ?c] =>
         change (digit_val c) with (Some (Z.of_N (N_of_ascii c) - 48))
     end; cbn [N_of_ascii N_of_digits Z.of_N N.add N.mul]);
    [exact IHd|..]; cbn [Z.of_N]; rewrite <- atoi_digits_acc; f_equal.
Qed.

Lemma digits_not_ws d :
  Forall (fun c => Phase1.is_ws c = false /\ isspace c = false /\ c <> "-"%char /\ c <> "+"%char)
         (list_ascii_of_string (DecimalString.NilEmpty.string_of_uint d)).
Proof.
  induction d; cbn [DecimalString.NilEmpty.string_of_uint list_ascii_of_string];
    constructor; done.
Qed.

Lemma decimal_value_unsigned s :
  match s with
  | String c _ => isspace c = false /\ c <> "-"%char /\ c <> "+"%char
  | EmptyString => True
  end ->
  decimal_value s = atoi_digits s 0.
Proof.
  destruct s as [|c s]; [done|]. intros (Hsp & Hm & Hp).
  unfold decimal_value. cbn [skip_space]. rewrite Hsp.
  destruct c as [[] [] [] [] [] [] [] []]; done.
Qed.

Lemma string_of_uint_pos p :
  DecimalString.NilZero.string_of_uint (Pos.to_uint p)
    = DecimalString.NilEmpty.string_of_uint (Pos.to_uint p)
  /\ DecimalString.NilEmpty.string_of_uint (Pos.to_uint p) <> EmptyString.
Proof.
  pose proof (Unsigned.of_to p) as H.
  destruct (Pos.to_uint p); done.
Qed.

Lemma decimal_value_dec n : decimal_value (dec n) = n.
Proof.
  unfold dec. destruct n as [|p|p]; [done|..]; cbn [Z.to_int DecimalString.NilZero.string_of_int];
    destruct (string_of_uint_pos p) as [-> Hne].
  - rewrite decimal_value_unsigned, atoi_digits_uint, Unsigned.of_to; [done|].
    pose proof (digits_not_ws (Pos.to_uint p)) as Hd.
    destruct (DecimalString.NilEmpty.string_of_uint (Pos.to_uint p)); [done|].
    cbn [list_ascii_of_string] in Hd. apply Forall_cons in Hd as [(_ & ? & ? & ?) _]. done.
  - unfold decimal_value. cbn [skip_space]. change (isspace "-") with false. cbn iota.
    by rewrite atoi_digits_uint, Unsigned.of_to.
Qed.

Lemma to_int_small n : - 2147483648 <= n <= 2147483647 -> to_int n = n.
Proof. intros Hn. unfold to_int. rewrite Z.mod_small; lia. Qed.

(** [atoi] reads back what [%d] prints for an [int]. *)
Lemma atoi_dec n : - 2147483648 <= n <= 2147483647 -> atoi (dec n) = n.
Proof.
  intros Hn. unfold atoi, strtol, LONG_MIN, LONG_MAX.
  rewrite decimal_value_dec, Z.min_l, Z.max_r by lia. by apply to_int_small.
Qed.

Lemma dec_word n :
  dec n <> EmptyString /\
  Forall (fun c => Phase1.is_ws c = false) (list_ascii_of_string (dec n)).
Proof.
  assert (Hd : forall d, Forall (fun c => Phase1.is_ws c = false)
                 (list_ascii_of_string (DecimalString.NilEmpty.string_of_uint d))).
  { intros d. eapply Forall_impl; [apply digits_not_ws|]. by intros c (? & _). }
  unfold dec. destruct n as [|p|p]; [by repeat constructor|..];
    cbn [Z.to_int DecimalString.NilZero.string_of_int];
    destruct (string_of_uint_pos p) as [-> Hne]; [done|].
  split; [done|]. cbn [list_ascii_of_string]. by constructor.
Qed.

(** X5. [exit] followed by a number in the range of [int], and by
    whatever other words, ends the command loops of the first two
    phases with that number as the status, after the farewell line. *)
Theorem exit_returns_its_argument n rest :
  - 2147483648 <= n <= 2147483647 ->
  Forall (fun t => t <> EmptyString /\
                   Forall (fun c => Phase1.is_ws c = false) (list_ascii_of_string t)) rest ->
  (length rest <= 253)%nat ->
  let line := String.concat " " ("exit" :: dec n :: rest) +:+ "
" in
  let bye := "Exiting (exit " +:+ dec n +:+ ")
" in
  Phase1.main_step line = Phase1.Return n bye /\
  forall w, Phase2.main_step line w = Exit n (Phase2.emit (Phase2.EvStdout bye) w).
Proof.
  intros Hn Hrest Hlen line bye.
  assert (Hsplit : Phase1.split_line (Phase1.trim line) Phase1.MAX_ARGS
                   = "exit" :: dec n :: rest).
  { apply split_trim_join; [|cbn [length]; lia].
    constructor; [by repeat constructor|]. constructor; [apply dec_word|done]. }
  assert (Hne : Phase1.trim line <> EmptyString).
  { intros He. by rewrite He in Hsplit. }
  split.
  - unfold Phase1.main_step. cbv zeta.
    rewrite Hsplit, bool_decide_eq_false_2 by done.
    cbn [lookup list_lookup]. unfold streq. rewrite bool_decide_eq_true_2 by done.
    by rewrite atoi_dec.
  - intros w. unfold Phase2.main_step, Phase2.trim, Phase2.split_line. cbv zeta.
    change Phase2.MAX_ARGS with Phase1.MAX_ARGS.
    rewrite Hsplit, !bool_decide_eq_false_2 by done.
    unfold Phase2.run_tokens. cbn [head default from_option id lookup list_lookup].
    unfold streq. rewrite bool_decide_eq_true_2 by done.
    by rewrite atoi_dec.
Qed.

Lemma exit_returns_its_argument_witness :
  Phase1.main_step "exit -7 now
" = Phase1.Return (-7) "Exiting (exit -7)
".
Proof.
  refine (proj1 (exit_returns_its_argument (-7) ["now"] _ _ _)).
  - lia.
  - by repeat constructor.
  - cbn; lia.
Defined.

(** ** The lines of the job-control shell *)

Lemma substring_short n s : (String.length s <= n)%nat -> String.substring 0 n s = s.
Proof.
  revert n. induction s as [|c s IH]; intros n Hn; [by destruct n|].
  destruct n as [|n]; cbn in Hn; [lia|]. cbn. rewrite IH; [done|lia].
Qed.

Lemma tokenize_skip (d : ascii -> bool) pre rest :
  Forall (fun c => d c = true) (list_ascii_of_string pre) ->
  tokenize d (pre +:+ rest) EmptyString = tokenize d rest EmptyString.
Proof.
  induction pre as [|c pre IH]; [done|]. cbn [list_ascii_of_string].
  intros [Hc Hpre]%Forall_cons. rewrite append_cons. cbn [tokenize].
  rewrite Hc. by apply IH.
Qed.

Lemma tokenize_line toks :
  Forall (fun t => t <> EmptyString /\
                   Forall (fun c => Phase3.is_blank c = false) (list_ascii_of_string t)) toks ->
  tokenize Phase3.is_blank (String.concat " " toks +:+ "
") EmptyString = toks.
Proof. intros Htoks. apply tokenize_join; [done|done|by repeat constructor]. Qed.

(** X6. A line of at most 126 words separated by single spaces is
    split by the job-control shell into these words.  A last word [&]
    is taken off and sets the background flag; without it the flag is
    not set. *)
Theorem split_line_background argv :
  Forall (fun t => t <> EmptyString /\
                   Forall (fun c => Phase3.is_blank c = false) (list_ascii_of_string t)) argv ->
  (length argv <= 126)%nat ->
  Phase3.split_line (String.concat " " (argv ++ ["&"]) +:+ "
") = (argv, true) /\
  (last argv <> Some "&" ->
   Phase3.split_line (String.concat " " argv +:+ "
") = (argv, false)).
Proof.
  intros Hargv Hlen. unfold Phase3.split_line.
  change (Z.to_nat (Phase3.MAXARGS - 1)) with 127%nat. split.
  - rewrite tokenize_line.
    2:{ apply Forall_app. split; [done|]. by repeat constructor. }
    rewrite take_ge by (rewrite length_app; cbn [length]; lia).
    rewrite last_snoc. unfold streq. rewrite bool_decide_eq_true_2 by done.
    by rewrite removelast_last.
  - intros Hlast. rewrite tokenize_line by done.
    rewrite take_ge by lia.
    destruct (last argv) as [a|]; [|done].
    unfold streq. rewrite bool_decide_eq_false_2; [done|]. by intros ->.
Qed.

Lemma split_line_background_witness :
  Phase3.split_line (String.concat " " (["sleep"; "100"] ++ ["&"]) +:+ "
") = (["sleep"; "100"], true) /\
  Phase3.split_line (String.concat " " ["sleep"; "100"] +:+ "
") = (["sleep"; "100"], false).
Proof.
  destruct (split_line_background ["sleep"; "100"]) as [Hbg Hfg].
  - by repeat constructor.
  - cbn; lia.
  - split; [exact Hbg|]. by apply Hfg.
Defined.

(** X7. A line as [fgets] returns it (at most [MAXLINE - 1]
    characters) with no word on it, or with the single word [&], is
    ignored by [eval]: the shell state is left as it is and no system
    call is made. *)
Theorem eval_without_words line pre post sh :
  (String.length line <= 1023)%nat ->
  Forall (fun c => Phase3.is_blank c = true) (list_ascii_of_string pre) ->
  Forall (fun c => Phase3.is_blank c = true) (list_ascii_of_string post) ->
  line = pre +:+ post \/ line = pre +:+ "&" +:+ post ->
  Phase3.eval line sh = Ret tt sh.
Proof.
  intros Hlen Hpre Hpost Hline. unfold Phase3.eval, snprintf_s.
  change (Z.to_nat (Phase3.MAXLINE - 1)) with 1023%nat.
  rewrite substring_short by done.
  assert (Hsplit : (Phase3.split_line line).1 = []).
  { unfold Phase3.split_line. destruct Hline as [-> | ->];
      rewrite tokenize_skip by done.
    - by rewrite tokenize_delims.
    - rewrite append_cons. cbn [tokenize]. change (Phase3.is_blank "&") with false.
      cbn iota. rewrite append_nil_l, tokenize_flush by done. done. }
  destruct (Phase3.split_line line) as [argv bg]. cbn in Hsplit. by subst argv.
Qed.

Lemma eval_without_words_witness :
  Phase3.eval "  &
" (Examples.fresh [] []) = Ret tt (Examples.fresh [] []).
Proof.
  apply (eval_without_words _ "  " "
"); [cbn; lia|by repeat constructor..|by right].
Defined.

End Lines.

(* ================================================================== *)
(** * The search for a program *)
(* ================================================================== *)

Section PathSearch.
Import Libc Control Wait Phase2.

Implicit Types (w : world) (command p dir : string).

Lemma path_dirs_words w :
  Forall (fun dir => dir <> EmptyString) (path_dirs w).
Proof.
  unfold path_dirs.
  eapply Forall_impl; [apply tokenize_tokens; constructor|]. by intros dir [? _].
Qed.

(** X8. [find_executable_in_path] answers with the name itself when
    it has a slash and is executable; for a name without a slash,
    with the first [dir/name] that is executable, [dir] running
    through the non-empty components of [PATH] in order; and with
    nothing otherwise, or when the name is empty.  The search of
    Phase 1 is the same for every non-empty name. *)
Theorem find_executable_first_match command w p :
  (Phase2.find_executable_in_path command w = Some p <->
     command <> EmptyString /\ executable w p = true /\
     if has_slash command then p = command
     else exists i dir,
         path_dirs w !! i = Some dir /\ dir <> EmptyString /\
         p = dir +:+ "/" +:+ command /\
         forall j dir', (j < i)%nat -> path_dirs w !! j = Some dir' ->
                        executable w (dir' +:+ "/" +:+ command) = false)
  /\ (command <> EmptyString ->
      Phase1Shell.find_executable_in_path command w
        = Phase2.find_executable_in_path command w).
Proof.
  split.
  2:{ intros Hne. unfold Phase1Shell.find_executable_in_path, find_executable_in_path.
      by rewrite bool_decide_eq_false_2. }
  unfold find_executable_in_path. case_bool_decide as Hempty.
  { split; [by intros [=]|]. by intros [? _]. }
  destruct (has_slash command).
  { destruct (executable w command) eqn:Hx.
    - split; [by intros [= <-]|]. by intros (_ & _ & ->).
    - split; [by intros [=]|]. intros (_ & Hp & ->). congruence. }
  destruct (list_find _ _) as [[i x]|] eqn:Hfind; cbn [fmap option_fmap option_map snd].
  - apply list_find_Some in Hfind as (Hi & Hx & Hbefore).
    apply list_lookup_fmap_Some in Hi as (dir & -> & Hdir).
    split.
    + intros [= <-]. split; [done|]. split; [done|].
      exists i, dir. split; [done|]. split.
      { pose proof (path_dirs_words w) as Hw. rewrite Forall_lookup in Hw. by eapply Hw. }
      split; [done|]. intros j dir' Hj Hdir'.
      specialize (Hbefore j (dir' +:+ "/" +:+ command)).
      rewrite list_lookup_fmap, Hdir' in Hbefore. specialize (Hbefore eq_refl Hj).
      destruct (executable w (dir' +:+ "/" +:+ command)); [by destruct Hbefore|done].
    + intros (_ & Hp & i' & dir' & Hdir' & _ & -> & Hfirst). f_equal.
      destruct (Nat.lt_trichotomy i i') as [Hlt|[->|Hgt]].
      * specialize (Hfirst i dir Hlt Hdir). congruence.
      * congruence.
      * specialize (Hbefore i' (dir' +:+ "/" +:+ command)).
        rewrite list_lookup_fmap, Hdir' in Hbefore. by destruct (Hbefore eq_refl Hgt).
  - split; [by intros [=]|]. intros (_ & Hp & i & dir & Hdir & _ & -> & _).
    rewrite list_find_None, Forall_forall in Hfind.
    destruct (Hfind (dir +:+ "/" +:+ command)); [|done].
    apply list_elem_of_fmap. exists dir. split; [done|]. by eapply list_elem_of_lookup_2.
Qed.

End PathSearch.

(* ================================================================== *)
(** * How a pipeline and the command loop of Phase 2 can end *)
(* ================================================================== *)

Section Outcomes.
Import Libc Control Wait Fcntl Phase2 Phase2Shell Stdio.

Implicit Types (w : world) (pl : Pipeline) (pipes : list (Z * Z)).

Lemma bind_get_world {A} (k : world -> M world A) w : bind get k w = k w w.
Proof. done. Qed.

Lemma same_env_refl w : same_env w w.
Proof. by repeat split. Qed.

Lemma same_env_trans w1 w2 w3 : same_env w1 w2 -> same_env w2 w3 -> same_env w1 w3.
Proof.
  intros (? & ? & ? & ? & ? & ?) (? & ? & ? & ? & ? & ?). repeat split; congruence.
Qed.

Lemma find_executable_env command w w' :
  same_env w w' ->
  find_executable_in_path command w' = find_executable_in_path command w.
Proof.
  intros (Hp & Hx & _). unfold find_executable_in_path, path_dirs.
  by rewrite Hp, Hx.
Qed.

Lemma wiring_ret : wiring (ret tt).
Proof. intros w. split; [done|apply same_env_refl]. Qed.

Lemma sys_dup2_cases old new w :
  exists r w',
    sys_dup2 old new w = Ret r w' /\ (r = new \/ r = -1) /\
    in_child w' = in_child w /\ same_env w w'.
Proof.
  unfold sys_dup2. destruct (fdt w !! old).
  - eexists _, _. split; [reflexivity|]. split; [by left|].
    by destruct (old =? new).
  - eexists _, _. split; [reflexivity|]. split; [by right|]. done.
Qed.

Lemma wiring_stdin pipes i : wiring (wire_stdin pipes i).
Proof.
  intros w. unfold wire_stdin. destruct (0 <? Z.of_nat i); [|apply wiring_ret].
  destruct (sys_dup2_cases (pipe_read pipes (i - 1)) (Z.of_nat STDIN_FILENO) w)
    as (r & w' & Hrun & Hr & Hc & Henv).
  rewrite (bind_Ret_world _ _ _ _ _ Hrun). by destruct Hr as [-> | ->].
Qed.

Lemma wiring_stdout pl pipes i : wiring (wire_stdout pl pipes i).
Proof.
  intros w. unfold wire_stdout. destruct (Z.of_nat i <? n_cmds pl - 1); [|apply wiring_ret].
  destruct (sys_dup2_cases (pipe_write pipes i) (Z.of_nat STDOUT_FILENO) w)
    as (r & w' & Hrun & Hr & Hc & Henv).
  rewrite (bind_Ret_world _ _ _ _ _ Hrun). by destruct Hr as [-> | ->].
Qed.

Lemma sys_open_env path flags mode w :
  exists fd w', sys_open path flags mode w = Ret fd w' /\
    in_child w' = in_child w /\ same_env w w'.
Proof.
  unfold sys_open. destruct (bool_decide _); [by eexists _, _|].
  destruct (lowest_free _ _); [|by eexists _, _].
  destruct (fs w !! path); [by eexists _, _|].
  destruct (has_flag flags O_CREAT); by eexists _, _.
Qed.

Lemma wiring_redirect pl i : wiring (redirect_output pl i).
Proof.
  intros w. unfold redirect_output.
  destruct (outfile pl) as [file|]; [|apply wiring_ret].
  destruct (Z.of_nat i =? n_cmds pl - 1); [|apply wiring_ret].
  destruct (sys_open_env file (redirect_flags (append pl)) 438 w)
    as (fd & w1 & Hopen & Hc & Henv).
  rewrite (bind_Ret_world _ _ _ _ _ Hopen).
  destruct (fd <? 0); [done|].
  destruct (sys_dup2_cases fd (Z.of_nat STDOUT_FILENO) w1)
    as (r & w2 & Hrun & Hr & Hc2 & Henv2).
  rewrite (bind_Ret_world _ _ _ _ _ Hrun).
  change (Z.of_nat STDOUT_FILENO) with 1 in *.
  destruct Hr as [-> | ->]; cbn.
  - split; [congruence|]. eapply same_env_trans; [exact Henv|].
    eapply same_env_trans; [exact Henv2|]. by repeat split.
  - split; [done|congruence].
Qed.

Lemma wiring_close_pipes pipes : wiring (close_pipes pipes).
Proof. intros w. rewrite close_pipes_run. split; [done|by repeat split]. Qed.

(** The child of stage [i] ends in its program or in [_exit]. *)
Lemma child_stage_outcomes pl pipes i w :
  match child_stage pl pipes i w with
  | Exit c w' => in_child w' = in_child w /\ (c = 1 \/ c = 127)
  | Exec prog argv w' =>
      in_child w' = in_child w /\
      argv = default [] (cmds pl !! i) /\
      find_executable_in_path (default EmptyString (head argv)) w = Some prog /\
      execve_ok w prog = true
  | _ => False
  end.
Proof.
  unfold child_stage.
  pose proof (wiring_stdin pipes i w) as H1. unfold bind at 1.
  destruct (wire_stdin pipes i w) as [[] w1|c w1| |]; try done.
  2:{ destruct H1 as [-> ?]. split; [done|by left]. }
  destruct H1 as [Hc1 He1].
  pose proof (wiring_stdout pl pipes i w1) as H2. unfold bind at 1.
  destruct (wire_stdout pl pipes i w1) as [[] w2|c w2| |]; try done.
  2:{ destruct H2 as [-> ?]. split; [congruence|by left]. }
  destruct H2 as [Hc2 He2].
  pose proof (wiring_redirect pl i w2) as H3. unfold bind at 1.
  destruct (redirect_output pl i w2) as [[] w3|c w3| |]; try done.
  2:{ destruct H3 as [-> ?]. split; [congruence|by left]. }
  destruct H3 as [Hc3 He3].
  pose proof (wiring_close_pipes pipes w3) as H4. unfold bind at 1.
  destruct (close_pipes pipes w3) as [[] w4|c w4| |]; try done.
  2:{ destruct H4 as [-> ?]. split; [congruence|by left]. }
  destruct H4 as [Hc4 He4].
  assert (Henv : same_env w w4) by eauto using same_env_trans.
  unfold load_program. rewrite bind_get_world.
  rewrite (find_executable_env _ w w4 Henv).
  destruct (find_executable_in_path _ w) as [prog|] eqn:Hfind.
  - destruct Henv as (_ & _ & Hx & _). rewrite Hx.
    destruct (execve_ok w prog) eqn:Hok; cbn.
    + split; [congruence|]. done.
    + split; [congruence|by right].
  - cbn. split; [congruence|by right].
Qed.

Lemma fork_loop_outcomes pl pipes todo w :
  in_child w = None ->
  match fork_loop pl pipes todo w with
  | Ret _ w' => in_child w' = None /\ same_env w w'
  | Exit c w' => exists j, j ∈ todo /\ in_child w' = Some j /\ (c = 1 \/ c = 127)
  | Exec prog argv w' =>
      exists j, j ∈ todo /\ in_child w' = Some j /\
        argv = default [] (cmds pl !! j) /\
        find_executable_in_path (default EmptyString (head argv)) w = Some prog /\
        execve_ok w prog = true
  | Hang _ => False
  end.
Proof.
  revert w. induction todo as [|i todo IH]; intros w Hshell.
  { cbn. split; [done|apply same_env_refl]. }
  cbn [fork_loop]. unfold bind at 1, sys_fork.
  destruct (fork_results w) as [|p rest] eqn:Hres.
  { cbn. split; [done|by repeat split]. }
  destruct (p <? 0) eqn:Hneg.
  { rewrite (proj2 (Z.eqb_neq p 0)) by lia. cbn. split; [done|by repeat split]. }
  destruct (p =? 0) eqn:Hzero.
  - set (wc := set_in_child _ _).
    pose proof (child_stage_outcomes pl pipes i wc) as Hc.
    assert (Henv : same_env w wc) by (by repeat split).
    destruct (child_stage pl pipes i wc) as [|c w'|prog argv w'|]; try done.
    + exists i. split; [apply list_elem_of_here|]. by destruct Hc as [-> ?].
    + destruct Hc as (-> & -> & Hfind & Hok).
      exists i. split; [apply list_elem_of_here|]. split; [done|]. split; [done|].
      rewrite (find_executable_env _ _ _ Henv) in Hfind.
      destruct Henv as (_ & _ & Hx & _). by rewrite <- Hx.
  - set (w1 := emit _ _).
    assert (Henv : same_env w w1) by (by repeat split).
    specialize (IH w1 Hshell).
    destruct (fork_loop pl pipes todo w1) as [[] w'|c w'|prog argv w'|]; try done.
    + destruct IH as (j & Hj & ?). exists j. split; [by apply list_elem_of_further|done].
    + destruct IH as (j & Hj & ? & ? & Hfind & Hok).
      exists j. split; [by apply list_elem_of_further|]. split; [done|]. split; [done|].
      rewrite (find_executable_env _ _ _ Henv) in Hfind.
      destruct Henv as (_ & _ & Hx & _). by rewrite <- Hx.
Qed.

Lemma create_pipes_env k acc w :
  in_child (final (create_pipes k acc w)) = in_child w /\
  same_env w (final (create_pipes k acc w)) /\
  exists r, create_pipes k acc w = Ret r (final (create_pipes k acc w)).
Proof.
  revert acc w. induction k as [|k IH]; intros acc w.
  { cbn. split; [done|]. split; [apply same_env_refl|by eexists]. }
  cbn [create_pipes].
  destruct (sys_pipe_cases w) as [Hp|(r & wr & _ & _ & _ & Hp)];
    rewrite (bind_Ret_world _ _ _ _ _ Hp).
  { cbn. split; [done|]. split; [by repeat split|by eexists]. }
  set (w1 := with_proc _ _ _ w).
  destruct (IH (acc ++ [(r, wr)]) w1) as (Hc & Henv & Hret).
  split; [by rewrite Hc|]. split; [|done].
  eapply same_env_trans; [|exact Henv]. by repeat split.
Qed.

(** X9. Whatever the pipeline and whatever the system calls answer,
    [execute_pipeline] started in the shell comes back to the command
    loop in the shell, and never in a child: the child of a stage
    ends in [execve] of the program found for the first word of the
    stage, with the words of the stage as its arguments, or in
    [_exit] with status 1 (its wiring failed) or 127 (no program). *)
Theorem execute_pipeline_outcomes pl w :
  in_child w = None ->
  match execute_pipeline pl w with
  | Ret _ w' => in_child w' = None
  | Exit c w' => exists j, in_child w' = Some j /\ (c = 1 \/ c = 127)
  | Exec prog argv w' =>
      exists j, in_child w' = Some j /\
        argv = default [] (cmds pl !! j) /\
        find_executable_in_path (default EmptyString (head argv)) w = Some prog /\
        execve_ok w prog = true
  | Hang _ => False
  end.
Proof.
  intros Hshell. unfold execute_pipeline.
  destruct (create_pipes_env (Z.to_nat (n_cmds pl - 1)) [] w) as (Hc & Henv & r & Hrun).
  rewrite (bind_Ret_world _ _ _ _ _ Hrun).
  set (w1 := final _) in *. clearbody w1.
  destruct r as [pipes|]; [|cbn; congruence].
  assert (Hshell1 : in_child w1 = None) by congruence.
  pose proof (fork_loop_outcomes pl pipes (seq 0 (Z.to_nat (n_cmds pl))) w1 Hshell1) as Hloop.
  unfold bind at 1.
  destruct (fork_loop pl pipes _ w1) as [[] w2|c w2|prog argv w2|]; try done.
  - destruct Hloop as [Hshell2 _].
    rewrite (bind_Ret_world _ _ _ _ _ (close_pipes_run pipes w2)).
    rewrite bind_get_world.
    match goal with
    | |- context [wait_all ?rs ?w3] =>
        destruct (wait_all_run rs w3) as (evs & -> & _)
    end.
    done.
  - destruct Hloop as (j & _ & ?). by exists j.
  - destruct Hloop as (j & _ & ? & ? & Hfind & Hok). exists j.
    split; [done|]. split; [done|].
    rewrite (find_executable_env _ _ _ Henv) in Hfind.
    destruct Henv as (_ & _ & Hx & _). by rewrite <- Hx.
Qed.

Lemma execute_pipeline_outcomes_witness :
  let w := PipelineExamples.shell_world [101; 0] ∅ in
  let pl := PipelineExamples.pipeline_of ["ls"; "-l"; "|"; "wc"] in
  in_child w = None /\
  exists w', execute_pipeline pl w = Exec "/bin/wc" ["wc"] w' /\ in_child w' = Some 1%nat.
Proof.
  intros w pl. split; [reflexivity|].
  pose proof (execute_pipeline_outcomes pl w eq_refl) as H.
  destruct (execute_pipeline pl w) as [| |prog argv w'|] eqn:Hrun;
    try (vm_compute in Hrun; discriminate Hrun).
  destruct H as (j & Hj & Hargv & Hfind & _).
  vm_compute in Hrun. injection Hrun as <- <- <-.
  eexists. split; reflexivity.
Defined.

(** ** The shell at the prompt again *)

Lemma create_pipes_forks k acc w :
  fork_results (final (create_pipes k acc w)) = fork_results w.
Proof.
  revert acc w. induction k as [|k IH]; intros acc w; [done|].
  cbn [create_pipes].
  destruct (sys_pipe_cases w) as [Hp|(r & wr & _ & _ & _ & Hp)];
    rewrite (bind_Ret_world _ _ _ _ _ Hp); [done|].
  by rewrite IH.
Qed.

Lemma fork_loop_shell pl pipes todo w :
  shell_only w ->
  exists w', fork_loop pl pipes todo w = Ret tt w' /\ shell_only w'.
Proof.
  revert w. induction todo as [|i todo IH]; intros w [Hshell Hforks]; [by exists w|].
  cbn [fork_loop]. unfold bind at 1, sys_fork.
  destruct (fork_results w) as [|p rest] eqn:Hres.
  { cbn. eexists. split; [reflexivity|]. split; [done|]. cbn. by rewrite Hres. }
  apply Forall_cons in Hforks as [Hp Hrest].
  rewrite (proj2 (Z.eqb_neq p 0)) by done.
  destruct (p <? 0).
  { eexists. split; [reflexivity|]. by split. }
  apply IH. by split.
Qed.

Lemma execute_pipeline_shell pl w :
  shell_only w ->
  exists w', execute_pipeline pl w = Ret tt w' /\ shell_only w'.
Proof.
  intros [Hshell Hforks]. unfold execute_pipeline.
  destruct (create_pipes_env (Z.to_nat (n_cmds pl - 1)) [] w) as (Hc & _ & r & Hrun).
  pose proof (create_pipes_forks (Z.to_nat (n_cmds pl - 1)) [] w) as Hf.
  rewrite (bind_Ret_world _ _ _ _ _ Hrun).
  set (w1 := final _) in *. clearbody w1.
  assert (Hs1 : shell_only w1) by (split; congruence).
  destruct r as [pipes|]; [|by exists w1].
  destruct (fork_loop_shell pl pipes (seq 0 (Z.to_nat (n_cmds pl))) w1 Hs1)
    as (w2 & Hloop & Hs2).
  rewrite (bind_Ret_world _ _ _ _ _ Hloop).
  rewrite (bind_Ret_world _ _ _ _ _ (close_pipes_run pipes w2)).
  rewrite bind_get_world.
  match goal with
  | |- context [wait_all ?rs ?w3] =>
      destruct (wait_all_run rs w3) as (evs & -> & _)
  end.
  eexists. split; [reflexivity|]. exact Hs2.
Qed.

Lemma run_tokens_shell tokens w :
  shell_only w ->
  head tokens <> Some "exit" ->
  exists w', run_tokens tokens w = Ret tt w' /\ shell_only w'.
Proof.
  intros Hs Hexit. unfold run_tokens, streq.
  rewrite bool_decide_eq_false_2.
  2:{ destruct tokens as [|a0 ?]; [done|]. cbn in *. congruence. }
  destruct (parse_pipeline tokens) as [pl|[msg|]].
  - by apply execute_pipeline_shell.
  - by eexists.
  - by eexists.
Qed.

Lemma main_step_shell linebuf w :
  shell_only w ->
  head (split_line (trim linebuf) MAX_ARGS) <> Some "exit" ->
  exists w', main_step linebuf w = Ret tt w' /\ shell_only w'.
Proof.
  intros Hs Hexit. unfold main_step. case_bool_decide; [by exists w|].
  case_bool_decide; [by exists w|]. by apply run_tokens_shell.
Qed.

(** X10. Whatever lines are read, as long as none is an [exit]
    command, and whatever [pipe], [fork], [open] and [wait] answer in
    the shell, the command loop of Phase 2 takes every line and ends
    when the input does: [main] returns 0, after the farewell line at
    end of file, after [perror("fgets")] on a read error. *)
Theorem main_reaches_end_of_input lines e w :
  shell_only w ->
  Forall (fun linebuf => head (split_line (trim linebuf) MAX_ARGS) <> Some "exit") lines ->
  exists w',
    Phase2Shell.main lines e w = Exit 0 w' /\ shell_only w' /\
    last (trace w') = Some (match e with
                            | AtEof => EvStdout "
Exiting (EOF)
"
                            | ReadError => EvPerror "fgets"
                            end).
Proof.
  intros Hs Hlines. revert w Hs.
  induction Hlines as [|linebuf lines Hline _ IH]; intros w Hs.
  - cbn [Phase2Shell.main]. unfold bind, printf, perror, modify, exit.
    destruct e; (eexists; split; [reflexivity|]; split; [exact Hs|]);
      cbn [trace emit]; by rewrite last_snoc.
  - cbn [Phase2Shell.main]. unfold bind at 1. unfold printf at 1, modify at 1.
    destruct (main_step_shell linebuf (emit (EvStdout "tinyshell$ ") w) Hs Hline)
      as (w1 & Hstep & Hs1).
    rewrite (bind_Ret_world _ _ _ _ _ Hstep). by apply IH.
Qed.

Lemma main_reaches_end_of_input_witness :
  let w := PipelineExamples.shell_world [101; 102; -1] ∅ in
  exists w',
    Phase2Shell.main ["ls | wc
"; "
"; "| oops
"; "date
"] AtEof w = Exit 0 w' /\
    forked (trace w') = [(0%nat, 101); (1%nat, 102); (0%nat, -1)].
Proof.
  intros w.
  destruct (main_reaches_end_of_input ["ls | wc
"; "
"; "| oops
"; "date
"] AtEof w) as (w' & Hrun & _ & _).
  - split; [reflexivity|]. by repeat constructor.
  - repeat constructor; by vm_compute.
  - exists w'. split; [exact Hrun|].
    vm_compute in Hrun. injection Hrun as <-. reflexivity.
Defined.

End Outcomes.

(* ================================================================== *)
(** * The command loop of Phase 1 *)
(* ================================================================== *)

Section FirstShell.
Import Libc Control Wait Phase2 Phase2Shell Stdio.

Implicit Types (w : world) (argv : list string).

(** X11. A turn of the command loop of Phase 1 for a command that is
    not a builtin: the shell itself always goes on to the next
    prompt, and it has created no process when no program was found;
    the child it may have created never comes back to the loop: it
    ends in [execve] of the program found, with the words of the line
    as its arguments, or in [_exit(127)]. *)
Theorem launch_outcomes argv w :
  in_child w = None ->
  let argv0 := default EmptyString (head argv) in
  match Phase1Shell.launch argv w with
  | Ret _ w' =>
      in_child w' = None /\
      (Phase1Shell.find_executable_in_path argv0 w = None ->
       w' = emit (EvStderr ("tinyshell: command not found: " +:+ argv0 +:+ "
")) w)
  | Exit c w' => c = 127 /\ in_child w' = Some 0%nat
  | Exec prog a w' =>
      in_child w' = Some 0%nat /\ a = argv /\
      Phase1Shell.find_executable_in_path argv0 w = Some prog /\
      execve_ok w prog = true
  | Hang _ => False
  end.
Proof.
  intros Hshell argv0. unfold Phase1Shell.launch. fold argv0.
  rewrite bind_get_world.
  destruct (Phase1Shell.find_executable_in_path argv0 w) as [prog|]; [|done].
  unfold bind at 1, sys_fork.
  destruct (fork_results w) as [|p rest]; [done|].
  destruct (p <? 0) eqn:Hneg.
  { rewrite (proj2 (Z.eqb_neq p 0)) by lia. done. }
  destruct (p =? 0) eqn:Hzero.
  - rewrite bind_get_world. cbn [execve_ok set_in_child emit set_fork_results].
    destruct (execve_ok w prog) eqn:Hok; cbn; done.
  - unfold bind at 1, Phase1Shell.sys_waitpid.
    cbn [wait_results emit set_fork_results].
    destruct (wait_results w) as [|r rs]; [done|].
    destruct (r.1 =? -1) eqn:Hr; rewrite ?Hr; cbn; done.
Qed.

Lemma launch_outcomes_witness :
  let w := PipelineExamples.shell_world [0] ∅ in
  in_child w = None /\
  exists w', Phase1Shell.launch ["ls"; "-l"] w = Exec "/bin/ls" ["ls"; "-l"] w'.
Proof.
  intros w. split; [reflexivity|].
  pose proof (launch_outcomes ["ls"; "-l"] w eq_refl) as H.
  destruct (Phase1Shell.launch ["ls"; "-l"] w) as [| |prog a w'|] eqn:Hrun;
    try (vm_compute in Hrun; discriminate Hrun).
  vm_compute in Hrun. injection Hrun as <- <- <-. by eexists.
Defined.

Lemma launch_shell argv w :
  shell_only w ->
  exists w', Phase1Shell.launch argv w = Ret tt w' /\ shell_only w'.
Proof.
  intros [Hshell Hforks]. unfold Phase1Shell.launch. rewrite bind_get_world.
  destruct (Phase1Shell.find_executable_in_path _ w) as [prog|]; [|by eexists].
  unfold bind at 1, sys_fork.
  destruct (fork_results w) as [|p rest] eqn:Hres.
  { eexists. split; [reflexivity|]. split; [done|]. cbn. by rewrite Hres. }
  apply Forall_cons in Hforks as [Hp Hrest].
  rewrite (proj2 (Z.eqb_neq p 0)) by done.
  destruct (p <? 0); [by eexists|].
  unfold bind at 1, Phase1Shell.sys_waitpid. cbn [wait_results emit set_fork_results].
  destruct (wait_results w) as [|r rs]; [by eexists|].
  destruct (r.1 =? -1) eqn:Hr; rewrite ?Hr; by eexists.
Qed.

(** X12. Whatever lines are read, as long as none is an [exit]
    command, and whatever [fork] and [waitpid] answer in the shell,
    the command loop of Phase 1 takes every line and ends when the
    input does: [main] returns 0, after the farewell line at end of
    file, after [perror("fgets")] on a read error. *)
Theorem first_main_reaches_end_of_input lines e w :
  shell_only w ->
  Forall (fun linebuf =>
            head (Phase1.split_line (Phase1.trim linebuf) Phase1.MAX_ARGS) <> Some "exit")
         lines ->
  exists w',
    Phase1Shell.main lines e w = Exit 0 w' /\ shell_only w' /\
    last (trace w') = Some (match e with
                            | AtEof => EvStdout "
Exiting (EOF)
"
                            | ReadError => EvPerror "fgets"
                            end).
Proof.
  intros Hs Hlines. revert w Hs.
  induction Hlines as [|linebuf lines Hline _ IH]; intros w Hs.
  - cbn [Phase1Shell.main]. unfold bind, printf, perror, modify, exit.
    destruct e; (eexists; split; [reflexivity|]; split; [exact Hs|]);
      cbn [trace emit]; by rewrite last_snoc.
  - cbn [Phase1Shell.main]. unfold bind at 1. unfold printf at 1, modify at 1.
    set (w0 := emit _ w).
    assert (Hstep : exists w1, Phase1Shell.main_step linebuf w0 = Ret tt w1 /\ shell_only w1).
    { unfold Phase1Shell.main_step, Phase1.main_step in *. cbv zeta in *.
      case_bool_decide; [by exists w0|].
      destruct (Phase1.split_line _ _) as [|a0 args]; [by exists w0|].
      unfold streq. rewrite bool_decide_eq_false_2 by (cbn in Hline; congruence).
      by apply launch_shell. }
    destruct Hstep as (w1 & Hstep & Hs1).
    rewrite (bind_Ret_world _ _ _ _ _ Hstep). by apply IH.
Qed.

Lemma first_main_reaches_end_of_input_witness :
  let w := PipelineExamples.shell_world [101] ∅ in
  exists w',
    Phase1Shell.main ["ls -l
"; "
"] ReadError w = Exit 0 w' /\
    forked (trace w') = [(0%nat, 101)].
Proof.
  intros w.
  destruct (first_main_reaches_end_of_input ["ls -l
"; "
"] ReadError w) as (w' & Hrun & _ & _).
  - split; [reflexivity|]. by repeat constructor.
  - repeat constructor; by vm_compute.
  - exists w'. split; [exact Hrun|].
    vm_compute in Hrun. injection Hrun as <-. reflexivity.
Defined.

End FirstShell.

(* ================================================================== *)
(** * The failure paths of [execute_pipeline] *)
(* ================================================================== *)

Section Failures.
Import Libc Control Wait Fcntl Phase2 Phase2Shell Stdio.

Implicit Types (w : world) (pl : Pipeline) (pipes : list (Z * Z)).

Lemma wait_all_good good rest w :
  Forall (fun r => 0 < r.1) good ->
  match rest with [] => True | bad :: _ => bad.1 <= 0 end ->
  wait_all (good ++ rest) w =
    Ret tt (set_wait_results (tail rest)
              (with_proc (fdt w) (next_pipe w)
                         (trace w ++ flat_map (wait_events w) good) w)).
Proof.
  intros Hgood Hrest. revert w.
  induction Hgood as [|r good Hr _ IH]; intros w.
  - cbn [app flat_map]. rewrite app_nil_r.
    destruct rest as [|bad more]; cbn [wait_all tail].
    + by destruct w.
    + rewrite (proj2 (Z.ltb_ge _ _)) by lia. by destruct w.
  - cbn [app wait_all flat_map]. rewrite (proj2 (Z.ltb_lt _ _)) by lia.
    unfold bind at 1. unfold modify at 1.
    unfold bind at 1. unfold bind at 1. unfold get at 1. unfold printf at 1, modify at 1.
    rewrite IH. cbn [fdt next_pipe trace emit with_proc set_wait_results].
    by rewrite <- !app_assoc.
Qed.

(** X13. The wait loop at the end of [execute_pipeline] prints one
    status line for every child [wait] reports, in the order of the
    reports, and stops at the first call of [wait] that does not
    return a process id; it changes nothing else. *)
Theorem wait_all_reports good rest w :
  Forall (fun r => 0 < r.1) good ->
  match rest with [] => True | bad :: _ => bad.1 <= 0 end ->
  exists w',
    wait_all (good ++ rest) w = Ret tt w' /\
    trace w' = trace w ++ flat_map (wait_events w) good /\
    wait_results w' = tail rest /\
    fdt w' = fdt w /\ fs w' = fs w /\ fork_results w' = fork_results w /\
    in_child w' = in_child w.
Proof.
  intros Hgood Hrest. rewrite (wait_all_good good rest w Hgood Hrest).
  eexists. split; [reflexivity|]. done.
Qed.

Lemma wait_all_reports_witness :
  let w := PipelineExamples.shell_world [] ∅ in
  exists w',
    wait_all ([(102, WExited 0); (101, WSignaled 13)] ++ [(-1, WExited 0)]) w = Ret tt w' /\
    trace w' = [EvWait 102 (WExited 0); EvStdout "[pid 102] exited with code 0
"; EvWait 101 (WSignaled 13); EvStdout "[pid 101] killed by signal 13 ()
"].
Proof.
  intros w.
  destruct (wait_all_reports [(102, WExited 0); (101, WSignaled 13)] [(-1, WExited 0)] w)
    as (w' & Hrun & Htrace & _).
  - repeat constructor; cbn; lia.
  - cbn. lia.
  - exists w'. split; [exact Hrun|]. rewrite Htrace. reflexivity.
Defined.

(** ** A [pipe] that fails *)

Lemma create_pipes_fail k acc w w1 :
  create_pipes k acc w = Ret None w1 ->
  exists new,
    (length new < k)%nat /\
    w1 = with_proc (fdt w1) (next_pipe w1)
                   (trace w ++ (pipe_event <$> new) ++ [EvPerror "pipe"]) w /\
    (forall fd, fd ∈ pipe_fds new -> fdt w !! fd = None) /\
    (forall fd, fd ∉ pipe_fds new -> fdt w1 !! fd = fdt w !! fd) /\
    (forall fd, fd ∈ pipe_fds new -> is_Some (fdt w1 !! fd)).
Proof.
  revert acc w. induction k as [|k IH]; intros acc w Hrun; [done|].
  cbn [create_pipes] in Hrun. unfold bind at 1 in Hrun.
  destruct (sys_pipe_cases w) as [Hfail|(r & wr & Hr & Hw & Hne & Hok)].
  { rewrite Hfail in Hrun. cbn in Hrun. injection Hrun as <-.
    exists []. split; [cbn; lia|]. split; [by destruct w|].
    split; [|split]; try done; intros fd Hin; by apply elem_of_nil in Hin. }
  rewrite Hok in Hrun. set (w' := with_proc _ _ _ w) in *.
  destruct (IH _ _ Hrun) as (new & Hlen & Hw1 & Hfree & Hsame & Hopen).
  exists ((r, wr) :: new).
  assert (Hr' : r ∉ pipe_fds new).
  { intros Hin. apply Hfree in Hin. subst w'. cbn in Hin.
    rewrite lookup_insert_ne, lookup_insert_eq in Hin by done. done. }
  assert (Hw' : wr ∉ pipe_fds new).
  { intros Hin. apply Hfree in Hin. subst w'. cbn in Hin.
    by rewrite lookup_insert_eq in Hin. }
  split; [cbn; lia|].
  split; [rewrite Hw1 at 1; subst w'; cbn; by rewrite <- app_assoc|].
  split; [|split].
  - intros fd Hin. cbn in Hin.
    apply elem_of_cons in Hin as [->|Hin]; [done|].
    apply elem_of_cons in Hin as [->|Hin]; [done|].
    apply Hfree in Hin. subst w'. cbn in Hin.
    destruct (decide (fd = wr)) as [->|?]; [done|].
    destruct (decide (fd = r)) as [->|?]; [done|].
    by rewrite !lookup_insert_ne in Hin.
  - intros fd Hnin. cbn in Hnin.
    apply not_elem_of_cons in Hnin as [Hfr Hnin].
    apply not_elem_of_cons in Hnin as [Hfw Hnin].
    rewrite Hsame by done. subst w'. cbn.
    by rewrite !lookup_insert_ne.
  - intros fd Hin. cbn in Hin.
    apply elem_of_cons in Hin as [->|Hin].
    { rewrite Hsame by done. subst w'. cbn.
      rewrite lookup_insert_ne, lookup_insert_eq by done. by eexists. }
    apply elem_of_cons in Hin as [->|Hin].
    { rewrite Hsame by done. subst w'. cbn. rewrite lookup_insert_eq. by eexists. }
    by apply Hopen.
Qed.

(** X14. When one of the calls of [pipe] fails, [execute_pipeline]
    reports it and gives the pipeline up: no process is created and
    none is waited for.  It closes nothing: the descriptors of the
    pipes created before the failure, free until then, are left open
    in the shell. *)
Theorem pipe_failure_abandons_pipeline pl w w1 :
  create_pipes (Z.to_nat (n_cmds pl - 1)) [] w = Ret None w1 ->
  exists new,
    execute_pipeline pl w = Ret tt w1 /\
    Z.of_nat (length new) < n_cmds pl - 1 /\
    trace w1 = trace w ++ (pipe_event <$> new) ++ [EvPerror "pipe"] /\
    (forall fd, fd ∈ pipe_fds new -> fdt w !! fd = None /\ is_Some (fdt w1 !! fd)) /\
    fork_results w1 = fork_results w /\ wait_results w1 = wait_results w.
Proof.
  intros Hrun.
  destruct (create_pipes_fail _ _ _ _ Hrun) as (new & Hlen & Hw1 & Hfree & _ & Hopen).
  exists new. split.
  { unfold execute_pipeline. by rewrite (bind_Ret_world _ _ _ _ _ Hrun). }
  split; [lia|]. split; [by rewrite Hw1|]. split; [by split; auto|].
  by rewrite Hw1.
Qed.

Lemma pipe_failure_abandons_pipeline_witness :
  let pl := PipelineExamples.pipeline_of
              ["a"; "|"; "b"; "|"; "c"; "|"; "d"; "|"; "e"; "|"; "f"; "|"; "g"; "|"; "h"] in
  let w := PipelineExamples.shell_world [101] ∅ in
  exists w1,
    execute_pipeline pl w = Ret tt w1 /\
    pipes_created (trace w1) = [(3, 4); (5, 6); (7, 8); (9, 10); (11, 12); (13, 14)] /\
    forked (trace w1) = [] /\ closed (trace w1) = [].
Proof.
  intros pl w.
  destruct (pipe_failure_abandons_pipeline pl w (final (create_pipes 7 [] w)))
    as (new & Hrun & _); [vm_compute; reflexivity|].
  eexists. split; [exact Hrun|]. vm_compute. split_and!; reflexivity.
Defined.

(** ** A [fork] that fails *)

Lemma fork_loop_fail pl pipes pre i post w pids r rest :
  fork_results w = pids ++ r :: rest ->
  length pids = length pre ->
  Forall (fun p => 0 < p) pids ->
  r < 0 ->
  fork_loop pl pipes (pre ++ i :: post) w =
    Ret tt (with_proc (fdt w) (next_pipe w)
                      (trace w ++ zip_with EvFork pre pids ++ [EvFork i r; EvPerror "fork"])
                      (set_fork_results rest w)).
Proof.
  revert w pids. induction pre as [|j pre IH]; intros w pids Hres Hlen Hpos Hr.
  { destruct pids; [|done]. cbn [app] in *.
    cbn [fork_loop]. unfold bind at 1, sys_fork. rewrite Hres.
    rewrite (proj2 (Z.eqb_neq r 0)) by lia.
    rewrite (proj2 (Z.ltb_lt r 0)) by lia.
    unfold perror, modify, emit, with_proc. cbn. by rewrite <- app_assoc. }
  destruct pids as [|p pids]; [done|].
  apply Forall_cons in Hpos as [Hp Hpos].
  cbn [app fork_loop]. unfold bind at 1, sys_fork. rewrite Hres. cbn [app].
  rewrite (proj2 (Z.eqb_neq p 0)) by lia.
  rewrite (proj2 (Z.ltb_ge p 0)) by lia.
  rewrite (IH _ pids); [|done|cbn in Hlen; lia|done|done].
  cbn. by rewrite <- app_assoc.
Qed.

(** X15. When [fork] fails for one of the stages, [execute_pipeline]
    reports it and starts no further stage; it still closes both
    descriptors of every pipe and goes on to wait for the processes it
    has created, and its descriptor table is the one it started
    with. *)
Theorem fork_failure_stops_launch pl w pipes w1 pids r rest :
  create_pipes (Z.to_nat (n_cmds pl - 1)) [] w = Ret (Some pipes) w1 ->
  fork_results w = pids ++ r :: rest ->
  Forall (fun p => 0 < p) pids ->
  r < 0 ->
  (length pids < Z.to_nat (n_cmds pl))%nat ->
  exists w' waits,
    execute_pipeline pl w = Ret tt w' /\
    trace w' = trace w ++ (pipe_event <$> pipes)
                 ++ zip_with EvFork (seq 0 (length pids)) pids
                 ++ [EvFork (length pids) r; EvPerror "fork"]
                 ++ (EvClose <$> pipe_fds pipes) ++ waits /\
    pipes_created waits = [] /\ forked waits = [] /\ closed waits = [] /\
    fdt w' = fdt w /\ fork_results w' = rest.
Proof.
  intros Hpipes Hres Hpos Hr Hlen.
  destruct (create_pipes_ok _ _ _ _ _ Hpipes)
    as (new & Hnew & Hk & Hw1 & _ & Hfree & Hsame & _).
  cbn [app] in Hnew. subst new.
  assert (Hres1 : fork_results w1 = pids ++ r :: rest) by (by rewrite Hw1).
  assert (Hseq : seq 0 (Z.to_nat (n_cmds pl)) =
                 seq 0 (length pids) ++ length pids
                   :: seq (S (length pids)) (Z.to_nat (n_cmds pl) - S (length pids))).
  { replace (Z.to_nat (n_cmds pl))
      with (length pids + S (Z.to_nat (n_cmds pl) - S (length pids)))%nat at 1 by lia.
    by rewrite seq_app. }
  unfold execute_pipeline.
  rewrite (bind_Ret_world _ _ _ _ _ Hpipes), Hseq.
  rewrite (bind_Ret_world _ _ _ _ _
             (fork_loop_fail pl pipes _ _ _ w1 pids r rest Hres1
                ltac:(by rewrite length_seq) Hpos Hr)).
  set (w2 := with_proc (fdt w1) _ _ _).
  rewrite (bind_Ret_world _ _ _ _ _ (close_pipes_run pipes w2)).
  set (w3 := with_proc _ _ _ w2).
  unfold bind, get.
  destruct (wait_all_run (wait_results w3) w3) as (waits & Hwait & H1 & H2 & H3).
  rewrite Hwait.
  eexists _, waits. split; [reflexivity|].
  assert (Hfd : forall fd,
             fdt w3 !! fd = if decide (fd ∈ pipe_fds pipes) then None else fdt w1 !! fd).
  { intros fd. subst w3 w2. cbn [fdt with_proc]. apply lookup_delete_all. }
  split; [|split; [done|split; [done|split; [done|split]]]].
  - cbn [trace set_wait_results with_proc]. subst w3 w2. cbn [trace with_proc].
    rewrite Hw1. cbn [trace with_proc]. by rewrite <- !app_assoc.
  - cbn [fdt set_wait_results with_proc]. apply map_eq. intros fd.
    rewrite Hfd. case_decide as Hin; [by rewrite Hfree|by apply Hsame].
  - done.
Qed.

Lemma fork_failure_stops_launch_witness :
  let w := PipelineExamples.shell_world [101; -1; 103] ∅ in
  exists w',
    execute_pipeline PipelineExamples.three_stages w = Ret tt w' /\
    forked (trace w') = [(0%nat, 101); (1%nat, -1)] /\
    closed (trace w') = [3; 4; 5; 6] /\
    fdt w' = fdt w.
Proof.
  intros w.
  destruct (fork_failure_stops_launch PipelineExamples.three_stages w
              [(3, 4); (5, 6)] (final (create_pipes 2 [] w)) [101] (-1) [103])
    as (w' & waits & Hrun & Htrace & _ & Hf & Hc & Hfdt & _);
    [vm_compute; reflexivity | reflexivity | repeat constructor | lia | vm_compute; lia |].
  exists w'. split; [exact Hrun|].
  rewrite Htrace. unfold forked, closed in *.
  rewrite !omap_app, Hf, Hc. split; [reflexivity|]. split; [reflexivity|].
  exact Hfdt.
Defined.

(** ** An output file that cannot be opened *)

Lemma fork_loop_child_env pl pipes todo w j :
  in_child w = None ->
  in_child (final (fork_loop pl pipes todo w)) = Some j ->
  exists wc,
    fork_loop pl pipes todo w = child_stage pl pipes j wc /\
    in_child wc = Some j /\ fdt wc = fdt w /\ fs wc = fs w /\ same_env w wc.
Proof.
  revert w. induction todo as [|i todo IH]; intros w Hshell Hchild.
  { cbn in Hchild. congruence. }
  cbn [fork_loop] in *. unfold bind at 1, sys_fork in Hchild.
  unfold bind at 1, sys_fork.
  destruct (fork_results w) as [|p rest] eqn:Hres.
  { cbn in Hchild. congruence. }
  destruct (p <? 0) eqn:Hneg.
  { rewrite (proj2 (Z.eqb_neq p 0)) in Hchild by lia. cbn in Hchild. congruence. }
  destruct (p =? 0) eqn:Hzero.
  - set (wc := set_in_child _ _) in *.
    rewrite same_process_child in Hchild. cbn in Hchild. injection Hchild as <-.
    exists wc. by repeat split.
  - set (w1 := emit _ _) in *.
    destruct (IH w1 Hshell Hchild) as (wc & Hrun & Hc & Hfdt & Hfs & Henv).
    exists wc. split; [done|]. split; [done|]. split; [done|]. split; [done|].
    exact Henv.
Qed.

Lemma execute_pipeline_child_env pl w j :
  in_child w = None ->
  std_open w ->
  in_child (final (execute_pipeline pl w)) = Some j ->
  exists pipes wc,
    execute_pipeline pl w = child_stage pl pipes j wc /\
    wired pipes wc /\
    length pipes = Z.to_nat (n_cmds pl - 1) /\
    fs wc = fs w /\ in_child wc = Some j /\ same_env w wc.
Proof.
  intros Hshell [Hin Hout] Hchild. unfold execute_pipeline in *.
  destruct (create_pipes_cases (Z.to_nat (n_cmds pl - 1)) [] w)
    as [(pipes & w1 & Hpipes)|(w1 & Hpipes & Hc)].
  2:{ rewrite (bind_Ret_world _ _ _ _ _ Hpipes) in Hchild. cbn in Hchild. congruence. }
  rewrite (bind_Ret_world _ _ _ _ _ Hpipes) in *.
  destruct (create_pipes_ok _ _ _ _ _ Hpipes)
    as (new & Hnew & Hk & Hw1 & _ & Hfree & Hsame & Hends).
  cbn [app] in Hnew. subst new.
  assert (Hshell1 : in_child w1 = None) by (by rewrite Hw1).
  assert (Henv1 : same_env w w1) by (rewrite Hw1; by repeat split).
  assert (Hwired : wired pipes w1).
  { assert (Hstd : forall fd, fd ∈ pipe_fds pipes -> fd <> 0 /\ fd <> 1).
    { intros fd Hfd. apply Hfree in Hfd.
      destruct Hin as [? Hin], Hout as [? Hout].
      change (Z.of_nat STDIN_FILENO) with 0 in Hin.
      change (Z.of_nat STDOUT_FILENO) with 1 in Hout.
      split; intros ->; congruence. }
    split; [|split; [done|]].
    - split; rewrite Hsame; try done; intros Hfd; apply Hstd in Hfd;
        by destruct Hfd.
    - intros i p Hp. destruct (Hends i p Hp) as [H1 H2]. by eexists. }
  assert (Hloop : in_child (final (fork_loop pl pipes (seq 0 (Z.to_nat (n_cmds pl))) w1))
                  = Some j).
  { unfold bind at 1 in Hchild.
    destruct (fork_loop pl pipes _ w1) as [[] w2| | |] eqn:Hrun; try done.
    exfalso.
    pose proof (fork_loop_outcomes pl pipes (seq 0 (Z.to_nat (n_cmds pl))) w1 Hshell1) as Ho.
    rewrite Hrun in Ho. destruct Ho as [Hs2 _].
    rewrite (bind_Ret_world _ _ _ _ _ (close_pipes_run pipes w2)) in Hchild.
    rewrite bind_get_world in Hchild.
    match type of Hchild with
    | context [wait_all ?rs ?w3] =>
        destruct (wait_all_run rs w3) as (evs & Hwait & _)
    end.
    rewrite Hwait in Hchild. cbn in Hchild. congruence. }
  destruct (fork_loop_child_env pl pipes _ w1 j Hshell1 Hloop)
    as (wc & Hrun & Hc & Hfdt & Hfs & Henv).
  rewrite bind_child by (rewrite Hrun; apply child_stage_never_returns).
  exists pipes, wc. split; [done|]. split.
  { destruct Hwired as ((H0 & H1) & Hstd & Hp).
    split; [|split; [done|]].
    - by split; rewrite Hfdt.
    - intros k p Hk'. rewrite Hfdt. exact (Hp _ _ Hk'). }
  split; [done|]. split; [by rewrite Hfs, Hw1|]. split; [done|].
  exact (same_env_trans _ _ _ Henv1 Henv).
Qed.

(** X16. The child of the last stage gives up with status 1 when the
    output file may not be opened: it reports the file with [perror],
    runs no program, and the files are what they were. *)
Theorem redirect_open_failure pl w file :
  in_child w = None ->
  std_open w ->
  outfile pl = Some file ->
  file ∈ fs_denied w ->
  in_child (final (execute_pipeline pl w)) = Some (Z.to_nat (n_cmds pl - 1)) ->
  exists w' evs,
    execute_pipeline pl w = Exit 1 w' /\
    fs w' = fs w /\
    trace w' = evs ++ [EvOpen file (redirect_flags (append pl)) 438 (-1); EvPerror file].
Proof.
  intros Hshell Hstd Hout Hdenied Hchild.
  destruct (execute_pipeline_child_env pl w _ Hshell Hstd Hchild)
    as (pipes & wc & Hrun & Hwired & Hlen & Hfs & Hc & Henv).
  destruct (execute_pipeline_child pl w _ Hshell Hstd Hchild)
    as (_ & _ & _ & _ & _ & Hj & _).
  assert (Hi : Z.of_nat (Z.to_nat (n_cmds pl - 1)) = n_cmds pl - 1) by lia.
  rewrite Hrun. unfold child_stage.
  destruct (wire_stdin_run pipes (Z.to_nat (n_cmds pl - 1)) wc Hwired)
    as (w2 & Hrun2 & Hw2 & Hfs2 & _ & _ & _).
  pose proof (wiring_stdin pipes (Z.to_nat (n_cmds pl - 1)) wc) as Henv2.
  rewrite Hrun2 in Henv2. destruct Henv2 as [_ Henv2].
  rewrite (bind_Ret_world _ _ _ _ _ Hrun2).
  rewrite (bind_Ret_world _ _ _ _ _ (wire_stdout_last pl pipes _ w2 Hi)).
  assert (Hden2 : file ∈ fs_denied w2).
  { destruct Henv as (_ & _ & _ & _ & _ & Hd).
    destruct Henv2 as (_ & _ & _ & _ & _ & Hd2). by rewrite Hd2, Hd. }
  unfold bind at 1, redirect_output. rewrite Hout.
  rewrite (proj2 (Z.eqb_eq _ _) Hi).
  unfold bind at 1, sys_open. rewrite bool_decide_eq_true_2 by done.
  cbn. eexists _, _. split; [reflexivity|].
  cbn [fs trace emit]. split; [congruence|].
  by rewrite <- app_assoc.
Qed.

Lemma redirect_open_failure_witness :
  let pl := PipelineExamples.pipeline_of ["ls"; ">"; "/etc/passwd"] in
  let w := mkworld PipelineExamples.std_fdt 16 0 ∅ ["/etc/passwd"] [0] []
                   None (fun _ => true) (fun _ => true)
                   (fun _ => EmptyString) None [] in
  exists w',
    execute_pipeline pl w = Exit 1 w' /\
    trace w' = [EvFork 0 0; EvOpen "/etc/passwd" 577 438 (-1); EvPerror "/etc/passwd"].
Proof.
  intros pl w.
  destruct (redirect_open_failure pl w "/etc/passwd") as (w' & evs & Hrun & _ & _).
  - reflexivity.
  - split; eexists; vm_compute; reflexivity.
  - reflexivity.
  - apply list_elem_of_here.
  - vm_compute. reflexivity.
  - exists w'. split; [exact Hrun|].
    vm_compute in Hrun. injection Hrun as <-. reflexivity.
Defined.

End Failures.

(* ================================================================== *)
(** * The descriptors of a stage *)
(* ================================================================== *)

Section Plumbing.
Import Libc Control Wait Fcntl Phase2 Phase2Shell Stdio.

Implicit Types (w : world) (pl : Pipeline) (pipes : list (Z * Z)) (fd : Z).

Lemma execute_pipeline_child_pipes pl w j :
  in_child w = None ->
  std_open w ->
  in_child (final (execute_pipeline pl w)) = Some j ->
  exists pipes wc,
    execute_pipeline pl w = child_stage pl pipes j wc /\
    wired pipes wc /\
    length pipes = Z.to_nat (n_cmds pl - 1) /\
    (j < Z.to_nat (n_cmds pl))%nat /\
    piped_from w pipes wc.
Proof.
  intros Hshell Hstd Hchild.
  destruct (execute_pipeline_child pl w j Hshell Hstd Hchild)
    as (_ & _ & _ & _ & _ & Hj & _).
  unfold execute_pipeline in *.
  destruct (create_pipes_cases (Z.to_nat (n_cmds pl - 1)) [] w)
    as [(pipes & w1 & Hpipes)|(w1 & Hpipes & Hc)].
  2:{ rewrite (bind_Ret_world _ _ _ _ _ Hpipes) in Hchild. cbn in Hchild. congruence. }
  rewrite (bind_Ret_world _ _ _ _ _ Hpipes) in *.
  destruct (create_pipes_ok _ _ _ _ _ Hpipes)
    as (new & Hnew & Hk & Hw1 & _ & Hfree & Hsame & Hends).
  cbn [app] in Hnew. subst new.
  assert (Hshell1 : in_child w1 = None) by (by rewrite Hw1).
  assert (Hwired : wired pipes w1).
  { destruct Hstd as [Hin Hout].
    assert (Hstd : forall fd, fd ∈ pipe_fds pipes -> fd <> 0 /\ fd <> 1).
    { intros fd Hfd. apply Hfree in Hfd.
      destruct Hin as [? Hin], Hout as [? Hout].
      change (Z.of_nat STDIN_FILENO) with 0 in Hin.
      change (Z.of_nat STDOUT_FILENO) with 1 in Hout.
      split; intros ->; congruence. }
    split; [|split; [done|]].
    - split; rewrite Hsame; try done; intros Hfd; apply Hstd in Hfd;
        by destruct Hfd.
    - intros i p Hp. destruct (Hends i p Hp) as [H1 H2]. by eexists. }
  assert (Hloop : in_child (final (fork_loop pl pipes (seq 0 (Z.to_nat (n_cmds pl))) w1))
                  = Some j).
  { unfold bind at 1 in Hchild.
    destruct (fork_loop pl pipes _ w1) as [[] w2| | |] eqn:Hrun; try done.
    exfalso.
    pose proof (fork_loop_outcomes pl pipes (seq 0 (Z.to_nat (n_cmds pl))) w1 Hshell1) as Ho.
    rewrite Hrun in Ho. destruct Ho as [Hs2 _].
    rewrite (bind_Ret_world _ _ _ _ _ (close_pipes_run pipes w2)) in Hchild.
    rewrite bind_get_world in Hchild.
    match type of Hchild with
    | context [wait_all ?rs ?w3] =>
        destruct (wait_all_run rs w3) as (evs & Hwait & _)
    end.
    rewrite Hwait in Hchild. cbn in Hchild. congruence. }
  destruct (fork_loop_child_env pl pipes _ w1 j Hshell1 Hloop)
    as (wc & Hrun & Hc & Hfdt & Hfs & Henv).
  rewrite bind_child by (rewrite Hrun; apply child_stage_never_returns).
  exists pipes, wc. split; [done|]. split.
  { destruct Hwired as ((H0 & H1) & Hstd' & Hp).
    split; [|split; [done|]].
    - by split; rewrite Hfdt.
    - intros k p Hk'. rewrite Hfdt. exact (Hp _ _ Hk'). }
  split; [done|]. split; [done|].
  split; [done|]. split.
  - intros fd Hfd. rewrite Hfdt. by apply Hsame.
  - intros k p Hk'. rewrite Hfdt. by apply Hends.
Qed.

Lemma sys_dup2_run old new d w :
  fdt w !! old = Some d -> old <> new ->
  sys_dup2 old new w =
    Ret new (with_proc (<[new := d]> (fdt w)) (next_pipe w)
                       (trace w ++ [EvDup2 old new new]) w).
Proof.
  intros Hold Hne. unfold sys_dup2. rewrite Hold.
  by rewrite (proj2 (Z.eqb_neq _ _) Hne).
Qed.

(** The descriptors of the child of stage [j] once it is wired, the
    redirection apart. *)
Lemma wire_std_run pl pipes j w0 wc :
  wired pipes wc ->
  length pipes = Z.to_nat (n_cmds pl - 1) ->
  (j < Z.to_nat (n_cmds pl))%nat ->
  piped_from w0 pipes wc ->
  exists w2 w3,
    wire_stdin pipes j wc = Ret tt w2 /\
    wire_stdout pl pipes j w2 = Ret tt w3 /\
    wired pipes w3 /\
    fdt w3 !! 0 = (if decide (j = 0%nat) then fdt w0 !! 0
                   else Some (OPipeR (next_pipe w0 + j - 1))) /\
    fdt w3 !! 1 = (if decide (Z.of_nat j < n_cmds pl - 1)
                   then Some (OPipeW (next_pipe w0 + j))
                   else fdt w0 !! 1) /\
    (forall fd, fd <> 0 -> fd <> 1 -> fdt w3 !! fd = fdt wc !! fd).
Proof.
  intros Hwired Hlen Hj (Hfree & Hsame & Hends).
  pose proof Hwired as (Hstd & Hfds & _).
  assert (H0 : 0 ∉ pipe_fds pipes) by (intros Hin; by destruct (Hfds 0 Hin)).
  assert (H1 : 1 ∉ pipe_fds pipes) by (intros Hin; by destruct (Hfds 1 Hin)).
  (* standard input *)
  assert (Hin : exists w2,
    wire_stdin pipes j wc = Ret tt w2 /\ wired pipes w2 /\
    fdt w2 !! 0 = (if decide (j = 0%nat) then fdt w0 !! 0
                   else Some (OPipeR (next_pipe w0 + j - 1))) /\
    (forall fd, fd <> 0 -> fdt w2 !! fd = fdt wc !! fd)).
  { unfold wire_stdin. destruct j as [|j'].
    - exists wc. cbn [Z.of_nat Z.ltb Z.compare]. split; [done|]. split; [done|].
      rewrite decide_True by done. split; [by apply Hsame|done].
    - rewrite (proj2 (Z.ltb_lt 0 (Z.of_nat (S j')))) by lia.
      replace (S j' - 1)%nat with j' by lia.
      destruct (lookup_lt_is_Some_2 pipes j') as [p Hp]; [lia|].
      destruct (Hends j' p Hp) as [Hr _].
      destruct (pipe_fds_lookup _ _ _ Hp) as [Hp1 _].
      assert (Hne : p.1 <> 0) by (by destruct (Hfds _ Hp1)).
      unfold pipe_read. rewrite Hp. cbn [default from_option id].
      change (Z.of_nat STDIN_FILENO) with 0.
      rewrite (bind_Ret_world _ _ _ _ _ (sys_dup2_run _ _ _ _ Hr Hne)).
      cbn [Z.ltb Z.compare]. eexists. split; [reflexivity|].
      split; [apply (wired_insert_std pipes wc 0); [by left|done]|].
      rewrite decide_False by done. cbn [fdt with_proc].
      split.
      + rewrite lookup_insert_eq. do 2 f_equal. lia.
      + intros fd Hfd. by rewrite lookup_insert_ne. }
  destruct Hin as (w2 & Hrun2 & Hw2 & Hin2 & Hrest2).
  exists w2. unfold wire_stdout.
  destruct (decide (Z.of_nat j < n_cmds pl - 1)) as [Hlast|Hlast].
  - rewrite (proj2 (Z.ltb_lt _ _) Hlast).
    destruct (lookup_lt_is_Some_2 pipes j) as [p Hp]; [lia|].
    destruct (Hends j p Hp) as [_ Hwr].
    destruct (pipe_fds_lookup _ _ _ Hp) as [_ Hp2].
    assert (Hne : p.2 <> 1) by (by destruct (Hfds _ Hp2)).
    assert (Hne0 : p.2 <> 0) by (by destruct (Hfds _ Hp2)).
    unfold pipe_write. rewrite Hp. cbn [default from_option id].
    change (Z.of_nat STDOUT_FILENO) with 1.
    rewrite <- (Hrest2 _ Hne0) in Hwr.
    rewrite (bind_Ret_world _ _ _ _ _ (sys_dup2_run _ _ _ _ Hwr Hne)).
    cbn [Z.ltb Z.compare]. eexists. split; [done|]. split; [reflexivity|].
    split; [apply (wired_insert_std pipes w2 1); [by right|done]|].
    cbn [fdt with_proc]. split; [by rewrite lookup_insert_ne|].
    split; [by rewrite lookup_insert_eq|].
    intros fd Hfd0 Hfd1. rewrite lookup_insert_ne by done. by apply Hrest2.
  - rewrite (proj2 (Z.ltb_ge _ _)) by lia.
    exists w2. split; [done|]. split; [done|]. split; [done|]. split; [done|].
    split; [rewrite Hrest2 by done; by apply Hsame|].
    intros fd Hfd0 _. by apply Hrest2.
Qed.

(** X28. The child of stage [j] of a pipeline launched from a shell
    whose standard input and output are open, once it has got as far
    as its program: its standard input is the read end of the
    pipe that the stage before writes to (the standard input of the
    shell for the first stage); its standard output is the write end
    of the pipe that the stage after reads from (for the last stage
    the output file, or the standard output of the shell); and every
    other descriptor is as in the shell before the launch, so that no
    end of a pipe is left open anywhere else. *)
Theorem pipeline_connects_stages pl w j :
  in_child w = None ->
  std_open w ->
  in_child (final (execute_pipeline pl w)) = Some j ->
  reaches_program (execute_pipeline pl w) ->
  let w' := final (execute_pipeline pl w) in
  fdt w' !! 0 = (if decide (j = 0%nat) then fdt w !! 0
                 else Some (OPipeR (next_pipe w + j - 1))) /\
  fdt w' !! 1 = (if decide (Z.of_nat j < n_cmds pl - 1)
                 then Some (OPipeW (next_pipe w + j))
                 else match outfile pl with
                      | Some file => Some (OFile file (append pl) 0)
                      | None => fdt w !! 1
                      end) /\
  forall fd, fd <> 0 -> fd <> 1 -> fdt w' !! fd = fdt w !! fd.
Proof.
  intros Hshell Hstd Hchild Hreach w'. subst w'.
  destruct (execute_pipeline_child_pipes pl w j Hshell Hstd Hchild)
    as (pipes & wc & Hrun & Hwired & Hlen & Hj & Hpiped).
  rewrite Hrun in *.
  destruct (wire_std_run pl pipes j w wc Hwired Hlen Hj Hpiped)
    as (w2 & w3 & Hrun2 & Hrun3 & Hw3 & Hin3 & Hout3 & Hrest3).
  destruct Hpiped as (Hfree & Hsame & _).
  pose proof Hw3 as (_ & Hfds & _).
  assert (Hw0 : forall fd, fd <> 0 -> fd <> 1 ->
            (if decide (fd ∈ pipe_fds pipes) then None else fdt wc !! fd) = fdt w !! fd).
  { intros fd _ _.
    destruct (decide (fd ∈ pipe_fds pipes)); [by rewrite Hfree|by apply Hsame]. }
  assert (Hstage : child_stage pl pipes j wc =
                   (redirect_output pl j ;; close_pipes pipes ;; load_program pl j) w3).
  { unfold child_stage.
    by rewrite (bind_Ret_world _ _ _ _ _ Hrun2), (bind_Ret_world _ _ _ _ _ Hrun3). }
  rewrite Hstage in *. clear Hstage Hrun Hrun2 Hrun3.
  assert (Hnot0 : 0 ∉ pipe_fds pipes) by (intros Hin; by destruct (Hfds 0 Hin)).
  assert (Hnot1 : 1 ∉ pipe_fds pipes) by (intros Hin; by destruct (Hfds 1 Hin)).
  destruct (decide (Z.of_nat j < n_cmds pl - 1)) as [Hinner|Hlast].
  - rewrite (bind_Ret_world _ _ _ _ _ (redirect_output_inner pl j w3 Hinner)) in *.
    rewrite (bind_Ret_world _ _ _ _ _ (close_pipes_run pipes w3)) in *.
    set (w5 := with_proc _ _ _ w3) in *.
    destruct (load_program_run pl j w5) as (_ & -> & _).
    subst w5. cbn [fdt with_proc].
    split; [by rewrite lookup_delete_all, (decide_False _ _ Hnot0)|].
    split; [by rewrite lookup_delete_all, (decide_False _ _ Hnot1)|].
    intros fd Hfd0 Hfd1. rewrite lookup_delete_all, <- (Hw0 fd Hfd0 Hfd1).
    destruct (decide (fd ∈ pipe_fds pipes)); [done|by apply Hrest3].
  - assert (Hi : Z.of_nat j = n_cmds pl - 1) by lia.
    destruct (outfile pl) as [file|] eqn:Hout.
    + destruct (redirect_output_last pl pipes j w3 file Hout Hi Hw3)
        as [(wx & Hfail)|(fd & w4 & Hrun4 & Hfree4 & Hfdt4 & _ & _ & _)].
      { unfold bind at 1 in Hreach. rewrite Hfail in Hreach. cbn in Hreach. lia. }
      rewrite (bind_Ret_world _ _ _ _ _ Hrun4) in *.
      rewrite (bind_Ret_world _ _ _ _ _ (close_pipes_run pipes w4)) in *.
      set (w5 := with_proc _ _ _ w4) in *.
      destruct (load_program_run pl j w5) as (_ & -> & _).
      subst w5. cbn [fdt with_proc]. rewrite Hfdt4.
      assert (Hfd1 : fd <> 1).
      { intros ->. destruct Hw3 as ((_ & [d Hd]) & _).
        change (Z.of_nat STDOUT_FILENO) with 1 in Hd. congruence. }
      assert (Hfd0 : fd <> 0).
      { intros ->. destruct Hw3 as (([d Hd] & _) & _).
        change (Z.of_nat STDIN_FILENO) with 0 in Hd. congruence. }
      split.
      { rewrite lookup_delete_all, (decide_False _ _ Hnot0).
        by rewrite lookup_delete_ne, !lookup_insert_ne. }
      split.
      { rewrite lookup_delete_all, (decide_False _ _ Hnot1).
        by rewrite lookup_delete_ne, lookup_insert_eq. }
      intros x Hx0 Hx1. rewrite lookup_delete_all, <- (Hw0 x Hx0 Hx1).
      destruct (decide (x ∈ pipe_fds pipes)); [done|].
      rewrite <- (Hrest3 x Hx0 Hx1).
      destruct (decide (x = fd)) as [->|Hne]; [by rewrite lookup_delete_eq|].
      by rewrite lookup_delete_ne, !lookup_insert_ne.
    + assert (Hredir : redirect_output pl j w3 = Ret tt w3).
      { unfold redirect_output. by rewrite Hout. }
      rewrite (bind_Ret_world _ _ _ _ _ Hredir) in *.
      rewrite (bind_Ret_world _ _ _ _ _ (close_pipes_run pipes w3)) in *.
      set (w5 := with_proc _ _ _ w3) in *.
      destruct (load_program_run pl j w5) as (_ & -> & _).
      subst w5. cbn [fdt with_proc].
      split; [by rewrite lookup_delete_all, (decide_False _ _ Hnot0)|].
      split; [by rewrite lookup_delete_all, (decide_False _ _ Hnot1)|].
      intros fd Hfd0 Hfd1. rewrite lookup_delete_all, <- (Hw0 fd Hfd0 Hfd1).
      destruct (decide (fd ∈ pipe_fds pipes)); [done|by apply Hrest3].
Qed.

Lemma pipeline_connects_stages_witness :
  let w := PipelineExamples.shell_world [101; 0] ∅ in
  let w' := final (execute_pipeline PipelineExamples.three_stages w) in
  in_child w' = Some 1%nat /\
  fdt w' !! 0 = Some (OPipeR 0) /\ fdt w' !! 1 = Some (OPipeW 1) /\
  fdt w' !! 3 = None /\ fdt w' !! 4 = None /\ fdt w' !! 5 = None /\ fdt w' !! 6 = None.
Proof.
  intros w w'.
  assert (Hchild : in_child w' = Some 1%nat) by (vm_compute; reflexivity).
  destruct (pipeline_connects_stages PipelineExamples.three_stages w 1%nat)
    as (Hin & Hout & Hrest).
  - reflexivity.
  - split; eexists; vm_compute; reflexivity.
  - exact Hchild.
  - vm_compute. exact I.
  - split; [exact Hchild|]. split; [exact Hin|]. split; [exact Hout|].
    split_and!; (rewrite Hrest by lia; reflexivity).
Defined.

End Plumbing.

(* ================================================================== *)
(** * What the parser returns *)
(* ================================================================== *)

Section ParseResult.
Import Libc Control Fcntl Wait Phase2 Phase2Shell.

Implicit Types (toks : list string) (its : list item) (pl : Pipeline) (idx : nat).

Lemma scanning_redirect idx file app pl :
  scanning idx pl -> scanning idx (set_redirect file app pl).
Proof. done. Qed.

Lemma scanning_current idx pl :
  scanning idx pl ->
  exists cur,
    cmds pl !! idx = Some cur /\ argc_at idx pl = Z.of_nat (length cur) /\
    (length cur <= 255)%nat /\ (idx < 32)%nat.
Proof.
  intros (Hlen & Hn & Hmax & Hargs & _).
  assert (Hidx : (idx < length (cmds pl))%nat) by (rewrite Hlen; unfold MAX_CMDS in *; lia).
  destruct (lookup_lt_is_Some_2 _ _ Hidx) as [cur Hcur].
  exists cur. unfold argc_at in *. rewrite Hcur in *. cbn in *.
  unfold MAX_ARGS, MAX_CMDS in *. split_and!; try done; lia.
Qed.

Lemma parse_loop_result_nil idx pl0 pl :
  scanning idx pl0 ->
  parse_loop [] idx pl0 = ParseOk pl ->
  scanned [] idx pl0 pl.
Proof.
  intros Hscan Hrun.
  destruct (scanning_current idx pl0 Hscan) as (cur & Hcur & Hargc & Hbound & Hidx).
  pose proof Hscan as (Hcmds & Hn & Hmax & _ & _).
  cbn [parse_loop] in Hrun.
  destruct (Z.eqb_spec (argc_at idx pl0) 0) as [Hz|Hz]; [done|].
  injection Hrun as <-. unfold scanned. rewrite Hcur.
  cbn [lex split_stages extend_stage redirect_of default from_option id length].
  rewrite app_nil_r.
  split; [done|]. split; [lia|]. split; [done|]. split.
  { rewrite Hn. replace (Z.to_nat (Z.of_nat idx + 1)) with (S idx) by lia.
    by rewrite (take_S_r _ _ _ Hcur). }
  split; [constructor; [lia|constructor]|].
  by destruct (outfile pl0).
Qed.

(** What a successful scan from a state in the middle leaves. *)
Lemma parse_loop_result n :
  forall toks idx pl0 pl,
    (length toks <= n)%nat ->
    scanning idx pl0 ->
    parse_loop toks idx pl0 = ParseOk pl ->
    scanned toks idx pl0 pl.
Proof.
  induction n as [|n IH]; intros toks idx pl0 pl Hlen Hscan Hrun.
  { destruct toks; [|cbn in Hlen; lia]. by apply parse_loop_result_nil. }
  destruct toks as [|tok rest]; [by apply parse_loop_result_nil|].
  destruct (scanning_current idx pl0 Hscan) as (cur & Hcur & Hargc & Hbound & Hidx).
  pose proof Hscan as (Hcmds & Hn & Hmax & _ & _).
  cbn [length] in Hlen. cbn [parse_loop] in Hrun.
  unfold scanned. rewrite Hcur. cbn [lex default from_option id].
  destruct (streq tok "|").
  { destruct (Z.eqb_spec (argc_at idx pl0) 0) as [Hz|Hz]; [done|].
    destruct (Z.leb_spec MAX_CMDS (n_cmds pl0)) as [Hfull|Hroom]; [done|].
    destruct (scanning_next idx pl0 Hscan Hroom) as [Hscan' Hzero].
    destruct (IH rest (S idx) (next_cmd pl0) pl ltac:(lia) Hscan' Hrun)
      as (H1 & H2 & H3 & H4 & H5 & H6).
    cbn [cmds next_cmd outfile append] in *.
    assert (Hnext : default [] (cmds pl0 !! S idx) = []).
    { unfold argc_at in Hzero. cbn [cmds next_cmd] in Hzero.
      destruct (default [] (cmds pl0 !! S idx)); [done|cbn in Hzero; lia]. }
    rewrite Hnext in *.
    destruct (split_stages_cons (lex rest)) as (s & ss & Hss).
    cbn [split_stages redirect_of]. rewrite Hss in *. cbn [extend_stage app length] in *.
    rewrite app_nil_r.
    split; [done|]. split; [lia|]. split; [done|].
    split; [by rewrite H4, (take_S_r _ _ _ Hcur), <- app_assoc|].
    split; [constructor; [lia|done]|].
    done. }
  destruct (is_redirect tok).
  { destruct rest as [|file rest']; [done|].
    destruct (outfile pl0) as [f|] eqn:Hout; [done|].
    destruct (IH rest' idx (set_redirect file (is_append tok) pl0) pl
                ltac:(cbn in Hlen; lia) (scanning_redirect _ _ _ _ Hscan) Hrun)
      as (H1 & H2 & H3 & H4 & H5 & H6).
    cbn [cmds set_redirect outfile append split_stages redirect_of] in *.
    rewrite Hcur in *. cbn [default from_option id] in *.
    destruct H6. by split_and!. }
  destruct (Z.leb_spec (MAX_ARGS - 1) (argc_at idx pl0)) as [Hfull|Hroom]; [done|].
  destruct (scanning_push idx tok pl0 Hscan Hroom) as [Hscan' Hcount].
  destruct (IH rest idx (push_arg idx tok pl0) pl ltac:(lia) Hscan' Hrun)
    as (H1 & H2 & H3 & H4 & H5 & H6).
  cbn [cmds push_arg outfile append] in *.
  rewrite list_lookup_alter_eq, Hcur in H2, H4, H5.
  cbn [fmap option_fmap option_map default from_option id] in *.
  rewrite take_alter, decide_False in H4 by lia.
  destruct (split_stages_cons (lex rest)) as (s & ss & Hss).
  cbn [split_stages redirect_of]. rewrite Hss in *. cbn [extend_stage] in *.
  rewrite <- app_assoc in H2, H4, H5. cbn [app] in *.
  by split_and!.
Qed.

(** X17. A command line that [parse_pipeline] accepts is parsed to
    the stages the separators cut it into, words in order,
    redirection left out: there are between 1 and [MAX_CMDS] of them,
    each has between 1 and [MAX_ARGS - 1] words, and [n_cmds] counts
    them; the file and the mode are those of the redirection of the
    line, when it has one. *)
Theorem parse_pipeline_result toks pl :
  parse_pipeline toks = ParseOk pl ->
  stages pl = split_stages (lex toks) /\
  n_cmds pl = Z.of_nat (length (stages pl)) /\
  1 <= n_cmds pl <= MAX_CMDS /\
  Forall (fun s => (1 <= length s <= 255)%nat) (stages pl) /\
  match redirect_of (lex toks) with
  | Some (a, f) => outfile pl = Some f /\ append pl = a
  | None => outfile pl = None /\ append pl = false
  end.
Proof.
  intros Hparse. unfold parse_pipeline in Hparse.
  destruct toks as [|tok rest] eqn:Htoks; [done|]. rewrite <- Htoks in *. clear Htoks.
  destruct scanning_start as [Hscan _].
  destruct (parse_loop_result (length toks) toks 0 _ pl (le_n _) Hscan Hparse)
    as (H1 & H2 & H3 & H4 & H5 & H6).
  cbn [cmds next_cmd empty_pipeline outfile append take app] in *.
  destruct (split_stages_cons (lex toks)) as (s & ss & Hss).
  rewrite Hss in *. cbn [extend_stage app default from_option id lookup] in *.
  change (default [] (replicate (Z.to_nat MAX_CMDS) [] !! 0%nat)) with (@nil string) in *.
  cbn [app] in *.
  change (take 0 (replicate (Z.to_nat MAX_CMDS) [])) with (@nil (list string)) in H4.
  rewrite app_nil_l in H4.
  unfold stages. rewrite H4. split; [done|]. split; [cbn [length] in *; lia|].
  split; [cbn [length] in *; lia|]. by split.
Qed.

Lemma parse_pipeline_result_witness :
  let toks := ["ls"; "-l"; "|"; "wc"; ">>"; "out"] in
  exists pl,
    parse_pipeline toks = ParseOk pl /\
    stages pl = [["ls"; "-l"]; ["wc"]] /\
    outfile pl = Some "out" /\ append pl = true.
Proof.
  intros toks. exists (PipelineExamples.pipeline_of toks).
  assert (Hparse : parse_pipeline toks = ParseOk (PipelineExamples.pipeline_of toks))
    by reflexivity.
  destruct (parse_pipeline_result toks _ Hparse) as (Hstages & _ & _ & _ & Hred).
  split; [exact Hparse|]. split; [exact Hstages|]. exact Hred.
Defined.

End ParseResult.

(* ================================================================== *)
(** * Output redirection from the command line to the file *)
(* ================================================================== *)

Section Redirection.
Import Libc Control Fcntl Wait Phase2.

Implicit Types (toks pre post : list string) (pl : Pipeline) (idx : nat).

Lemma operator_mode op :
  op = ">" \/ op = ">>" ->
  is_redirect op = true /\ is_append op = bool_decide (op = ">>").
Proof. intros [-> | ->]; vm_compute; by split. Qed.

(** The first redirection operator of a line that parses is the one
    recorded, with the token after it as the file name. *)
Lemma parse_loop_first_redirect pre op file post idx pl0 pl :
  Forall (fun t => is_redirect t = false) pre ->
  is_redirect op = true ->
  outfile pl0 = None ->
  parse_loop (pre ++ op :: file :: post) idx pl0 = ParseOk pl ->
  outfile pl = Some file /\ append pl = is_append op.
Proof.
  intros Hpre Hop. revert idx pl0.
  induction Hpre as [|tok pre Htok _ IH]; intros idx pl0 Hout Hrun;
    cbn [app parse_loop] in Hrun.
  { rewrite (is_redirect_not_pipe op Hop), Hop, Hout in Hrun.
    by apply parse_loop_keeps_outfile with (f := file) in Hrun. }
  destruct (streq tok "|").
  { destruct (argc_at idx pl0 =? 0); [done|].
    destruct (MAX_CMDS <=? n_cmds pl0); [done|].
    by apply IH in Hrun. }
  rewrite Htok in Hrun.
  destruct (MAX_ARGS - 1 <=? argc_at idx pl0); [done|].
  by apply IH in Hrun.
Qed.

Lemma parse_first_redirect pre op file post pl :
  Forall (fun t => is_redirect t = false) pre ->
  op = ">" \/ op = ">>" ->
  parse_pipeline (pre ++ op :: file :: post) = ParseOk pl ->
  outfile pl = Some file /\ append pl = bool_decide (op = ">>").
Proof.
  intros Hpre Hop Hparse. destruct (operator_mode op Hop) as [Hred <-].
  unfold parse_pipeline in Hparse.
  destruct (pre ++ op :: file :: post) as [|t ts] eqn:Hall; [done|].
  rewrite <- Hall in Hparse.
  exact (parse_loop_first_redirect pre op file post 0 (next_cmd empty_pipeline) pl
           Hpre Hred eq_refl Hparse).
Qed.

(** X29. A command line whose first redirection operator is [>] or
    [>>], launched from a shell whose standard input and output are
    open: the child of the last stage, once it has got as far as its
    program, has opened the file named after the operator with
    [O_WRONLY | O_CREAT] and [O_TRUNC] under [>], [O_APPEND] under
    [>>]; the file exists, empty under [>] and with its former content
    under [>>]; standard output is open on it, so what the program
    writes there is the whole content of the file under [>] and
    follows the former content under [>>]. *)
Theorem redirect_mode_from_operator pre op file post pl w :
  Forall (fun t => is_redirect t = false) pre ->
  op = ">" \/ op = ">>" ->
  parse_pipeline (pre ++ op :: file :: post) = ParseOk pl ->
  in_child w = None ->
  std_open w ->
  in_child (final (execute_pipeline pl w)) = Some (Z.to_nat (n_cmds pl - 1)) ->
  reaches_program (execute_pipeline pl w) ->
  let w' := final (execute_pipeline pl w) in
  let former := default EmptyString (fs w !! file) in
  let appending := bool_decide (op = ">>") in
  let flags := Z.lor (Z.lor O_WRONLY O_CREAT)
                     (if appending then O_APPEND else O_TRUNC) in
  (exists fd, EvOpen file flags 438 fd ∈ trace w') /\
  fdt w' !! 1 = Some (OFile file appending 0) /\
  fs w' !! file = Some (if appending then former else EmptyString) /\
  forall data,
    fs (sys_write 1 data w') !! file =
      Some (if appending then former +:+ data else data).
Proof.
  intros Hpre Hop Hparse Hshell Hstd Hchild Hreach w' former appending flags.
  destruct (parse_first_redirect pre op file post pl Hpre Hop Hparse) as [Hout Happ].
  fold appending in Happ.
  destruct (execute_pipeline_child pl w _ Hshell Hstd Hchild)
    as (pipes & wc & Hrun & Hwired & Hlen & Hj & Hfs & _).
  subst w'. rewrite Hrun in *.
  assert (Hi : Z.of_nat (Z.to_nat (n_cmds pl - 1)) = n_cmds pl - 1) by lia.
  destruct (child_stage_last pl pipes _ wc file Hwired Hout Hi Hreach)
    as (Hfd & Hfiles & Hopen).
  rewrite Hfs, Happ in *.
  assert (Hflags : redirect_flags appending = flags) by (subst flags; by destruct appending).
  rewrite Hflags in Hopen.
  assert (Hfile : fs (final (child_stage pl pipes (Z.to_nat (n_cmds pl - 1)) wc)) !! file
                  = Some (if appending then former else EmptyString)).
  { by rewrite Hfiles, lookup_insert_eq. }
  split_and!; try done.
  intros data.
  rewrite (write_to_file _ file appending _ data Hfd Hfile).
  - by destruct appending.
  - by intros ->.
Qed.

Lemma redirect_mode_from_operator_witness :
  let w := PipelineExamples.shell_world [101; 0] PipelineExamples.notes in
  let run op := final (execute_pipeline
                         (PipelineExamples.pipeline_of ["cat"; "|"; "wc"; op; "out"]) w) in
  fs (sys_write 1 "3
" (run ">")) !! "out" = Some "3
" /\
  fs (sys_write 1 "3
" (run ">>")) !! "out" = Some "old
3
" /\
  (exists fd, EvOpen "out" 577 438 fd ∈ trace (run ">")) /\
  (exists fd, EvOpen "out" 1089 438 fd ∈ trace (run ">>")).
Proof.
  intros w run.
  assert (Hstd : std_open w) by (split; eexists; vm_compute; reflexivity).
  assert (Hpre : Forall (fun t => is_redirect t = false) ["cat"; "|"; "wc"])
    by (repeat constructor).
  pose proof (redirect_mode_from_operator ["cat"; "|"; "wc"] ">" "out" []
                (PipelineExamples.pipeline_of ["cat"; "|"; "wc"; ">"; "out"]) w
                Hpre (or_introl eq_refl) eq_refl eq_refl Hstd) as Htrunc.
  pose proof (redirect_mode_from_operator ["cat"; "|"; "wc"] ">>" "out" []
                (PipelineExamples.pipeline_of ["cat"; "|"; "wc"; ">>"; "out"]) w
                Hpre (or_intror eq_refl) eq_refl eq_refl Hstd) as Happ.
  destruct Htrunc as (Hopen1 & _ & _ & Hwrite1);
    [vm_compute; reflexivity|vm_compute; exact I|].
  destruct Happ as (Hopen2 & _ & _ & Hwrite2);
    [vm_compute; reflexivity|vm_compute; exact I|].
  split; [exact (Hwrite1 "3
")|]. split; [exact (Hwrite2 "3
")|]. split; [exact Hopen1|exact Hopen2].
Defined.

(** X30. A redirection operator [>] or [>>] with its file name, put
    at any position of a command line that parses and has no
    redirection: the line still parses, to the same stages, with the
    file and the mode of the operator recorded.  In the launch of the
    result from a shell whose standard input and output are open, the
    child of the last stage that gets as far as its program has the
    file on its standard output, and the child of any other stage has
    its pipe there and has touched no file. *)
Theorem redirect_inserted_anywhere pre post op file pl :
  op = ">" \/ op = ">>" ->
  parse_pipeline (pre ++ post) = ParseOk pl ->
  outfile pl = None ->
  exists pl',
    parse_pipeline (pre ++ op :: file :: post) = ParseOk pl' /\
    stages pl' = stages pl /\ n_cmds pl' = n_cmds pl /\
    outfile pl' = Some file /\ append pl' = bool_decide (op = ">>") /\
    forall w j,
      in_child w = None ->
      std_open w ->
      in_child (final (execute_pipeline pl' w)) = Some j ->
      reaches_program (execute_pipeline pl' w) ->
      if decide (Z.of_nat j = n_cmds pl - 1)
      then fdt (final (execute_pipeline pl' w)) !! 1
           = Some (OFile file (bool_decide (op = ">>")) 0)
      else (exists k, fdt (final (execute_pipeline pl' w)) !! 1 = Some (OPipeW k))
           /\ fs (final (execute_pipeline pl' w)) = fs w.
Proof.
  intros Hmode Hparse Hnone.
  destruct (operator_mode op Hmode) as [Hop Happ].
  set (pl' := set_redirect file (is_append op) pl).
  exists pl'. split; [|split; [done|split; [done|split; [done|split; [done|]]]]].
  - unfold parse_pipeline in *.
    destruct (pre ++ post) as [|t ts] eqn:Hall; [done|]. rewrite <- Hall in Hparse.
    destruct (pre ++ op :: file :: post) as [|t' ts'] eqn:Hall'.
    { by destruct pre. }
    rewrite <- Hall'. by apply parse_loop_insert_redirect.
  - intros w j Hshell Hstd Hchild Hreach.
    destruct (execute_pipeline_child pl' w j Hshell Hstd Hchild)
      as (pipes & wc & Hrun & Hwired & Hlen & Hj & Hfs & _).
    rewrite Hrun in *.
    change (n_cmds pl') with (n_cmds pl) in *.
    destruct (decide (Z.of_nat j = n_cmds pl - 1)) as [Hlast|Hlast].
    + rewrite <- Happ.
      by destruct (child_stage_last pl' pipes j wc file Hwired eq_refl Hlast Hreach).
    + destruct (child_stage_inner pl' pipes j wc Hwired Hlen) as (_ & Hfiles & Hout).
      { change (n_cmds pl') with (n_cmds pl). lia. }
      split; [done|]. by rewrite Hfiles.
Qed.

Lemma redirect_inserted_anywhere_witness :
  let pl' := PipelineExamples.pipeline_of ["ls"; ">>"; "out"; "|"; "wc"] in
  let last_child := final (execute_pipeline pl'
                      (PipelineExamples.shell_world [101; 0] PipelineExamples.notes)) in
  let first_child := final (execute_pipeline pl'
                      (PipelineExamples.shell_world [0] PipelineExamples.notes)) in
  stages pl' = [["ls"]; ["wc"]] /\
  fdt last_child !! 1 = Some (OFile "out" true 0) /\
  (exists k, fdt first_child !! 1 = Some (OPipeW k)) /\
  fs first_child = PipelineExamples.notes.
Proof.
  intros pl' last_child first_child.
  destruct (redirect_inserted_anywhere ["ls"] ["|"; "wc"] ">>" "out"
              (PipelineExamples.pipeline_of ["ls"; "|"; "wc"])
              (or_intror eq_refl) eq_refl eq_refl)
    as (pl2 & Hparse & Hstages & _ & _ & _ & Hlaunch).
  assert (Hpl : pl2 = pl') by (vm_compute in Hparse; by injection Hparse as <-).
  subst pl2. split; [rewrite Hstages; reflexivity|].
  pose proof (Hlaunch (PipelineExamples.shell_world [101; 0] PipelineExamples.notes) 1%nat)
    as Hlast.
  pose proof (Hlaunch (PipelineExamples.shell_world [0] PipelineExamples.notes) 0%nat)
    as Hfirst.
  split; [|exact (Hfirst eq_refl ltac:(split; eexists; vm_compute; reflexivity)
                         ltac:(vm_compute; reflexivity) ltac:(vm_compute; exact I))].
  exact (Hlast eq_refl ltac:(split; eexists; vm_compute; reflexivity)
               ltac:(vm_compute; reflexivity) ltac:(vm_compute; exact I)).
Defined.

End Redirection.

(* ================================================================== *)
(** * The job table *)
(* ================================================================== *)

Section JobTable.
Import Libc Control Wait Phase3 Phase3Shell.

Implicit Types (sh : shell) (p q : Z) (js : list job_t) (jb : job_t).

(** ** Lookups after an update *)

Lemma list_find_insert_miss {A} (P : A -> Prop) `{!forall x, Decision (P x)}
    (l : list A) i (x y : A) :
  l !! i = Some y -> ~ P y -> ~ P x ->
  list_find P (<[i := x]> l) = list_find P l.
Proof.
  intros Hi Hy Hx.
  destruct (list_find P l) as [[k z]|] eqn:Hfind.
  - apply list_find_Some in Hfind as (Hk & Hz & Hbefore).
    apply list_find_Some.
    assert (k <> i) by (intros ->; congruence).
    split; [by rewrite list_lookup_insert_ne|]. split; [done|].
    intros j w Hj Hlt. destruct (decide (j = i)) as [->|Hne].
    + rewrite list_lookup_insert_eq in Hj by (by eapply lookup_lt_Some).
      by injection Hj as <-.
    + rewrite list_lookup_insert_ne in Hj by done. by eapply Hbefore.
  - apply list_find_None. apply list_find_None in Hfind.
    rewrite Forall_forall in *. intros w Hw.
    apply list_elem_of_lookup in Hw as [j Hj].
    destruct (decide (j = i)) as [->|Hne].
    + rewrite list_lookup_insert_eq in Hj by (by eapply lookup_lt_Some).
      by injection Hj as <-.
    + rewrite list_lookup_insert_ne in Hj by done.
      apply Hfind. by eapply list_elem_of_lookup_2.
Qed.

Lemma list_find_insert_hit {A} (P : A -> Prop) `{!forall x, Decision (P x)}
    (l : list A) i (x : A) :
  (i < length l)%nat -> P x ->
  (forall j y, (j < i)%nat -> l !! j = Some y -> ~ P y) ->
  list_find P (<[i := x]> l) = Some (i, x).
Proof.
  intros Hi Hx Hbefore. apply list_find_Some.
  split; [by apply list_lookup_insert_eq|]. split; [done|].
  intros j y Hj Hlt. rewrite list_lookup_insert_ne in Hj by lia. by eapply Hbefore.
Qed.

(** X18. [addjob] and the lookups.  With a free slot in the table,
    [addjob] returns 1 and puts the job, under the next job id and
    with the command text cut to [MAXLINE - 1] characters, into the
    first free slot; when no slot held the process before,
    [getjob_pid] then finds the job there, and it finds for any other
    process what it found before. *)
Theorem addjob_then_getjob sh p g s cmd i free :
  free_slot (jobs sh) = Some (i, free) ->
  p <> 0 ->
  getjob_pid (jobs sh) p = None ->
  let jb := mkjob p g (nextjid sh) s (snprintf_s MAXLINE cmd) in
  let sh' := (addjob p g s cmd sh).2 in
  (addjob p g s cmd sh).1 = 1 /\
  jobs sh' = <[i := jb]> (jobs sh) /\
  getjob_pid (jobs sh') p = Some (i, jb) /\
  (forall q, q <> p -> q <> 0 -> getjob_pid (jobs sh') q = getjob_pid (jobs sh) q) /\
  log sh' = log sh.
Proof.
  intros Hfree Hp Hnew jb sh'. subst sh'. unfold addjob. rewrite Hfree.
  cbn [fst snd jobs log set_nextjid set_jobs]. fold jb.
  apply list_find_Some in Hfree as (Hi & Hzero & _).
  apply list_find_None in Hnew. rewrite Forall_lookup in Hnew.
  split; [done|]. split; [done|]. split; [|split; [|done]].
  - unfold getjob_pid. apply list_find_insert_hit; [by eapply lookup_lt_Some|done|].
    intros j y _ Hj. by eapply Hnew.
  - intros q Hq Hq0. unfold getjob_pid.
    apply (list_find_insert_miss _ _ _ _ free); [done|congruence|done].
Qed.

Lemma addjob_then_getjob_witness :
  let sh := Examples.fresh [] [] in
  getjob_pid (jobs (addjob 101 101 BG "sleep 100 &" sh).2) 101
    = Some (0%nat, mkjob 101 101 1 BG "sleep 100 &").
Proof.
  intros sh.
  refine (proj1 (proj2 (proj2 (addjob_then_getjob sh 101 101 BG "sleep 100 &"
                                  0%nat clearjob _ _ _)))).
  - reflexivity.
  - lia.
  - reflexivity.
Defined.

(** X19. [deletejob] and the lookups.  For a process that one slot
    holds and no other, [deletejob] clears that slot: [getjob_pid] no
    longer finds the process, finds for any other process what it
    found before, and the slot is free again; for a process that no
    slot holds, [deletejob] changes nothing. *)
Theorem deletejob_then_getjob sh p :
  p <> 0 ->
  match getjob_pid (jobs sh) p with
  | Some (i, jb) =>
      only_at i p (jobs sh) ->
      jobs (deletejob p sh) = <[i := clearjob]> (jobs sh) /\
      getjob_pid (jobs (deletejob p sh)) p = None /\
      (forall q, q <> p -> q <> 0 ->
         getjob_pid (jobs (deletejob p sh)) q = getjob_pid (jobs sh) q) /\
      is_Some (free_slot (jobs (deletejob p sh)))
  | None => deletejob p sh = sh
  end.
Proof.
  intros Hp. unfold deletejob.
  destruct (getjob_pid (jobs sh) p) as [[i jb]|] eqn:Hfind; [|done].
  intros Honly. cbn [jobs set_jobs].
  apply list_find_Some in Hfind as (Hi & Hpid & _).
  assert (Hlen : (i < length (jobs sh))%nat) by (by eapply lookup_lt_Some).
  split; [done|]. split; [|split].
  - apply list_find_None, Forall_lookup. intros j y Hj.
    destruct (decide (j = i)) as [->|Hne].
    + rewrite list_lookup_insert_eq in Hj by done. injection Hj as <-. cbn. congruence.
    + rewrite list_lookup_insert_ne in Hj by done. intros Hy.
      by specialize (Honly j y Hj Hy).
  - intros q Hq Hq0. unfold getjob_pid.
    apply (list_find_insert_miss _ _ _ _ jb); [done|congruence|cbn; congruence].
  - apply free_slot_tracked. exists i, clearjob.
    by rewrite list_lookup_insert_eq.
Qed.

Lemma deletejob_then_getjob_witness :
  let sh := (addjob 101 101 BG "sleep 100 &" (Examples.fresh [] [])).2 in
  getjob_pid (jobs (deletejob 101 sh)) 101 = None.
Proof.
  intros sh.
  pose proof (deletejob_then_getjob sh 101 ltac:(lia)) as H.
  change (getjob_pid (jobs sh) 101)
    with (Some (0%nat, mkjob 101 101 1 BG "sleep 100 &")) in H.
  refine (proj1 (proj2 (H _))).
  intros j jb Hj Hpid. destruct j as [|j]; [done|].
  exfalso. change (jobs sh) with (mkjob 101 101 1 BG "sleep 100 &" :: replicate 15 clearjob) in Hj.
  rewrite lookup_cons_ne_0, lookup_replicate in Hj by done.
  destruct Hj as [-> _]. cbn in Hpid. lia.
Defined.

End JobTable.

(* ================================================================== *)
(** * What the handler leaves alone, and [waitfg] *)
(* ================================================================== *)

Section Stable.
Import Libc Control Wait Phase3 Phase3Shell.

Implicit Types (sh : shell) (p q : Z) (js : list job_t) (jb : job_t)
  (T : list job_t -> Prop).

(** ** What the handler leaves alone *)

Lemma reap_one_globals n sh :
  nextjid (reap_one n sh) = nextjid sh /\
  shell_pgid (reap_one n sh) = shell_pgid sh /\
  execvp_ok (reap_one n sh) = execvp_ok sh.
Proof.
  destruct n as [q st]. unfold reap_one.
  destruct (getjob_pid (jobs sh) q) as [[i jb]|] eqn:Hfind;
    cbn [fmap option_fmap option_map fst]; [|done].
  destruct st; cbn [WIFSTOPPED WIFCONTINUED WIFSIGNALED WIFEXITED];
    rewrite ?(deletejob_found q _ i jb) by exact Hfind; done.
Qed.

Lemma drain_globals ns sh :
  nextjid (drain ns sh) = nextjid sh /\
  shell_pgid (drain ns sh) = shell_pgid sh /\
  execvp_ok (drain ns sh) = execvp_ok sh.
Proof.
  revert sh. induction ns as [|n ns IH]; intros sh; [done|].
  cbn [drain]. destruct (0 <? n.1); [|done].
  destruct (IH (reap_one n sh)) as (-> & -> & ->). apply reap_one_globals.
Qed.

Lemma handler_globals sh :
  nextjid (sigchld_handler sh) = nextjid sh /\
  shell_pgid (sigchld_handler sh) = shell_pgid sh /\
  execvp_ok (sigchld_handler sh) = execvp_ok sh.
Proof. unfold sigchld_handler. apply (drain_globals _ (set_pending [] sh)). Qed.

Lemma deliver_globals sh :
  nextjid (deliver sh) = nextjid sh /\
  shell_pgid (deliver sh) = shell_pgid sh /\
  execvp_ok (deliver sh) = execvp_ok sh.
Proof.
  unfold deliver. destruct (sigchld_blocked sh); [done|].
  destruct (pending sh); [done|]. apply handler_globals.
Qed.

Lemma arrive_globals sh :
  nextjid (arrive sh) = nextjid sh /\
  shell_pgid (arrive sh) = shell_pgid sh /\
  execvp_ok (arrive sh) = execvp_ok sh.
Proof.
  unfold arrive. destruct (arrivals sh) as [|b rest]; [done|].
  apply (deliver_globals (set_pending (pending sh ++ b) (set_arrivals rest sh))).
Qed.

Lemma waitfg_loop_globals fuel p sh :
  nextjid (final (waitfg_loop fuel p sh)) = nextjid sh /\
  shell_pgid (final (waitfg_loop fuel p sh)) = shell_pgid sh /\
  execvp_ok (final (waitfg_loop fuel p sh)) = execvp_ok sh.
Proof.
  revert sh. induction fuel as [|fuel IH]; intros sh; cbn [waitfg_loop];
    destruct (fgpid (jobs sh) =? p); try done.
  cbv zeta. destruct (arrive_globals sh) as (<- & <- & <-).
  generalize (arrive sh). clear sh. intros sh.
  unfold sigsuspend.
  destruct (pending sh) eqn:Hp; [destruct (arrivals sh) as [|b rest] eqn:Ha|]; try done.
  - destruct (IH (sigchld_handler (set_pending b (set_arrivals rest sh)))) as (-> & -> & ->).
    apply (handler_globals (set_pending b (set_arrivals rest sh))).
  - destruct (IH (sigchld_handler sh)) as (-> & -> & ->). apply handler_globals.
Qed.

(** ** Properties of the table that the handler keeps *)

Lemma stable_reap_one T n sh :
  handler_stable T -> 0 < n.1 -> T (jobs sh) -> T (jobs (reap_one n sh)).
Proof.
  destruct n as [q st]. cbn [fst]. intros HT Hq Hjs.
  destruct (reap_one_jobs q st sh) as [->|(i & jb & x & Hfind & -> & Hx)]; [done|].
  apply list_find_Some in Hfind as (Hi & Hp & _).
  eapply HT; [done|exact Hi|lia|done].
Qed.

Lemma stable_drain T ns sh :
  handler_stable T -> T (jobs sh) -> T (jobs (drain ns sh)).
Proof.
  intros HT. revert sh. induction ns as [|n ns IH]; intros sh Hjs; [done|].
  cbn [drain]. destruct (0 <? n.1) eqn:Hn; [|done].
  apply IH, stable_reap_one; [done|by apply Z.ltb_lt|done].
Qed.

Lemma stable_handler T sh :
  handler_stable T -> T (jobs sh) -> T (jobs (sigchld_handler sh)).
Proof. intros HT Hjs. unfold sigchld_handler. by apply stable_drain. Qed.

Lemma stable_deliver T sh :
  handler_stable T -> T (jobs sh) -> T (jobs (deliver sh)).
Proof.
  intros HT Hjs. unfold deliver. destruct (sigchld_blocked sh); [done|].
  destruct (pending sh); [done|]. by apply stable_handler.
Qed.

Lemma stable_arrive T sh :
  handler_stable T -> T (jobs sh) -> T (jobs (arrive sh)).
Proof.
  intros HT Hjs. unfold arrive. destruct (arrivals sh); [done|].
  by apply stable_deliver.
Qed.

Lemma stable_waitfg_loop T fuel p sh :
  handler_stable T -> T (jobs sh) -> T (jobs (final (waitfg_loop fuel p sh))).
Proof.
  intros HT. revert sh. induction fuel as [|fuel IH]; intros sh Hjs; cbn [waitfg_loop];
    destruct (fgpid (jobs sh) =? p); try done.
  cbv zeta. apply (stable_arrive T sh HT) in Hjs.
  revert Hjs. generalize (arrive sh). clear sh. intros sh Hjs.
  unfold sigsuspend.
  destruct (pending sh) eqn:Hp; [destruct (arrivals sh) eqn:Ha|]; try done;
    apply IH, stable_handler; done.
Qed.

Lemma jobs_ok_stable : handler_stable jobs_ok.
Proof.
  intros js i jb x [Hlen Hjids] Hi _ Hx. split; [by rewrite length_insert|].
  apply Forall_insert; [done|].
  rewrite Forall_lookup in Hjids. specialize (Hjids i jb Hi).
  destruct Hx as [-> | ->]; cbn; [unfold MAXJOBS; lia|done].
Qed.

Lemma no_foreground_stable : handler_stable no_foreground.
Proof.
  intros js i jb x Hjs Hi _ Hx. apply Forall_insert; [done|].
  by destruct Hx as [-> | ->].
Qed.

Lemma foreground_at_stable i p : p <= 0 -> handler_stable (foreground_at i p).
Proof.
  intros Hp js k jb x [(fg & Hi & Hpid & Hfg) Hbefore] Hk Hpos Hx.
  assert (k <> i) by (intros ->; rewrite Hi in Hk; injection Hk as ->; lia).
  split.
  - exists fg. by rewrite list_lookup_insert_ne.
  - intros j y Hj Hy. destruct (decide (j = k)) as [->|Hne].
    + rewrite list_lookup_insert_eq in Hy by (by eapply lookup_lt_Some).
      injection Hy as <-. by destruct Hx as [-> | ->].
    + rewrite list_lookup_insert_ne in Hy by done. by eapply Hbefore.
Qed.

Lemma jid_of_stable p n : p <> 0 -> handler_stable (jid_of p n).
Proof.
  intros Hp js i jb x Hjs Hi _ Hx. apply Forall_insert; [done|].
  unfold jid_of in Hjs. rewrite Forall_lookup in Hjs. specialize (Hjs i jb Hi).
  destruct Hx as [-> | ->]; cbn; [congruence|done].
Qed.

(** ** [waitfg] *)

Lemma waitfg_loop_returns fuel p sh sh' :
  waitfg_loop fuel p sh = Ret tt sh' -> fgpid (jobs sh') <> p.
Proof.
  revert sh. induction fuel as [|fuel IH]; intros sh; cbn [waitfg_loop];
    destruct (Z.eqb_spec (fgpid (jobs sh)) p) as [Hfg|Hfg]; try done;
    try (by intros [= <-]).
  cbv zeta. destruct (sigsuspend (arrive sh)); [apply IH|done].
Qed.

Lemma waitfg_loop_ends fuel p sh :
  match waitfg_loop fuel p sh with
  | Ret _ _ | Hang _ => True
  | _ => False
  end.
Proof.
  revert sh. induction fuel as [|fuel IH]; intros sh; cbn [waitfg_loop];
    destruct (fgpid (jobs sh) =? p); try done.
  cbv zeta. destruct (sigsuspend (arrive sh)); [apply IH|done].
Qed.

(** X20. [waitfg] never ends the process.  It returns only once
    [fgpid()] no longer answers with the process waited for.  It is
    left suspended for ever only when nothing is pending and no child
    will change state any more; and that happens even though the job
    is gone when the last report, that the foreground process has
    ended, arrives between the test of the loop and [sigsuspend]: the
    handler clears the job, and the shell sleeps all the same. *)
Theorem waitfg_outcomes p sh :
  match waitfg p sh with
  | Ret _ sh' => fgpid (jobs sh') <> p
  | Hang sh' => pending sh' = [] /\ arrivals sh' = []
  | _ => False
  end /\
  (forall i jb c,
     0 < p -> fgpid (jobs sh) = p ->
     getjob_pid (jobs sh) p = Some (i, jb) ->
     sigchld_blocked sh = false -> pending sh = [] ->
     arrivals sh = [[(p, WExited c)]] ->
     exists sh', waitfg p sh = Hang sh' /\
                 jobs sh' = <[i := clearjob]> (jobs sh)).
Proof.
  split.
  - pose proof (waitfg_loop_ends (S (S (length (arrivals sh)))) p sh) as Hends.
    pose proof (waitfg_loop_returns (S (S (length (arrivals sh)))) p sh) as Hret.
    pose proof (waitfg_hangs_when_quiet p sh) as Hhang.
    unfold waitfg in *.
    destruct (waitfg_loop _ p sh) as [[] sh'| | |sh']; try done.
    + by apply Hret.
    + by apply Hhang.
  - intros i jb c Hp Hfg Hfind Hunblocked Hpend Harr.
    unfold waitfg. rewrite Harr. cbn [length waitfg_loop].
    rewrite (proj2 (Z.eqb_eq _ _) Hfg). cbv zeta.
    set (sh0 := set_pending [] (set_pending [(p, WExited c)] (set_arrivals [] sh))).
    assert (Harrive : arrive sh =
              set_jobs (<[i := clearjob]> (jobs sh))
                       (emit (EvReap p (WExited c) (Some i)) sh0)).
    { unfold arrive, deliver. rewrite Harr, Hpend.
      cbn [app sigchld_blocked set_pending set_arrivals pending].
      rewrite Hunblocked. unfold sigchld_handler.
      cbn [pending set_pending drain fst].
      rewrite (proj2 (Z.ltb_lt 0 p) Hp). fold sh0.
      unfold reap_one. change (jobs sh0) with (jobs sh). rewrite Hfind.
      cbn [fmap option_fmap option_map fst WIFSTOPPED WIFCONTINUED WIFSIGNALED WIFEXITED].
      by rewrite (deletejob_found p _ i jb) by exact Hfind. }
    rewrite Harrive. eexists. split; [reflexivity|done].
Qed.

Lemma waitfg_outcomes_witness :
  let sh := set_arrivals [[(101, WExited 0)]]
              (set_jobs (<[0%nat := mkjob 101 101 1 FG "sleep 3"]> (replicate 16 clearjob))
                        (Examples.fresh [] [])) in
  exists sh', waitfg 101 sh = Hang sh' /\ jobs sh' = replicate 16 clearjob.
Proof.
  intros sh.
  destruct (waitfg_outcomes 101 sh) as [_ Hlost].
  destruct (Hlost 0%nat (mkjob 101 101 1 FG "sleep 3") 0)
    as (sh' & Hrun & Hjobs); try reflexivity.
  exists sh'. split; [exact Hrun|]. rewrite Hjobs. reflexivity.
Defined.

End Stable.

(* ================================================================== *)
(** * The shape of the job table *)
(* ================================================================== *)

Section TableInvariant.
Import Libc Control Wait Phase3 Phase3Shell.

Implicit Types (sh : shell) (p q : Z) (js : list job_t) (jb : job_t)
  (I : shell -> Prop).

Lemma keeps_ret {A} I (a : A) : keeps I (ret a).
Proof. by intros sh. Qed.

Lemma keeps_bind {A B} I (m : M shell A) (k : A -> M shell B) :
  keeps I m -> (forall a, keeps I (k a)) -> keeps I (bind m k).
Proof.
  intros Hm Hk sh Hsh. unfold bind. specialize (Hm sh Hsh).
  destruct (m sh) as [a s'| | |]; cbn [final] in *; try done.
  by apply Hk.
Qed.

Lemma keeps_get {A} I (k : shell -> M shell A) :
  (forall s, keeps I (k s)) -> keeps I (bind get k).
Proof. intros Hk sh Hsh. rewrite bind_get. by apply Hk. Qed.

Lemma keeps_exit {A} I c : keeps I (exit (A := A) c).
Proof. by intros sh. Qed.

Lemma keeps_exec {A} I prog argv : keeps I (exec (A := A) prog argv).
Proof. by intros sh. Qed.

Lemma keeps_if {A} I (b : bool) (m1 m2 : M shell A) :
  keeps I m1 -> keeps I m2 -> keeps I (if b then m1 else m2).
Proof. by destruct b. Qed.

(** ** The table keeps its shape *)

Lemma table_ok_arrive sh : table_ok sh -> table_ok (arrive sh).
Proof.
  intros [Hjobs Hnext]. split.
  - apply (stable_arrive jobs_ok); [apply jobs_ok_stable|done].
  - by destruct (arrive_globals sh) as (-> & _).
Qed.

Lemma table_ok_deliver sh : table_ok sh -> table_ok (deliver sh).
Proof.
  intros [Hjobs Hnext]. split.
  - apply (stable_deliver jobs_ok); [apply jobs_ok_stable|done].
  - by destruct (deliver_globals sh) as (-> & _).
Qed.

Lemma keeps_table_syscall e : keeps table_ok (syscall e).
Proof. intros sh Hsh. by apply table_ok_arrive in Hsh. Qed.

Lemma keeps_table_waitfg p : keeps table_ok (waitfg p).
Proof.
  intros sh [Hjobs Hnext]. unfold waitfg. split.
  - apply (stable_waitfg_loop jobs_ok); [apply jobs_ok_stable|done].
  - by destruct (waitfg_loop_globals (S (S (length (arrivals sh)))) p sh) as (-> & _).
Qed.

Lemma keeps_table_set_state i s :
  keeps table_ok
    (modify (fun sh => set_jobs (<[i := set_state s (job_at i sh)]> (jobs sh)) sh)).
Proof.
  intros sh [[Hlen Hjids] Hnext]. split; [|done].
  split; cbn [final modify jobs set_jobs].
  - by rewrite length_insert.
  - apply Forall_insert; [done|]. unfold job_at.
    destruct (jobs sh !! i) as [jb|] eqn:Hi; cbn; [|unfold MAXJOBS; lia].
    rewrite Forall_lookup in Hjids. by apply (Hjids i jb).
Qed.

Lemma keeps_table_addjob p g s cmd : keeps table_ok (addjob_m p g s cmd).
Proof.
  intros sh [[Hlen Hjids] Hnext]. unfold addjob_m, addjob.
  destruct (free_slot (jobs sh)) as [[i jb0]|]; cbn [final]; [|done].
  split; [split|]; cbn [jobs nextjid emit set_nextjid set_jobs].
  - by rewrite length_insert.
  - apply Forall_insert; [done|]. cbn. lia.
  - unfold MAXJOBS in *. destruct (16 <? nextjid sh + 1) eqn:Hw; lia.
Qed.

Lemma keeps_table_do_bgfg argv fg : keeps table_ok (do_bgfg argv fg).
Proof.
  unfold do_bgfg. destruct (argv !! 1%nat) as [a1|]; [|apply keeps_table_syscall].
  destruct (negb _); [apply keeps_table_syscall|].
  apply keeps_get. intros s.
  destruct (getjob_jid (jobs s) _) as [[i jb]|]; [|apply keeps_table_syscall].
  apply keeps_bind; [apply keeps_table_syscall|intros _].
  destruct fg.
  - apply keeps_bind; [apply keeps_table_set_state|intros _].
    apply keeps_bind; [apply keeps_get; intros ?; apply keeps_table_syscall|intros _].
    apply keeps_bind; [apply keeps_get; intros ?; apply keeps_table_waitfg|intros _].
    apply keeps_get; intros ?; apply keeps_table_syscall.
  - apply keeps_bind; [apply keeps_table_set_state|intros _].
    apply keeps_get; intros ?; apply keeps_table_syscall.
Qed.

Lemma keeps_table_builtin argv : keeps table_ok (builtin_cmd argv).
Proof.
  unfold builtin_cmd. destruct argv as [|a0 args]; [apply keeps_ret|].
  destruct (_ || _); [apply keeps_exit|].
  destruct (streq a0 "fg").
  { apply keeps_bind; [apply keeps_table_do_bgfg|intros _; apply keeps_ret]. }
  destruct (streq a0 "bg").
  { apply keeps_bind; [apply keeps_table_do_bgfg|intros _; apply keeps_ret]. }
  apply keeps_ret.
Qed.

Lemma keeps_table_block : keeps table_ok sigprocmask_block.
Proof. intros sh Hsh. by apply table_ok_arrive in Hsh. Qed.

Lemma keeps_table_unblock : keeps table_ok sigprocmask_unblock.
Proof.
  intros sh Hsh. apply table_ok_arrive in Hsh.
  unfold sigprocmask_unblock, modify. cbn [final].
  by apply table_ok_deliver.
Qed.

Lemma keeps_table_fork : keeps table_ok fork.
Proof.
  intros sh Hsh. apply table_ok_arrive in Hsh. unfold fork.
  by destruct (fork_results (arrive sh)).
Qed.

Lemma keeps_table_eval cmdline : keeps table_ok (eval cmdline).
Proof.
  unfold eval. destruct (split_line _) as [argv bg].
  case_bool_decide; [apply keeps_ret|].
  apply keeps_bind; [apply keeps_table_builtin|intros b].
  destruct (negb _); [apply keeps_ret|].
  apply keeps_bind; [apply keeps_table_block|intros _].
  apply keeps_bind; [apply keeps_table_fork|intros p].
  destruct (p =? 0).
  - repeat (apply keeps_bind; [first [apply keeps_table_unblock|apply keeps_table_syscall]|intros _]).
    apply keeps_get. intros s. destruct (execvp_ok s _); [apply keeps_exec|].
    apply keeps_bind; [apply keeps_table_syscall|intros _; apply keeps_exit].
  - apply keeps_bind; [apply keeps_table_syscall|intros _].
    apply keeps_bind.
    { apply keeps_bind; [apply keeps_table_addjob|intros _; apply keeps_ret]. }
    intros _.
    apply keeps_bind; [apply keeps_table_unblock|intros _].
    destruct (negb bg).
    + apply keeps_bind; [apply keeps_table_syscall|intros _].
      apply keeps_bind; [apply keeps_table_waitfg|intros _].
      apply keeps_get; intros ?; apply keeps_table_syscall.
    + apply keeps_get; intros ?; apply keeps_table_syscall.
Qed.

Lemma keeps_table_session lines : keeps table_ok (session lines).
Proof.
  induction lines as [|line lines IH]; [apply keeps_ret|].
  cbn [session].
  apply keeps_bind; [apply keeps_table_syscall|intros _].
  apply keeps_bind; [apply keeps_table_eval|intros _]. exact IH.
Qed.

(** X21. Whatever lines the shell reads and whatever its children
    do, the job table keeps its shape from [initjobs] on: it has its
    [MAXJOBS] slots, the job id of a slot is 0 or one of 1 to
    [MAXJOBS], and [nextjid] is one of 1 to [MAXJOBS]. *)
Theorem main_keeps_table lines sh :
  table_ok (final (main lines sh)) /\
  (table_ok sh -> forall line, table_ok (final (eval line sh))).
Proof.
  split; [|intros Hsh line; by apply keeps_table_eval].
  assert (Hmain : main lines sh =
            main_loop lines
              (initjobs (emit (EvTcsetpgrp (shell_pgid sh))
                              (emit (EvSetpgid (shell_pgid sh) (shell_pgid sh)) sh))))
    by reflexivity.
  rewrite Hmain. unfold main_loop.
  apply keeps_bind.
  - apply keeps_table_session.
  - intros _. apply keeps_bind; [apply keeps_table_syscall|intros _].
    apply keeps_bind; [apply keeps_table_syscall|intros _]. apply keeps_exit.
  - split; [split|]; cbn; try done.
    apply Forall_replicate. done.
Qed.

End TableInvariant.

(* ================================================================== *)
(** * Launching a command in Phase 3 *)
(* ================================================================== *)

Section ShellLaunch.
Import Libc Control Wait Phase3 Phase3Shell.

Implicit Types (sh : shell) (p q : Z) (js : list job_t) (jb : job_t).

(** The run of [eval] in the shell, up to [setpgid]. *)
Lemma eval_parent sh cmdline argv bg p rest :
  split_line (snprintf_s MAXLINE cmdline) = (argv, bg) ->
  (forall s, builtin_cmd argv s = Ret 0 s) ->
  fork_results sh = p :: rest ->
  p <> 0 ->
  exists s3,
    eval cmdline sh = register_and_wait p bg cmdline s3 /\
    sigchld_blocked s3 = true /\
    jobs s3 = jobs (arrive sh) /\
    nextjid s3 = nextjid sh /\ shell_pgid s3 = shell_pgid sh /\
    log s3 = log (arrive sh) ++ [EvSigBlock; EvFork p; EvSetpgid p p].
Proof.
  intros Hsplit Hnb Hfork Hp.
  assert (Hne : argv <> []).
  { intros ->. specialize (Hnb sh). cbn in Hnb. discriminate. }
  set (s1 := emit EvSigBlock (set_blocked true (arrive sh))).
  set (s2 := emit (EvFork p) (set_fork_results rest (arrive s1))).
  set (s3 := emit (EvSetpgid p p) (arrive s2)).
  destruct (arrive_frame sh) as [Hf0 _].
  destruct (arrive_frame s1) as [Hf1 Hb1].
  destruct (arrive_frame s2) as [_ Hb2].
  change (fork_results s1) with (fork_results (arrive sh)) in Hf1.
  change (sigchld_blocked s1) with true in Hb1.
  change (sigchld_blocked s2) with (sigchld_blocked (arrive s1)) in Hb2.
  rewrite Hb1 in Hb2.
  destruct (arrive_blocked s1 eq_refl) as (Hj1 & Hl1 & Hn1).
  destruct (arrive_blocked s2 Hb1) as (Hj2 & Hl2 & Hn2).
  exists s3. split.
  { unfold eval. rewrite Hsplit.
    rewrite bool_decide_eq_false_2 by done.
    rewrite (bind_Ret _ _ _ 0 sh) by apply Hnb.
    cbn [Z.eqb negb].
    rewrite (bind_Ret _ _ _ tt s1) by done.
    rewrite (bind_Ret _ _ _ p s2).
    2:{ unfold fork. rewrite Hf1, Hf0, Hfork. done. }
    rewrite (proj2 (Z.eqb_neq p 0)) by lia.
    rewrite (bind_Ret _ _ _ tt s3) by done.
    done. }
  split; [exact Hb2|].
  split.
  { change (jobs s3) with (jobs (arrive s2)). rewrite Hj2.
    change (jobs s2) with (jobs (arrive s1)). by rewrite Hj1. }
  split.
  { change (nextjid s3) with (nextjid (arrive s2)). rewrite Hn2.
    change (nextjid s2) with (nextjid (arrive s1)). rewrite Hn1.
    change (nextjid s1) with (nextjid (arrive sh)).
    by destruct (arrive_globals sh) as (-> & _). }
  split.
  { change (shell_pgid s3) with (shell_pgid (arrive s2)).
    destruct (arrive_globals s2) as (_ & -> & _).
    change (shell_pgid s2) with (shell_pgid (arrive s1)).
    destruct (arrive_globals s1) as (_ & -> & _).
    change (shell_pgid s1) with (shell_pgid (arrive sh)).
    by destruct (arrive_globals sh) as (_ & -> & _). }
  subst s3. cbn [log emit]. rewrite Hl2.
  subst s2. cbn [log emit set_fork_results]. rewrite Hl1.
  subst s1. cbn [log emit set_blocked]. by rewrite <- !app_assoc.
Qed.

(** ... and from there to the unblocking of [SIGCHLD]. *)
Lemma register_run s3 p bg cmdline :
  sigchld_blocked s3 = true ->
  exists s5,
    register_and_wait p bg cmdline s3 = wait_or_announce p bg (deliver s5) /\
    shell_pgid s5 = shell_pgid s3 /\
    match free_slot (jobs s3) with
    | Some (i, _) =>
        jobs s5 = <[i := mkjob p p (nextjid s3) (if bg then BG else FG)
                               (snprintf_s MAXLINE cmdline)]> (jobs s3) /\
        nextjid s5 = (if MAXJOBS <? nextjid s3 + 1 then 1 else nextjid s3 + 1)
    | None => jobs s5 = jobs s3 /\ nextjid s5 = nextjid s3
    end.
Proof.
  intros Hb. unfold register_and_wait.
  destruct (addjob p p (if bg then BG else FG) cmdline s3) as [ok s4'] eqn:Hadd.
  set (s4 := emit (EvAddjob p (negb (ok =? 0))) s4').
  assert (Hb4 : sigchld_blocked s4 = true).
  { subst s4. unfold addjob in Hadd.
    destruct (free_slot (jobs s3)) as [[i jb0]|]; injection Hadd as <- <-; done. }
  destruct (arrive_blocked s4 Hb4) as (Hj4 & Hl4 & Hn4).
  exists (emit EvSigUnblock (set_blocked false (arrive s4))).
  split.
  { rewrite (bind_Ret _ _ _ tt s4).
    2:{ unfold bind, addjob_m. by rewrite Hadd. }
    by rewrite (bind_Ret _ _ _ tt (deliver (emit EvSigUnblock (set_blocked false (arrive s4))))). }
  cbn [shell_pgid jobs nextjid emit set_blocked].
  destruct (arrive_globals s4) as (_ & -> & _). rewrite Hj4, Hn4.
  subst s4. unfold addjob in Hadd. cbn [shell_pgid jobs nextjid emit].
  destruct (free_slot (jobs s3)) as [[i jb0]|]; injection Hadd as <- <-; done.
Qed.

Lemma fgpid_foreground_at i p js : foreground_at i p js -> fgpid js = p.
Proof.
  intros [(jb & Hi & Hp & Hfg) Hbefore]. unfold fgpid.
  assert (Hfind : list_find (fun jb => state jb = FG) js = Some (i, jb)).
  { apply list_find_Some. split; [done|]. split; [done|].
    intros j y Hj Hlt. by eapply Hbefore. }
  by rewrite Hfind.
Qed.

(** A wait for a process id that no child has never ends. *)
Lemma waitfg_stuck i p sh :
  p <= 0 -> foreground_at i p (jobs sh) ->
  exists sh', waitfg p sh = Hang sh' /\ foreground_at i p (jobs sh').
Proof.
  intros Hp Hfg. unfold waitfg.
  pose proof (waitfg_loop_ends (S (S (length (arrivals sh)))) p sh) as Hends.
  pose proof (waitfg_loop_returns (S (S (length (arrivals sh)))) p sh) as Hret.
  pose proof (stable_waitfg_loop _ (S (S (length (arrivals sh)))) p sh
                (foreground_at_stable i p Hp) Hfg) as Hst.
  destruct (waitfg_loop _ p sh) as [[] sh'| | |sh']; try done.
  - cbn in Hst. apply fgpid_foreground_at in Hst. by destruct (Hret sh').
  - by exists sh'.
Qed.

(** X22. When [fork] fails for a foreground command, on a table with
    a free slot and no job in the foreground, [eval] never returns
    to the prompt: it registers a job for process -1 in state [FG]
    and waits for it, and whatever the children of the shell report,
    no report can be about that process. *)
Theorem fork_failure_blocks_shell sh cmdline argv rest :
  split_line (snprintf_s MAXLINE cmdline) = (argv, false) ->
  (forall s, builtin_cmd argv s = Ret 0 s) ->
  fork_results sh = -1 :: rest ->
  is_Some (free_slot (jobs sh)) ->
  no_foreground (jobs sh) ->
  exists sh' i,
    eval cmdline sh = Hang sh' /\
    foreground_at i (-1) (jobs sh') /\
    fgpid (jobs sh') = -1.
Proof.
  intros Hsplit Hnb Hfork Hfree Hnofg.
  destruct (eval_parent sh cmdline argv false (-1) rest Hsplit Hnb Hfork ltac:(lia))
    as (s3 & Heval & Hb3 & Hj3 & Hn3 & Hg3 & Hl3).
  destruct (register_run s3 (-1) false cmdline Hb3) as (s5 & Hrun & _ & Hslot).
  assert (Hfree3 : is_Some (free_slot (jobs s3))).
  { rewrite Hj3. apply free_slot_tracked, free_arrive. by apply free_slot_tracked. }
  assert (Hnofg3 : no_foreground (jobs s3)).
  { rewrite Hj3. apply (stable_arrive no_foreground); [apply no_foreground_stable|done]. }
  destruct Hfree3 as [[i jb0] Hfind]. rewrite Hfind in Hslot. destruct Hslot as [Hj5 _].
  apply list_find_Some in Hfind as (Hi & _ & _).
  assert (Hfg5 : foreground_at i (-1) (jobs s5)).
  { rewrite Hj5. split.
    - eexists. split; [apply list_lookup_insert_eq; by eapply lookup_lt_Some|done].
    - intros j y Hlt Hy. rewrite list_lookup_insert_ne in Hy by lia.
      unfold no_foreground in Hnofg3. rewrite Forall_lookup in Hnofg3. by eapply Hnofg3. }
  assert (Hst : handler_stable (foreground_at i (-1))) by (apply foreground_at_stable; lia).
  apply (stable_deliver _ _ Hst) in Hfg5.
  rewrite Heval, Hrun. unfold wait_or_announce. cbn [negb].
  unfold bind at 1. unfold tcsetpgrp at 1, syscall, modify.
  set (s6 := emit (EvTcsetpgrp (-1)) (arrive (deliver s5))).
  assert (Hfg6 : foreground_at i (-1) (jobs s6)) by (by apply (stable_arrive _ _ Hst)).
  destruct (waitfg_stuck i (-1) s6 ltac:(lia) Hfg6) as (sh' & Hwait & Hfg').
  exists sh', i. unfold bind at 1. rewrite Hwait. split; [done|]. split; [done|].
  by apply (fgpid_foreground_at i).
Qed.

Lemma fork_failure_blocks_shell_witness :
  let sh := Examples.fresh [[(55, WExited 0)]] [-1] in
  exists sh',
    eval Examples.quick sh = Hang sh' /\
    jobs sh' !! 0%nat = Some (mkjob (-1) (-1) 1 FG Examples.quick).
Proof.
  intros sh.
  destruct (fork_failure_blocks_shell sh Examples.quick ["sleep"; "3"] [])
    as (sh' & i & Hrun & _).
  - vm_compute. reflexivity.
  - intros s. reflexivity.
  - reflexivity.
  - eexists. vm_compute. reflexivity.
  - by apply Forall_replicate.
  - exists sh'. split; [exact Hrun|].
    vm_compute in Hrun. injection Hrun as <-. reflexivity.
Defined.

(** X23. A background command launched on a table with a free slot:
    [eval] returns to the prompt after one line on standard output,
    which shows [nextjid - 1] as taken after [addjob]: the job id
    given to the job, except for the job id [MAXJOBS], shown as 0;
    any slot that holds the process afterwards has the job id that
    [nextjid] was. *)
Theorem background_launch_announced sh cmdline argv p rest :
  split_line (snprintf_s MAXLINE cmdline) = (argv, true) ->
  (forall s, builtin_cmd argv s = Ret 0 s) ->
  fork_results sh = p :: rest ->
  0 < p ->
  is_Some (free_slot (jobs sh)) ->
  1 <= nextjid sh <= MAXJOBS ->
  getjob_pid (jobs sh) p = None ->
  exists sh',
    eval cmdline sh = Ret tt sh' /\
    last (log sh') =
      Some (EvStdout ("[" +:+ dec (if nextjid sh =? MAXJOBS then 0 else nextjid sh)
                          +:+ "] " +:+ dec p +:+ "
")) /\
    jid_of p (nextjid sh) (jobs sh') /\
    nextjid sh' = (if nextjid sh =? MAXJOBS then 1 else nextjid sh + 1).
Proof.
  intros Hsplit Hnb Hfork Hp Hfree Hnext Hnew.
  destruct (eval_parent sh cmdline argv true p rest Hsplit Hnb Hfork ltac:(lia))
    as (s3 & Heval & Hb3 & Hj3 & Hn3 & Hg3 & Hl3).
  destruct (register_run s3 p true cmdline Hb3) as (s5 & Hrun & _ & Hslot).
  assert (Hst : handler_stable (jid_of p (nextjid sh))) by (apply jid_of_stable; lia).
  assert (Hfree3 : is_Some (free_slot (jobs s3))).
  { rewrite Hj3. apply free_slot_tracked, free_arrive. by apply free_slot_tracked. }
  assert (Hjid3 : jid_of p (nextjid sh) (jobs s3)).
  { rewrite Hj3. apply (stable_arrive _ _ Hst).
    apply list_find_None in Hnew. eapply Forall_impl; [exact Hnew|]. by intros jb ? ?. }
  destruct Hfree3 as [[i jb0] Hfind]. rewrite Hfind in Hslot. destruct Hslot as [Hj5 Hn5].
  assert (Hjid5 : jid_of p (nextjid sh) (jobs s5)).
  { rewrite Hj5. apply Forall_insert; [done|]. cbn. by rewrite Hn3. }
  apply (stable_deliver _ _ Hst) in Hjid5.
  assert (Hwrap : nextjid (deliver s5) = (if nextjid sh =? MAXJOBS then 1 else nextjid sh + 1)).
  { destruct (deliver_globals s5) as (-> & _). rewrite Hn5, Hn3.
    unfold MAXJOBS in *. destruct (Z.ltb_spec 16 (nextjid sh + 1)), (Z.eqb_spec (nextjid sh) 16); lia. }
  rewrite Heval, Hrun. unfold wait_or_announce. cbn [negb].
  rewrite bind_get. unfold printf, syscall, modify.
  eexists. split; [reflexivity|]. split; [|split].
  - cbn [log emit]. rewrite last_snoc, Hwrap. do 4 f_equal.
    unfold MAXJOBS in *. destruct (Z.eqb_spec (nextjid sh) 16); f_equal; lia.
  - cbn [jobs emit]. by apply (stable_arrive _ _ Hst).
  - cbn [nextjid emit]. by destruct (arrive_globals (deliver s5)) as (-> & _).
Qed.

Lemma background_launch_announced_witness :
  let sh := set_nextjid 16 (Examples.fresh [] [116]) in
  exists sh',
    eval Examples.sleeper sh = Ret tt sh' /\
    last (log sh') = Some (EvStdout "[0] 116
") /\
    jobs sh' !! 0%nat = Some (mkjob 116 116 16 BG Examples.sleeper).
Proof.
  intros sh.
  destruct (background_launch_announced sh Examples.sleeper ["sleep"; "100"] 116 [])
    as (sh' & Hrun & Hlast & _).
  - vm_compute. reflexivity.
  - intros s. reflexivity.
  - reflexivity.
  - lia.
  - eexists. vm_compute. reflexivity.
  - vm_compute. split; discriminate.
  - vm_compute. reflexivity.
  - exists sh'. split; [exact Hrun|]. split; [exact Hlast|].
    vm_compute in Hrun. injection Hrun as <-. reflexivity.
Defined.

(** X24. A foreground command in the shell, whether or not its job
    could be registered: [eval] ends neither the shell nor in
    [execvp]; when it returns to the prompt, the last thing it has
    done is to give the terminal back to the process group of the
    shell; otherwise it is suspended in [waitfg] for ever, with no
    report pending and none to come (its job may be gone all the
    same, when the report came between the test of [waitfg] and
    [sigsuspend]). *)
Theorem foreground_launch_returns_terminal sh cmdline argv p rest :
  split_line (snprintf_s MAXLINE cmdline) = (argv, false) ->
  (forall s, builtin_cmd argv s = Ret 0 s) ->
  fork_results sh = p :: rest ->
  p <> 0 ->
  match eval cmdline sh with
  | Ret _ sh' => last (log sh') = Some (EvTcsetpgrp (shell_pgid sh))
  | Hang sh' => pending sh' = [] /\ arrivals sh' = []
  | _ => False
  end.
Proof.
  intros Hsplit Hnb Hfork Hp.
  destruct (eval_parent sh cmdline argv false p rest Hsplit Hnb Hfork Hp)
    as (s3 & Heval & Hb3 & Hj3 & Hn3 & Hg3 & Hl3).
  destruct (register_run s3 p false cmdline Hb3) as (s5 & Hrun & Hg5 & _).
  rewrite Heval, Hrun. unfold wait_or_announce. cbn [negb].
  unfold bind at 1. unfold tcsetpgrp at 1, syscall, modify.
  set (s6 := emit (EvTcsetpgrp p) (arrive (deliver s5))).
  assert (Hg6 : shell_pgid s6 = shell_pgid sh).
  { subst s6. cbn [shell_pgid emit].
    destruct (arrive_globals (deliver s5)) as (_ & -> & _).
    destruct (deliver_globals s5) as (_ & -> & _). congruence. }
  pose proof (waitfg_loop_ends (S (S (length (arrivals s6)))) p s6) as Hends.
  pose proof (waitfg_hangs_when_quiet p s6) as Hhang.
  pose proof (waitfg_loop_globals (S (S (length (arrivals s6)))) p s6) as (_ & Hg7 & _).
  unfold bind at 1. unfold waitfg in *.
  destruct (waitfg_loop _ p s6) as [[] s7| | |s7]; try done.
  - rewrite bind_get. unfold tcsetpgrp, syscall, modify. cbn [log emit final] in *.
    rewrite last_snoc. congruence.
  - by apply Hhang.
Qed.

Lemma foreground_launch_returns_terminal_witness :
  let sh := Examples.quick_on_fresh in
  let late := Examples.fresh [[]; []; []; []; []; [(101, WExited 0)]] [101] in
  (exists sh',
     eval Examples.quick sh = Ret tt sh' /\
     last (log sh') = Some (EvTcsetpgrp 1000)) /\
  (exists sh',
     eval Examples.quick late = Hang sh' /\
     jobs sh' = replicate 16 clearjob /\ pending sh' = [] /\ arrivals sh' = []).
Proof.
  intros sh late. split.
  - pose proof (foreground_launch_returns_terminal sh Examples.quick ["sleep"; "3"] 101 [])
      as H.
    destruct (eval Examples.quick sh) as [[] sh'| | |] eqn:Hrun;
      try (vm_compute in Hrun; discriminate Hrun).
    exists sh'. split; [reflexivity|].
    apply H; [vm_compute; reflexivity|intros s; reflexivity|reflexivity|lia].
  - pose proof (foreground_launch_returns_terminal late Examples.quick ["sleep"; "3"] 101 [])
      as H.
    destruct (eval Examples.quick late) as [| | |sh'] eqn:Hrun;
      try (vm_compute in Hrun; discriminate Hrun).
    exists sh'. split; [reflexivity|]. split.
    + vm_compute in Hrun. injection Hrun as <-. reflexivity.
    + apply H; [vm_compute; reflexivity|intros s; reflexivity|reflexivity|lia].
Defined.

(** X25. The child of [eval]: with nothing reported to it, it
    unblocks [SIGCHLD], makes itself the leader of a new process
    group, sets the four terminal signals back to their default
    action, and calls [execvp] with the words of the line; when
    [execvp] fails it reports it and ends with status 1.  It leaves
    the job table alone and never returns to the prompt. *)
Theorem eval_child sh cmdline argv bg rest :
  split_line (snprintf_s MAXLINE cmdline) = (argv, bg) ->
  (forall s, builtin_cmd argv s = Ret 0 s) ->
  fork_results sh = 0 :: rest ->
  pending sh = [] -> arrivals sh = [] ->
  let argv0 := default EmptyString (head argv) in
  exists sh',
    eval cmdline sh =
      (if execvp_ok sh argv0 then Exec argv0 argv sh' else Exit 1 sh') /\
    log sh' = log sh ++ [EvSigBlock; EvFork 0] ++ child_setup
                ++ (if execvp_ok sh argv0 then [] else [EvPerror "execvp"]) /\
    jobs sh' = jobs sh /\ nextjid sh' = nextjid sh /\
    sigchld_blocked sh' = false.
Proof.
  intros Hsplit Hnb Hfork Hpend Harr argv0.
  assert (Hne : argv <> []).
  { intros ->. specialize (Hnb sh). cbn in Hnb. discriminate. }
  assert (Hquiet : forall s, arrivals s = [] -> arrive s = s).
  { intros s Hs. unfold arrive. by rewrite Hs. }
  set (s1 := emit EvSigBlock (set_blocked true sh)).
  set (s2 := emit (EvFork 0) (set_fork_results rest s1)).
  set (s3 := emit EvSigUnblock (set_blocked false s2)).
  set (s4 := emit (EvSetpgid 0 0) s3).
  set (s5 := emit (EvSignalDfl SIGINT) s4).
  set (s6 := emit (EvSignalDfl SIGTSTP) s5).
  set (s7 := emit (EvSignalDfl SIGTTIN) s6).
  set (s8 := emit (EvSignalDfl SIGTTOU) s7).
  unfold eval. rewrite Hsplit, bool_decide_eq_false_2 by done.
  rewrite (bind_Ret _ _ _ 0 sh) by apply Hnb. cbn [Z.eqb negb].
  rewrite (bind_Ret _ _ _ tt s1).
  2:{ unfold sigprocmask_block, modify. by rewrite (Hquiet sh Harr). }
  rewrite (bind_Ret _ _ _ 0 s2).
  2:{ unfold fork. rewrite (Hquiet s1 Harr). cbn [fork_results s1 emit set_blocked].
      by rewrite Hfork. }
  cbn [Z.eqb].
  rewrite (bind_Ret _ _ _ tt s3).
  2:{ unfold sigprocmask_unblock, modify. rewrite (Hquiet s2 Harr).
      unfold deliver. cbn [sigchld_blocked pending emit set_blocked set_fork_results s1 s2].
      by rewrite Hpend. }
  rewrite (bind_Ret _ _ _ tt s4).
  2:{ unfold setpgid, syscall, modify. by rewrite (Hquiet s3 Harr). }
  rewrite (bind_Ret _ _ _ tt s5).
  2:{ unfold signal_dfl, syscall, modify. by rewrite (Hquiet s4 Harr). }
  rewrite (bind_Ret _ _ _ tt s6).
  2:{ unfold signal_dfl, syscall, modify. by rewrite (Hquiet s5 Harr). }
  rewrite (bind_Ret _ _ _ tt s7).
  2:{ unfold signal_dfl, syscall, modify. by rewrite (Hquiet s6 Harr). }
  rewrite (bind_Ret _ _ _ tt s8).
  2:{ unfold signal_dfl, syscall, modify. by rewrite (Hquiet s7 Harr). }
  rewrite bind_get. fold argv0. change (execvp_ok s8) with (execvp_ok sh).
  destruct (execvp_ok sh argv0).
  - exists s8. split; [done|]. split; [|done].
    subst s8 s7 s6 s5 s4 s3 s2 s1. cbn [log emit set_blocked set_fork_results child_setup].
    by rewrite <- !app_assoc.
  - exists (emit (EvPerror "execvp") s8). split.
    { rewrite (bind_Ret _ _ _ tt (emit (EvPerror "execvp") s8)); [done|].
      unfold perror, syscall, modify. by rewrite (Hquiet s8 Harr). }
    split; [|done].
    subst s8 s7 s6 s5 s4 s3 s2 s1. cbn [log emit set_blocked set_fork_results child_setup].
    by rewrite <- !app_assoc.
Qed.

Lemma eval_child_witness :
  let sh := Examples.fresh [] [0] in
  exists sh',
    eval Examples.quick sh = Exec "sleep" ["sleep"; "3"] sh' /\
    log sh' = [EvSigBlock; EvFork 0; EvSigUnblock; EvSetpgid 0 0;
               EvSignalDfl SIGINT; EvSignalDfl SIGTSTP;
               EvSignalDfl SIGTTIN; EvSignalDfl SIGTTOU].
Proof.
  intros sh.
  destruct (eval_child sh Examples.quick ["sleep"; "3"] false [])
    as (sh' & Hrun & Hlog & _).
  - vm_compute. reflexivity.
  - intros s. reflexivity.
  - reflexivity.
  - reflexivity.
  - reflexivity.
  - exists sh'. split; [exact Hrun|]. exact Hlog.
Defined.

End ShellLaunch.

(* ================================================================== *)
(** * The handler and the refusals of [fg] and [bg] *)
(* ================================================================== *)

Section Handler.
Import Libc Control Wait Phase3 Phase3Shell.

Implicit Types (sh : shell) (p q : Z) (js : list job_t) (jb : job_t).

Lemma reaped_from_stable js0 : handler_stable (reaped_from js0).
Proof.
  intros js i jb x [Hlen Hfrom] Hi Hpos Hx. split; [by rewrite length_insert|].
  intros k jb' Hk. destruct (decide (k = i)) as [->|Hne].
  - rewrite list_lookup_insert_eq in Hk by (by eapply lookup_lt_Some).
    injection Hk as <-.
    destruct (Hfrom i jb Hi) as (jb0 & H0 & Hcase). exists jb0. split; [done|].
    destruct Hcase as [->|[Hp0 [->| ->]]].
    + right. by split.
    + cbn in Hpos. lia.
    + right. split; [done|]. destruct Hx as [->| ->]; [by left|by right].
  - rewrite list_lookup_insert_ne in Hk by done. by apply Hfrom.
Qed.

Lemma reap_one_events n sh :
  exists evs, log (reap_one n sh) = log sh ++ evs /\ Forall is_reap_event evs.
Proof.
  destruct n as [q st]. unfold reap_one.
  destruct (getjob_pid (jobs sh) q) as [[i jb]|] eqn:Hfind;
    cbn [fmap option_fmap option_map fst].
  - destruct st; cbn [WIFSTOPPED WIFCONTINUED WIFSIGNALED WIFEXITED];
      rewrite ?(deletejob_found q _ i jb) by exact Hfind;
      cbn [log set_jobs emit]; rewrite <- ?app_assoc;
      eexists; (split; [reflexivity|]); by repeat constructor.
  - eexists; split; [reflexivity|]. by repeat constructor.
Qed.

Lemma drain_events ns sh :
  exists evs, log (drain ns sh) = log sh ++ evs /\ Forall is_reap_event evs.
Proof.
  revert sh. induction ns as [|n ns IH]; intros sh.
  { exists []. by rewrite app_nil_r. }
  cbn [drain]. destruct (0 <? n.1); [|exists []; by rewrite app_nil_r].
  destruct (IH (reap_one n sh)) as (evs2 & -> & Hevs2).
  destruct (reap_one_events n sh) as (evs1 & -> & Hevs1).
  exists (evs1 ++ evs2). rewrite app_assoc. split; [done|]. by apply Forall_app.
Qed.

(** X26. One activation of the handler only reaps.  It uses up the
    pending reports; slot by slot, the table holds afterwards the job
    it held, possibly stopped, or nothing in place of a job with a
    process; the log grows by reports taken and lines printed only, so
    that no signal is sent and no process created; and [nextjid], the
    signal mask and what is still to come are as they were. *)
Theorem sigchld_handler_only_reaps sh :
  let sh' := sigchld_handler sh in
  pending sh' = [] /\
  reaped_from (jobs sh) (jobs sh') /\
  (exists evs, log sh' = log sh ++ evs /\ Forall is_reap_event evs) /\
  kills (log sh') = kills (log sh) /\
  nextjid sh' = nextjid sh /\ shell_pgid sh' = shell_pgid sh /\
  sigchld_blocked sh' = sigchld_blocked sh /\
  fork_results sh' = fork_results sh /\ arrivals sh' = arrivals sh.
Proof.
  intros sh'. subst sh'.
  destruct (handler_frame sh) as [Hp Ha].
  destruct (handler_globals sh) as (Hn & Hg & _).
  unfold sigchld_handler in *.
  destruct (drain_frame (pending sh) (set_pending [] sh)) as (Hf & Hb & _ & _).
  split; [done|]. split.
  { apply (stable_drain (reaped_from (jobs sh))); [apply reaped_from_stable|].
    split; [done|]. intros i jb Hi. exists jb. split; [done|by left]. }
  split; [apply (drain_events _ (set_pending [] sh))|].
  split; [apply (kills_drain _ (set_pending [] sh))|].
  done.
Qed.

(** X27. What [fg] and [bg] refuse.  Without an argument, or with
    one that does not start with [%], [do_bgfg] prints the usage line
    on the standard error; with [%] followed by a text that [atoi]
    reads as an [int] below 0 or above [MAXJOBS], the job id of no
    slot, it prints [No such job]; in each case it does nothing else.
    What [atoi] reads from a decimal number in the range of [int] is
    that number (a larger one wraps around, and may name a job). *)
Theorem do_bgfg_refuses sh (fg : bool) (cmd : string) :
  jobs_ok (jobs sh) ->
  let usage := (if fg then "fg" else "bg") +:+ " command requires %jobid
" in
  do_bgfg [cmd] fg sh = Ret tt (emit (EvStderr usage) (arrive sh)) /\
  (forall a1, first_char a1 <> Some "%"%char ->
     do_bgfg [cmd; a1] fg sh = Ret tt (emit (EvStderr usage) (arrive sh))) /\
  (forall num, atoi num < 0 \/ MAXJOBS < atoi num ->
     do_bgfg [cmd; "%" +:+ num] fg sh =
       Ret tt (emit (EvStderr ("%" +:+ num +:+ ": No such job
")) (arrive sh))) /\
  (forall j, - 2147483648 <= j <= 2147483647 -> atoi (dec j) = j).
Proof.
  intros [_ Hjids] usage. split; [done|]. split; [|split].
  - intros a1 Ha1. unfold do_bgfg. cbn [lookup list_lookup].
    by rewrite bool_decide_eq_false_2.
  - intros num Hj. unfold do_bgfg. cbn [lookup list_lookup].
    change (first_char ("%" +:+ num)) with (Some "%"%char).
    change (rest_chars ("%" +:+ num)) with num.
    rewrite bool_decide_eq_true_2 by done. cbn [negb].
    rewrite bind_get.
    assert (Hnone : getjob_jid (jobs sh) (atoi num) = None).
    { apply list_find_None. eapply Forall_impl; [exact Hjids|].
      intros jb Hjb. cbn beta in *. lia. }
    by rewrite Hnone.
  - apply atoi_dec.
Qed.

Lemma do_bgfg_refuses_witness :
  let sh := Examples.fresh [] [] in
  do_bgfg ["fg"; "%17"] true sh =
    Ret tt (emit (EvStderr "%17: No such job
") sh) /\
  do_bgfg ["bg"; "%-1"] false sh =
    Ret tt (emit (EvStderr "%-1: No such job
") sh) /\
  do_bgfg ["bg"; "%4294967313"] false sh =
    Ret tt (emit (EvStderr "%4294967313: No such job
") sh).
Proof.
  intros sh.
  assert (Hok : jobs_ok (jobs sh)).
  { split; [reflexivity|]. by apply Forall_replicate. }
  split; [|split].
  - refine (proj1 (proj2 (proj2 (do_bgfg_refuses sh true "fg" Hok))) "17" _).
    right. reflexivity.
  - refine (proj1 (proj2 (proj2 (do_bgfg_refuses sh false "bg" Hok))) "-1" _).
    left. reflexivity.
  - refine (proj1 (proj2 (proj2 (do_bgfg_refuses sh false "bg" Hok))) "4294967313" _).
    right. reflexivity.
Defined.

End Handler.
